(** * A BiBOP (big bag of pages) allocator: model and verification

    Shallow embedding of [allocator.c]: a segregated size-class allocator
    whose pages come from [mmap].  The heap is a byte-addressed finite map;
    the allocator's globals are a record; [xxmalloc], [xxmalloc_usable_size]
    and [xxfree] are functions in a small state-and-failure monad.

    Platform assumptions (the source itself fixes them by mixing
    [__builtin_clzl] with [8 * sizeof(size_t)]): LP64, little endian,
    two's complement; [sizeof(Header) = 32] with [magicNum] at offset 0,
    [size] at 8, [freelist] at 16 and [next] at 24. *)

From Stdlib Require Import ZArith Lia.
From Stdlib.Strings Require Import Byte.
From stdpp Require Import base option list gmap.

Local Open Scope Z_scope.

(** ** Byte-addressed memory *)

Module Mem.

Definition byte_of_Z (z : Z) : byte :=
  match Byte.of_N (Z.to_N (z mod 256)) with
  | Some b => b
  | None => x00
  end.

Definition Z_of_byte (b : byte) : Z := Z.of_N (Byte.to_N b).

(** Little-endian encoding of the low [n] bytes of [v]. *)
Fixpoint encode (n : nat) (v : Z) : list byte :=
  match n with
  | O => []
  | S n' => byte_of_Z v :: encode n' (v / 256)
  end.

Fixpoint decode (bs : list byte) : Z :=
  match bs with
  | [] => 0
  | b :: bs' => Z_of_byte b + 256 * decode bs'
  end.

(** An address that is not a key of the map is unmapped: touching it is
    an invalid access. *)
Fixpoint load_bytes (m : gmap Z byte) (a : Z) (n : nat) : option (list byte) :=
  match n with
  | O => Some []
  | S n' =>
      match m !! a with
      | Some b =>
          match load_bytes m (a + 1) n' with
          | Some bs => Some (b :: bs)
          | None => None
          end
      | None => None
      end
  end.

Fixpoint store_bytes (m : gmap Z byte) (a : Z) (bs : list byte) : option (gmap Z byte) :=
  match bs with
  | [] => Some m
  | b :: bs' =>
      match m !! a with
      | Some _ => store_bytes (<[a := b]> m) (a + 1) bs'
      | None => None
      end
  end.

(** Unsigned load and store of [n]-byte integers. *)
Definition load (n : nat) (m : gmap Z byte) (a : Z) : option Z :=
  match load_bytes m a n with
  | Some bs => Some (decode bs)
  | None => None
  end.

Definition store (n : nat) (m : gmap Z byte) (a v : Z) : option (gmap Z byte) :=
  store_bytes m a (encode n v).

(** What a successful anonymous mapping does to the address space:
    [len] fresh zero bytes from [base] on. *)
Definition map_zero (m : gmap Z byte) (base len : Z) : gmap Z byte :=
  foldr (fun a acc => <[a := x00]> acc) m (seqZ base len).

Definition mapped (m : gmap Z byte) (a n : Z) : Prop :=
  forall x, a <= x < a + n -> is_Some (m !! x).

Definition unmapped (m : gmap Z byte) (a n : Z) : Prop :=
  forall x, a <= x < a + n -> m !! x = None.

(** *** Encoding lemmas *)

Lemma Z_of_byte_range b : 0 <= Z_of_byte b < 256.
Proof.
  unfold Z_of_byte. pose proof (Byte.to_N_bounded b) as H. lia.
Qed.

Lemma Z_of_byte_of_Z z : Z_of_byte (byte_of_Z z) = z mod 256.
Proof.
  unfold Z_of_byte, byte_of_Z.
  assert (Hr : 0 <= z mod 256 < 256) by (apply Z.mod_pos_bound; lia).
  destruct (Byte.of_N (Z.to_N (z mod 256))) as [b|] eqn:E.
  - apply Byte.to_of_N in E. rewrite E. lia.
  - apply Byte.of_N_None_iff in E. lia.
Qed.

Lemma length_encode n v : length (encode n v) = n.
Proof. revert v. induction n as [|n IH]; intros v; simpl; [done|]. by rewrite IH. Qed.

Lemma decode_encode n v : decode (encode n v) = v mod 256 ^ Z.of_nat n.
Proof.
  revert v. induction n as [|n IH]; intros v.
  - simpl. by rewrite Z.mod_1_r.
  - cbn [encode decode]. rewrite IH, Z_of_byte_of_Z.
    rewrite Nat2Z.inj_succ, Z.pow_succ_r by lia.
    rewrite Z.rem_mul_r by lia. lia.
Qed.

Lemma decode_range bs : 0 <= decode bs < 256 ^ Z.of_nat (length bs).
Proof.
  induction bs as [|b bs IH]; [simpl; lia|].
  cbn [decode length]. rewrite Nat2Z.inj_succ, Z.pow_succ_r by lia.
  pose proof (Z_of_byte_range b). lia.
Qed.

(** *** Load and store lemmas *)

Lemma length_load_bytes m a n bs : load_bytes m a n = Some bs -> length bs = n.
Proof.
  revert a bs. induction n as [|n IH]; intros a bs; simpl.
  - by intros [= <-].
  - destruct (m !! a); [|done].
    destruct (load_bytes m (a + 1) n) eqn:E; [|done].
    intros [= <-]. simpl. f_equal. eauto.
Qed.

Lemma load_bytes_ext m m' a n :
  (forall x, a <= x < a + Z.of_nat n -> m' !! x = m !! x) ->
  load_bytes m' a n = load_bytes m a n.
Proof.
  revert a. induction n as [|n IH]; intros a H; simpl; [done|].
  rewrite H by lia. rewrite IH; [done|]. intros x Hx. apply H. lia.
Qed.

Lemma load_bytes_is_Some m a n :
  mapped m a (Z.of_nat n) -> is_Some (load_bytes m a n).
Proof.
  revert a. induction n as [|n IH]; intros a H; simpl; [by eexists|].
  destruct (H a) as [b ->]; [lia|].
  destruct (IH (a + 1)) as [bs ->]; [|by eexists].
  intros x Hx. apply H. lia.
Qed.

Lemma load_bytes_mapped m a n bs :
  load_bytes m a n = Some bs -> mapped m a (Z.of_nat n).
Proof.
  revert a bs. induction n as [|n IH]; intros a bs; simpl.
  - intros _ x Hx. lia.
  - destruct (m !! a) as [b|] eqn:Ea; [|done].
    destruct (load_bytes m (a + 1) n) as [bs'|] eqn:E; [|done].
    intros _ x Hx. destruct (decide (x = a)) as [->|Hne]; [by eexists|].
    apply (IH _ _ E). lia.
Qed.

Lemma store_bytes_lookup_out m a bs m' x :
  store_bytes m a bs = Some m' ->
  x < a \/ a + Z.of_nat (length bs) <= x ->
  m' !! x = m !! x.
Proof.
  revert m a. induction bs as [|b bs IH]; intros m a; simpl.
  - by intros [= <-].
  - destruct (m !! a) eqn:Ea; [|done]. intros Hs Hx.
    rewrite (IH _ _ Hs) by lia. apply lookup_insert_ne. lia.
Qed.

Lemma store_bytes_is_Some_lookup m a bs m' x :
  store_bytes m a bs = Some m' ->
  is_Some (m' !! x) <-> is_Some (m !! x).
Proof.
  revert m a. induction bs as [|b bs IH]; intros m a; simpl.
  - by intros [= <-].
  - destruct (m !! a) eqn:Ea; [|done]. intros Hs.
    rewrite (IH _ _ Hs). destruct (decide (a = x)) as [->|Hne].
    + rewrite lookup_insert_eq, Ea. split; by eexists.
    + by rewrite lookup_insert_ne.
Qed.

Lemma store_bytes_is_Some m a bs :
  mapped m a (Z.of_nat (length bs)) -> is_Some (store_bytes m a bs).
Proof.
  revert m a. induction bs as [|b bs IH]; intros m a H; simpl; [by eexists|].
  destruct (H a) as [b0 ->]; [simpl; lia|].
  apply IH. intros x Hx. destruct (decide (a = x)) as [->|Hne].
  - rewrite lookup_insert_eq. by eexists.
  - rewrite lookup_insert_ne by done. apply H. simpl. lia.
Qed.

Lemma store_bytes_mapped_inv m a bs m' :
  store_bytes m a bs = Some m' -> mapped m a (Z.of_nat (length bs)).
Proof.
  revert m a. induction bs as [|b bs IH]; intros m a; simpl.
  - intros _ x Hx. lia.
  - destruct (m !! a) eqn:Ea; [|done]. intros Hs x Hx.
    destruct (decide (x = a)) as [->|Hne]; [by eexists|].
    assert (Hm : is_Some (<[a:=b]> m !! x)) by (apply (IH _ _ Hs); lia).
    by rewrite lookup_insert_ne in Hm.
Qed.

Lemma load_bytes_store_bytes m a bs m' :
  store_bytes m a bs = Some m' -> load_bytes m' a (length bs) = Some bs.
Proof.
  revert m a. induction bs as [|b bs IH]; intros m a; simpl; [done|].
  destruct (m !! a) eqn:Ea; [|done]. intros Hs.
  rewrite (store_bytes_lookup_out _ _ _ _ a Hs) by lia.
  rewrite lookup_insert_eq. by rewrite (IH _ _ Hs).
Qed.

Lemma load_store_eq n m a v m' :
  store n m a v = Some m' -> load n m' a = Some (v mod 256 ^ Z.of_nat n).
Proof.
  unfold store, load. intros Hs.
  pose proof (load_bytes_store_bytes _ _ _ _ Hs) as Hl.
  rewrite length_encode in Hl. by rewrite Hl, decode_encode.
Qed.

Lemma lookup_store_out n m a v m' x :
  store n m a v = Some m' -> x < a \/ a + Z.of_nat n <= x -> m' !! x = m !! x.
Proof.
  unfold store. intros Hs Hx. eapply store_bytes_lookup_out; [done|].
  by rewrite length_encode.
Qed.

Lemma load_store_ne n k m a v m' b :
  store n m a v = Some m' ->
  b + Z.of_nat k <= a \/ a + Z.of_nat n <= b ->
  load k m' b = load k m b.
Proof.
  intros Hs Hd. unfold load. rewrite (load_bytes_ext m m'); [done|].
  intros x Hx. eapply lookup_store_out; [done|]. lia.
Qed.

Lemma load_ext n m m' a :
  (forall x, a <= x < a + Z.of_nat n -> m' !! x = m !! x) ->
  load n m' a = load n m a.
Proof. intros H. unfold load. by rewrite (load_bytes_ext m m'). Qed.

Lemma load_is_Some n m a : mapped m a (Z.of_nat n) -> is_Some (load n m a).
Proof.
  intros H. unfold load. destruct (load_bytes_is_Some _ _ _ H) as [bs ->]. by eexists.
Qed.

Lemma load_mapped n m a v : load n m a = Some v -> mapped m a (Z.of_nat n).
Proof.
  unfold load. destruct (load_bytes m a n) eqn:E; [|done].
  intros _. by eapply load_bytes_mapped.
Qed.

Lemma load_range n m a v : load n m a = Some v -> 0 <= v < 256 ^ Z.of_nat n.
Proof.
  unfold load. destruct (load_bytes m a n) as [bs|] eqn:E; [|done].
  intros [= <-]. rewrite <- (length_load_bytes _ _ _ _ E). apply decode_range.
Qed.

Lemma store_is_Some n m a v : mapped m a (Z.of_nat n) -> is_Some (store n m a v).
Proof. intros H. unfold store. apply store_bytes_is_Some. by rewrite length_encode. Qed.

Lemma store_mapped_inv n m a v m' : store n m a v = Some m' -> mapped m a (Z.of_nat n).
Proof.
  unfold store. intros Hs. apply store_bytes_mapped_inv in Hs.
  by rewrite length_encode in Hs.
Qed.

Lemma store_is_Some_lookup n m a v m' x :
  store n m a v = Some m' -> is_Some (m' !! x) <-> is_Some (m !! x).
Proof. unfold store. apply store_bytes_is_Some_lookup. Qed.

Lemma store_mapped n m a v m' b k :
  store n m a v = Some m' -> mapped m b k -> mapped m' b k.
Proof.
  intros Hs H x Hx. apply (store_is_Some_lookup _ _ _ _ _ x Hs). by apply H.
Qed.

Lemma store_unmapped n m a v m' x :
  store n m a v = Some m' -> m !! x = None -> m' !! x = None.
Proof.
  intros Hs H. pose proof (store_is_Some_lookup _ _ _ _ _ x Hs) as Hi.
  rewrite H in Hi. destruct (m' !! x) eqn:E; [|done].
  destruct Hi as [Hi _]. destruct Hi; [by eexists|done].
Qed.

Lemma lookup_map_zero m base len x :
  map_zero m base len !! x =
    if decide (base <= x < base + len) then Some x00 else m !! x.
Proof.
  unfold map_zero.
  assert (G : forall l, foldr (fun a acc => <[a := x00]> acc) m l !! x =
            if decide (x ∈ l) then Some x00 else m !! x).
  { induction l as [|a l IH]; cbn [foldr].
    - rewrite decide_False; [done|]. apply not_elem_of_nil.
    - destruct (decide (a = x)) as [->|Hne].
      + rewrite lookup_insert_eq, decide_True; [done|]. apply elem_of_cons. by left.
      + rewrite lookup_insert_ne, IH by done.
        destruct (decide (x ∈ l)) as [Hin|Hin].
        * rewrite decide_True; [done|]. apply elem_of_cons. by right.
        * rewrite decide_False; [done|]. rewrite elem_of_cons. intros [?|?]; congruence. }
  rewrite G. destruct (decide (base <= x < base + len)) as [Hr|Hr].
  - rewrite decide_True; [done|]. apply elem_of_seqZ. lia.
  - rewrite decide_False; [done|]. rewrite elem_of_seqZ. lia.
Qed.

Lemma map_zero_mapped m base len : mapped (map_zero m base len) base len.
Proof.
  intros x Hx. rewrite lookup_map_zero. rewrite decide_True by done. by eexists.
Qed.

Lemma map_zero_lookup_out m base len x :
  x < base \/ base + len <= x -> map_zero m base len !! x = m !! x.
Proof. intros H. rewrite lookup_map_zero. rewrite decide_False; [done|lia]. Qed.

Lemma map_zero_empty m base : map_zero m base 0 = m.
Proof. reflexivity. Qed.

(** Zero bytes read as 0 at any width. *)
Lemma load_zero n m a :
  (forall x, a <= x < a + Z.of_nat n -> m !! x = Some x00) -> load n m a = Some 0.
Proof.
  intros H. unfold load.
  assert (G : load_bytes m a n = Some (replicate n x00)).
  { revert a H. induction n as [|n IH]; intros a H; cbn [load_bytes replicate]; [done|].
    rewrite H by lia. rewrite IH; [done|]. intros x Hx. apply H. lia. }
  rewrite G. f_equal. clear. induction n as [|n IH]; cbn [replicate decode]; [done|].
  rewrite IH. reflexivity.
Qed.

Lemma load_bytes_take m a n k bs :
  load_bytes m a (n + k) = Some bs -> load_bytes m a n = Some (take n bs).
Proof.
  revert a bs. induction n as [|n IH]; intros a bs; cbn [load_bytes Nat.add take]; [done|].
  destruct (m !! a) as [b|]; [|done].
  destruct (load_bytes m (a + 1) (n + k)) as [bs'|] eqn:E; [|done].
  intros [= <-]. by rewrite (IH _ _ E).
Qed.

(** The low half of a stored 8-byte word (little endian). *)
Lemma load_low_half m a v m' :
  store 8 m a v = Some m' -> load 4 m' a = Some (v mod 256 ^ 4).
Proof.
  intros Hs. unfold store in Hs. pose proof (load_bytes_store_bytes _ _ _ _ Hs) as Hl.
  rewrite length_encode in Hl. unfold load.
  rewrite (load_bytes_take m' a 4 4 _ Hl). f_equal. apply (decode_encode 4).
Qed.

End Mem.

(** ** Constants, integer conversions and macros *)

Definition MIN_MALLOC_SIZE : Z := 16.
Definition PAGE_SIZE : Z := 0x1000.
Definition MAGIC : Z := 0xF00DFACE.
Definition NULL : Z := 0.
(** [MAP_FAILED] is [(void * ) -1]. *)
Definition MAP_FAILED : Z := 2 ^ 64 - 1.
(** [sizeof(size_t)] in bytes, and [sizeof(Header)] with its field offsets. *)
Definition sizeof_size_t : Z := 8.
Definition sizeof_Header : Z := 32.
Definition Header_magicNum (h : Z) : Z := h.
Definition Header_size (h : Z) : Z := h + 8.
Definition Header_freelist (h : Z) : Z := h + 16.
Definition Header_next (h : Z) : Z := h + 24.
Definition Node_next (n : Z) : Z := n.

(** Conversions to [size_t] or a pointer, [intptr_t], [int] and
    [unsigned int]. *)
Definition to_size_t (z : Z) : Z := z mod 2 ^ 64.
Definition to_intptr (z : Z) : Z :=
  let u := z mod 2 ^ 64 in if u <? 2 ^ 63 then u else u - 2 ^ 64.
Definition to_int (z : Z) : Z :=
  let u := z mod 2 ^ 32 in if u <? 2 ^ 31 then u else u - 2 ^ 32.
Definition to_unsigned (z : Z) : Z := z mod 2 ^ 32.

(** [ROUND_UP(x,y)] and [ROUND_DOWN(x,y)] at type [unsigned long]; [y] is
    never 0 where the macros are applied (callers check). *)
Definition ROUND_UP (x y : Z) : Z :=
  if x mod y =? 0 then x else to_size_t (x + (y - x mod y)).
Definition ROUND_DOWN (x y : Z) : Z := to_size_t (x - x mod y).
(** [ROUND_DOWN(x,y)] at type [long]: C's [%] truncates toward zero. *)
Definition ROUND_DOWN_intptr (x y : Z) : Z := x - Z.rem x y.

(** [__builtin_clzl] on a nonzero 64-bit value and [__builtin_ctz] on a
    nonzero value converted to [unsigned int]. *)
Definition builtin_clzl (x : Z) : Z := 63 - Z.log2 x.
Definition builtin_ctz (x : Z) : Z :=
  let u := to_unsigned x in Z.log2 (Z.land u (- u)).

(** ** Allocator state *)

Record state : Type := mkState {
  in_malloc : bool;
  use_emergency_block : bool;
  blockPtrs : list Z;
  p : Z;
  offset : Z;
  heap : gmap Z byte
}.

Definition initial_state : state :=
  {| in_malloc := false; use_emergency_block := false;
     blockPtrs := replicate 8 NULL; p := NULL; offset := 0; heap := ∅ |}.

(** How a call ends.  [Hangs] is the [for(;;){}] after the nested-call
    diagnostic, [Exits] is [exit(2)] after [perror]; [Crashes] stands for
    undefined behaviour (access to unmapped memory, an index outside
    [blockPtrs], a remainder by zero).  [OutOfFuel] is an artefact of the
    bounded loop model; it is shown unreachable. *)
Inductive outcome (A : Type) : Type :=
| Returns (a : A) (st : state)
| Hangs (st : state)
| Exits (code : Z) (st : state)
| Crashes
| OutOfFuel.
Arguments Returns {A} a st.
Arguments Hangs {A} st.
Arguments Exits {A} code st.
Arguments Crashes {A}.
Arguments OutOfFuel {A}.

Definition M (A : Type) : Type := state -> outcome A.

Definition ret {A} (a : A) : M A := fun st => Returns a st.

Definition bind {A B} (m : M A) (f : A -> M B) : M B :=
  fun st =>
    match m st with
    | Returns a st' => f a st'
    | Hangs st' => Hangs st'
    | Exits c st' => Exits c st'
    | Crashes => Crashes
    | OutOfFuel => OutOfFuel
    end.

Notation "'let*' x ':=' m 'in' k" := (bind m (fun x => k))
  (at level 10, x name, m at level 100, k at level 200).
Notation "m ';;' k" := (bind m (fun _ => k))
  (at level 100, k at level 200, right associativity).

Definition crash {A} : M A := fun _ => Crashes.
Definition hang {A} : M A := fun st => Hangs st.
Definition exit {A} (code : Z) : M A := fun st => Exits code st.

Definition get {A} (f : state -> A) : M A := fun st => Returns (f st) st.

Definition set_in_malloc (b : bool) : M unit := fun st =>
  Returns tt (mkState b (use_emergency_block st) (blockPtrs st) (p st) (offset st) (heap st)).
Definition set_use_emergency_block (b : bool) : M unit := fun st =>
  Returns tt (mkState (in_malloc st) b (blockPtrs st) (p st) (offset st) (heap st)).
Definition set_p (v : Z) : M unit := fun st =>
  Returns tt (mkState (in_malloc st) (use_emergency_block st) (blockPtrs st) v (offset st) (heap st)).
Definition set_offset (v : Z) : M unit := fun st =>
  Returns tt (mkState (in_malloc st) (use_emergency_block st) (blockPtrs st) (p st) v (heap st)).
Definition set_heap (m : gmap Z byte) (st : state) : state :=
  mkState (in_malloc st) (use_emergency_block st) (blockPtrs st) (p st) (offset st) m.

(** [blockPtrs[i]] as an rvalue and as an lvalue. *)
Definition get_blockPtr (i : Z) : M Z := fun st =>
  if (0 <=? i) && (i <? 8) then
    match blockPtrs st !! Z.to_nat i with
    | Some v => Returns v st
    | None => Crashes
    end
  else Crashes.
Definition set_blockPtr (i v : Z) : M unit := fun st =>
  if (0 <=? i) && (i <? 8) then
    Returns tt (mkState (in_malloc st) (use_emergency_block st)
                  (<[Z.to_nat i := v]> (blockPtrs st)) (p st) (offset st) (heap st))
  else Crashes.

(** Loads and stores of a [size_t] or pointer (8 bytes) and of an [int]. *)
Definition load64 (a : Z) : M Z := fun st =>
  match Mem.load 8 (heap st) a with
  | Some v => Returns v st
  | None => Crashes
  end.
Definition store64 (a v : Z) : M unit := fun st =>
  match Mem.store 8 (heap st) a v with
  | Some m' => Returns tt (set_heap m' st)
  | None => Crashes
  end.
Definition load_int (a : Z) : M Z := fun st =>
  match Mem.load 4 (heap st) a with
  | Some v => Returns (to_int v) st
  | None => Crashes
  end.
Definition store_int (a v : Z) : M unit := fun st =>
  match Mem.store 4 (heap st) a v with
  | Some m' => Returns tt (set_heap m' st)
  | None => Crashes
  end.

(** The Page Source.  [os len] is what
    [mmap(NULL, len, PROT_READ | PROT_WRITE, MAP_ANONYMOUS | MAP_PRIVATE, -1, 0)]
    answers at this call: [MAP_FAILED], or the base of [len] new zero bytes. *)
Definition mmap (os : Z -> Z) (len : Z) : M Z := fun st =>
  let r := os len in
  if r =? MAP_FAILED then Returns r st
  else Returns r (set_heap (Mem.map_zero (heap st) r len) st).

(** ** The allocator *)

(** Lines 93-100: the exponent of the block size. *)
Definition class_log2 (size : Z) : Z :=
  if builtin_clzl size + builtin_ctz size + 1 <? 8 * sizeof_size_t
  then 8 * sizeof_size_t - builtin_clzl size
  else builtin_ctz size.

(** Lines 131-136: the loop that threads the blocks of a new page;
    [offset] is the global. *)
Fixpoint carve (fuel : nat) (firstPtr size : Z) : M unit :=
  match fuel with
  | O => fun _ => OutOfFuel
  | S fuel' =>
      let* off := get offset in
      if off <? PAGE_SIZE then
        let newNode := to_size_t (to_intptr firstPtr + off) in
        let* fl := load64 (Header_freelist firstPtr) in
        store64 (Node_next newNode) fl ;;
        store64 (Header_freelist firstPtr) newNode ;;
        set_offset (to_size_t (off + size)) ;;
        carve fuel' firstPtr size
      else ret tt
  end.

(** Lines 112-136: a new page for class [index]. *)
Definition new_page (os : Z -> Z) (index size : Z) : M unit :=
  let* q := mmap os PAGE_SIZE in
  set_p q ;;
  let* newBlock := get p in
  let* old := get_blockPtr index in
  store64 (Header_next newBlock) old ;;
  set_blockPtr index newBlock ;;
  let* b := get_blockPtr index in
  store_int (Header_magicNum b) (to_int MAGIC) ;;
  let* b := get_blockPtr index in
  store64 (Header_size b) size ;;
  let* b := get_blockPtr index in
  store64 (Header_freelist b) NULL ;;
  let* firstPtr := get p in
  if size =? 0 then crash else
  set_offset (ROUND_UP sizeof_Header size) ;;
  carve (Z.to_nat PAGE_SIZE) firstPtr size.

(** Lines 139-140: pop the head of the current page's freelist. *)
Definition pop (index : Z) : M unit :=
  let* b := get_blockPtr index in
  let* f := load64 (Header_freelist b) in
  set_p f ;;
  let* b := get_blockPtr index in
  let* f := load64 (Header_freelist b) in
  let* n := load64 (Node_next f) in
  let* b := get_blockPtr index in
  store64 (Header_freelist b) n.

Section Allocator.

(** The address of the static [emergency_block]. *)
Variable emergency_block : Z.

Definition xxmalloc (os : Z -> Z) (size : Z) : M Z :=
  if size =? 0 then ret NULL else
  let* e := get use_emergency_block in
  if e then ret emergency_block else
  let* im := get in_malloc in
  if im then
    set_use_emergency_block true ;; hang
  else
    set_in_malloc true ;;
    let size := if size <? MIN_MALLOC_SIZE then MIN_MALLOC_SIZE else size in
    if size >? 2048 then
      let size := ROUND_UP size PAGE_SIZE in
      let* q := mmap os size in
      set_in_malloc false ;;
      ret q
    else
      let log2 := class_log2 size in
      let index := log2 - builtin_ctz MIN_MALLOC_SIZE in
      let size := Z.shiftl 1 log2 in
      let* b := get_blockPtr index in
      let* need :=
        (if b =? NULL then ret true
         else let* f := load64 (Header_freelist b) in ret (f =? NULL)) in
      (if need : bool then new_page os index size else ret tt) ;;
      pop index ;;
      let* q := get p in
      if q =? MAP_FAILED then
        set_use_emergency_block true ;; exit 2
      else
        set_in_malloc false ;;
        ret q.

End Allocator.

Definition xxmalloc_usable_size (ptr : Z) : M Z :=
  if ptr =? NULL then ret 0 else
  let blockHeader := to_size_t (ROUND_DOWN_intptr (to_intptr ptr) PAGE_SIZE) in
  let* magic := load_int (Header_magicNum blockHeader) in
  if negb (to_unsigned magic =? MAGIC) then ret PAGE_SIZE
  else load64 (Header_size blockHeader).

Definition xxfree (ptr : Z) : M unit :=
  if ptr =? NULL then ret tt else
  let blockHeader := to_size_t (ROUND_DOWN_intptr (to_intptr ptr) PAGE_SIZE) in
  let* size := xxmalloc_usable_size ptr in
  let* magic := load_int (Header_magicNum blockHeader) in
  if (ptr =? NULL) || negb (to_unsigned magic =? MAGIC) then ret tt else
  if size =? 0 then crash else
  let start := ROUND_DOWN (to_size_t (to_intptr ptr)) size in
  let* fl := load64 (Header_freelist blockHeader) in
  store64 (Node_next start) fl ;;
  store64 (Header_freelist blockHeader) start.

(** [sizeof(int)]. *)
Definition sizeof_int : Z := 4.

(** Lines 207-215: [main].  The result pairs the integer handed to [printf]
    with the exit status; [printf] does not touch the allocator. *)
Definition main (eb : Z) (os : Z -> Z) : M (Z * Z) :=
  let* ptr := xxmalloc eb os sizeof_int in
  store_int ptr 6 ;;
  let* v := load_int ptr in
  xxfree ptr ;;
  ret (v, 0).

(** The nodes of a NULL-terminated list, read off the heap. *)
Fixpoint walk (fuel : nat) (m : gmap Z byte) (h : Z) : option (list Z) :=
  if h =? NULL then Some [] else
  match fuel with
  | O => None
  | S fuel' =>
      match Mem.load 8 m (Node_next h) with
      | Some n =>
          match walk fuel' m n with
          | Some l => Some (h :: l)
          | None => None
          end
      | None => None
      end
  end.

(** [k] consecutive calls of [xxmalloc(n)], results in call order. *)
Fixpoint xxmalloc_times (eb : Z) (os : Z -> Z) (n : Z) (k : nat) : M (list Z) :=
  match k with
  | O => ret []
  | S k' =>
      let* q := xxmalloc eb os n in
      let* qs := xxmalloc_times eb os n k' in
      ret (q :: qs)
  end.

(** ** Reasoning rules for the monad *)

Definition wp {A} (m : M A) (st : state) (Q : A -> state -> Prop) : Prop :=
  match m st with
  | Returns a st' => Q a st'
  | _ => False
  end.

Lemma wp_returns {A} (m : M A) st Q :
  wp m st Q <-> exists a st', m st = Returns a st' /\ Q a st'.
Proof.
  unfold wp. split.
  - destruct (m st) as [a st'| | | |]; try done. intros H. by exists a, st'.
  - intros (a & st' & -> & H). done.
Qed.

Lemma wp_mono {A} (m : M A) st (Q Q' : A -> state -> Prop) :
  wp m st Q -> (forall a st', Q a st' -> Q' a st') -> wp m st Q'.
Proof. unfold wp. destruct (m st); try done. intros H HQ. by apply HQ. Qed.

Lemma wp_ret {A} (a : A) st Q : Q a st -> wp (ret a) st Q.
Proof. done. Qed.

Lemma wp_bind {A B} (m : M A) (f : A -> M B) st Q :
  wp m st (fun a st' => wp (f a) st' Q) -> wp (bind m f) st Q.
Proof. unfold wp, bind. by destruct (m st). Qed.

Lemma wp_get {A} (f : state -> A) st Q : Q (f st) st -> wp (get f) st Q.
Proof. done. Qed.

Lemma wp_load64 a st v Q :
  Mem.load 8 (heap st) a = Some v -> Q v st -> wp (load64 a) st Q.
Proof. unfold wp, load64. by intros ->. Qed.

Lemma wp_store64 a v st Q :
  Mem.mapped (heap st) a 8 ->
  (forall m', Mem.store 8 (heap st) a v = Some m' -> Q tt (set_heap m' st)) ->
  wp (store64 a v) st Q.
Proof.
  intros Hm HQ. unfold wp, store64.
  destruct (Mem.store_is_Some 8 (heap st) a v Hm) as [m' E]. rewrite E. by apply HQ.
Qed.

Lemma wp_load_int a st v Q :
  Mem.load 4 (heap st) a = Some v -> Q (to_int v) st -> wp (load_int a) st Q.
Proof. unfold wp, load_int. by intros ->. Qed.

Lemma wp_store_int a v st Q :
  Mem.mapped (heap st) a 4 ->
  (forall m', Mem.store 4 (heap st) a v = Some m' -> Q tt (set_heap m' st)) ->
  wp (store_int a v) st Q.
Proof.
  intros Hm HQ. unfold wp, store_int.
  destruct (Mem.store_is_Some 4 (heap st) a v Hm) as [m' E]. rewrite E. by apply HQ.
Qed.

Lemma wp_get_blockPtr i st v Q :
  0 <= i < 8 -> blockPtrs st !! Z.to_nat i = Some v -> Q v st ->
  wp (get_blockPtr i) st Q.
Proof.
  intros Hi Hv HQ. unfold wp, get_blockPtr.
  replace ((0 <=? i) && (i <? 8)) with true by (symmetry; apply andb_true_iff; lia).
  by rewrite Hv.
Qed.

Lemma wp_set_blockPtr i v st Q :
  0 <= i < 8 ->
  Q tt (mkState (in_malloc st) (use_emergency_block st)
          (<[Z.to_nat i := v]> (blockPtrs st)) (p st) (offset st) (heap st)) ->
  wp (set_blockPtr i v) st Q.
Proof.
  intros Hi HQ. unfold wp, set_blockPtr.
  by replace ((0 <=? i) && (i <? 8)) with true by (symmetry; apply andb_true_iff; lia).
Qed.

(** One step of symbolic execution through an operation that cannot fail. *)
Ltac wp_pure :=
  lazymatch goal with
  | |- wp (bind (get ?f) ?k) ?st ?Q => change (wp (k (f st)) st Q)
  | |- wp (bind (ret ?a) ?k) ?st ?Q => change (wp (k a) st Q)
  | |- wp (bind (set_in_malloc ?b) ?k) ?st ?Q =>
      change (wp (k tt) (mkState b (use_emergency_block st) (blockPtrs st)
                           (p st) (offset st) (heap st)) Q)
  | |- wp (bind (set_use_emergency_block ?b) ?k) ?st ?Q =>
      change (wp (k tt) (mkState (in_malloc st) b (blockPtrs st)
                           (p st) (offset st) (heap st)) Q)
  | |- wp (bind (set_p ?v) ?k) ?st ?Q =>
      change (wp (k tt) (mkState (in_malloc st) (use_emergency_block st)
                           (blockPtrs st) v (offset st) (heap st)) Q)
  | |- wp (bind (set_offset ?v) ?k) ?st ?Q =>
      change (wp (k tt) (mkState (in_malloc st) (use_emergency_block st)
                           (blockPtrs st) (p st) v (heap st)) Q)
  | |- wp (ret ?a) ?st ?Q => change (Q a st)
  end;
  cbv beta;
  cbn [in_malloc use_emergency_block blockPtrs p offset heap set_heap].

Ltac wp_load H := eapply wp_bind; eapply wp_load64; [exact H|]; cbv beta.

Ltac wp_store m H :=
  eapply wp_bind; eapply wp_store64;
  [cbn [heap]|intros m H; cbv beta;
     cbn [in_malloc use_emergency_block blockPtrs p offset heap set_heap] in *].

Ltac decide_if b :=
  match goal with
  | |- context [if ?c then _ else _] =>
      replace c with b; [cbv iota|symmetry]
  end.

(** ** Integer conversions *)

Ltac pow_consts :=
  change (2 ^ 64) with 18446744073709551616 in *;
  change (2 ^ 63) with 9223372036854775808 in *;
  change (2 ^ 32) with 4294967296 in *;
  change (2 ^ 31) with 2147483648 in *.

(** Linear arithmetic with the fixed-width constants and with division and
    remainder by literals. *)
Ltac mlia :=
  unfold PAGE_SIZE, NULL, MIN_MALLOC_SIZE, sizeof_Header, MAP_FAILED,
    Header_magicNum, Header_size, Header_freelist, Header_next, Node_next in *;
  pow_consts; Z.div_mod_to_equations; lia.

Lemma to_size_t_small z : 0 <= z < 2 ^ 64 -> to_size_t z = z.
Proof. intros H. unfold to_size_t. by apply Z.mod_small. Qed.

Lemma to_intptr_small z : 0 <= z < 2 ^ 63 -> to_intptr z = z.
Proof.
  intros H. unfold to_intptr. rewrite Z.mod_small by (pow_consts; lia).
  destruct (z <? 2 ^ 63) eqn:E; [done|]. apply Z.ltb_ge in E. lia.
Qed.

Lemma to_unsigned_to_int v : 0 <= v < 2 ^ 32 -> to_unsigned (to_int v) = v.
Proof.
  intros H. unfold to_unsigned, to_int. rewrite (Z.mod_small v) by lia.
  destruct (v <? 2 ^ 31); [by apply Z.mod_small|].
  replace (v - 2 ^ 32) with (v + (-1) * 2 ^ 32) by lia.
  rewrite Z.mod_add by (pow_consts; lia). by apply Z.mod_small.
Qed.

Lemma load64_range m a v : Mem.load 8 m a = Some v -> 0 <= v < 2 ^ 64.
Proof. intros H. apply Mem.load_range in H. exact H. Qed.

Lemma load32_range m a v : Mem.load 4 m a = Some v -> 0 <= v < 2 ^ 32.
Proof. intros H. apply Mem.load_range in H. exact H. Qed.

Lemma load64_store64 m a v m' :
  Mem.store 8 m a v = Some m' -> 0 <= v < 2 ^ 64 -> Mem.load 8 m' a = Some v.
Proof.
  intros Hs Hv. rewrite (Mem.load_store_eq 8 _ _ _ _ Hs). f_equal.
  change (256 ^ Z.of_nat 8) with (2 ^ 64). by apply Z.mod_small.
Qed.

Lemma load32_store32 m a v m' :
  Mem.store 4 m a v = Some m' -> Mem.load 4 m' a = Some (to_unsigned v).
Proof. intros Hs. by rewrite (Mem.load_store_eq 4 _ _ _ _ Hs). Qed.

(** The header address that [xxmalloc_usable_size] and [xxfree] compute. *)
Definition page_of (ptr : Z) : Z :=
  to_size_t (ROUND_DOWN_intptr (to_intptr ptr) PAGE_SIZE).

Lemma page_of_user ptr : 0 <= ptr < 2 ^ 63 -> page_of ptr = ptr - ptr mod PAGE_SIZE.
Proof.
  intros H. unfold page_of, ROUND_DOWN_intptr. rewrite to_intptr_small by done.
  rewrite Z.rem_mod_nonneg by (unfold PAGE_SIZE; lia).
  apply to_size_t_small. unfold PAGE_SIZE. mlia.
Qed.

(** The validity marker as [xxmalloc_usable_size] and [xxfree] test it. *)
Lemma marker_test v :
  0 <= v < 2 ^ 32 -> (to_unsigned (to_int v) =? MAGIC) = bool_decide (v = MAGIC).
Proof.
  intros H. rewrite to_unsigned_to_int by done.
  case_bool_decide as E; [by apply Z.eqb_eq|by apply Z.eqb_neq].
Qed.

(** ** Pointer classification: [xxmalloc_usable_size] and [xxfree] *)

Lemma usable_size_null st : xxmalloc_usable_size NULL st = Returns 0 st.
Proof. reflexivity. Qed.

Lemma usable_size_unmarked st ptr v :
  0 < ptr < 2 ^ 63 ->
  Mem.load 4 (heap st) (ptr - ptr mod PAGE_SIZE) = Some v ->
  v <> MAGIC ->
  xxmalloc_usable_size ptr st = Returns PAGE_SIZE st.
Proof.
  intros Hp Hv Hne. unfold xxmalloc_usable_size.
  replace (ptr =? NULL) with false by (symmetry; apply Z.eqb_neq; unfold NULL; lia).
  fold (page_of ptr). rewrite page_of_user by lia.
  unfold bind, load_int, Header_magicNum. rewrite Hv.
  rewrite marker_test by (by eapply load32_range).
  by rewrite bool_decide_eq_false_2.
Qed.

Lemma usable_size_marked st ptr sz :
  0 < ptr < 2 ^ 63 ->
  Mem.load 4 (heap st) (ptr - ptr mod PAGE_SIZE) = Some MAGIC ->
  Mem.load 8 (heap st) (Header_size (ptr - ptr mod PAGE_SIZE)) = Some sz ->
  xxmalloc_usable_size ptr st = Returns sz st.
Proof.
  intros Hp Hv Hs. unfold xxmalloc_usable_size.
  replace (ptr =? NULL) with false by (symmetry; apply Z.eqb_neq; unfold NULL; lia).
  fold (page_of ptr). rewrite page_of_user by lia.
  unfold bind, load_int, Header_magicNum. rewrite Hv.
  rewrite marker_test by (by eapply load32_range).
  rewrite bool_decide_eq_true_2 by done. cbn [negb].
  unfold load64. by rewrite Hs.
Qed.

Lemma xxfree_null st : xxfree NULL st = Returns tt st.
Proof. reflexivity. Qed.

Lemma xxfree_unmarked st ptr v :
  0 < ptr < 2 ^ 63 ->
  Mem.load 4 (heap st) (ptr - ptr mod PAGE_SIZE) = Some v ->
  v <> MAGIC ->
  xxfree ptr st = Returns tt st.
Proof.
  intros Hp Hv Hne. unfold xxfree.
  replace (ptr =? NULL) with false by (symmetry; apply Z.eqb_neq; unfold NULL; lia).
  unfold bind at 1. rewrite (usable_size_unmarked _ _ _ Hp Hv Hne).
  fold (page_of ptr). rewrite page_of_user by lia.
  unfold bind, load_int, Header_magicNum. rewrite Hv.
  rewrite marker_test by (by eapply load32_range).
  by rewrite bool_decide_eq_false_2.
Qed.

Lemma xxfree_marked st ptr sz fl :
  0 < ptr < 2 ^ 63 ->
  let hdr := ptr - ptr mod PAGE_SIZE in
  let start := ptr - ptr mod sz in
  Mem.load 4 (heap st) hdr = Some MAGIC ->
  Mem.load 8 (heap st) (Header_size hdr) = Some sz ->
  sz <> 0 ->
  Mem.load 8 (heap st) (Header_freelist hdr) = Some fl ->
  Mem.mapped (heap st) start 8 ->
  exists m1 m',
    Mem.store 8 (heap st) start fl = Some m1 /\
    Mem.store 8 m1 (Header_freelist hdr) start = Some m' /\
    xxfree ptr st = Returns tt (set_heap m' st).
Proof.
  intros Hp hdr start Hv Hs Hnz Hf Hm. unfold xxfree.
  replace (ptr =? NULL) with false by (symmetry; apply Z.eqb_neq; unfold NULL; lia).
  unfold bind at 1. rewrite (usable_size_marked _ _ _ Hp Hv Hs).
  fold (page_of ptr). rewrite page_of_user by lia. fold hdr.
  unfold bind at 1. unfold load_int, Header_magicNum. rewrite Hv.
  rewrite marker_test by (by eapply load32_range).
  rewrite bool_decide_eq_true_2 by done. cbn [negb orb].
  replace (sz =? 0) with false by (symmetry; by apply Z.eqb_neq).
  pose proof (load64_range _ _ _ Hs) as Hsz.
  assert (Hst : ROUND_DOWN (to_size_t (to_intptr ptr)) sz = start).
  { unfold ROUND_DOWN. rewrite to_intptr_small by lia.
    rewrite (to_size_t_small ptr) by (pow_consts; lia).
    apply to_size_t_small. pose proof (Z.mod_pos_bound ptr sz ltac:(lia)).
    pose proof (Z.mod_le ptr sz ltac:(lia) ltac:(lia)). subst start. pow_consts. lia. }
  rewrite Hst. unfold bind, load64, store64, Node_next. rewrite Hf.
  destruct (Mem.store_is_Some 8 (heap st) start fl Hm) as [m1 E1]. rewrite E1.
  cbn [set_heap heap].
  destruct (Mem.store_is_Some 8 m1 (Header_freelist hdr) start) as [m' E2].
  { eapply Mem.store_mapped; [done|]. by eapply Mem.load_mapped. }
  rewrite E2. by exists m1, m'.
Qed.


(** ** Heap shape *)

(** Block size of class [i], and the offset of the first block of a page. *)
Definition class_size (i : Z) : Z := Z.shiftl 1 (i + 4).
Definition first_block (s : Z) : Z := ROUND_UP sizeof_Header s.

(** [x] is the start of a block of the page at [b]: a multiple of the block
    size away from the base, past the header, inside the page. *)
Definition good_node (b s x : Z) : Prop :=
  first_block s <= x - b < PAGE_SIZE /\ (x - b) mod s = 0.

(** [x] is met when following the pointer field [fld] from [h]. *)
Inductive linked (m : gmap Z byte) (fld : Z -> Z) : Z -> Z -> Prop :=
| linked_here h : linked m fld h h
| linked_next h n x :
    h <> NULL -> Mem.load 8 m (fld h) = Some n -> linked m fld n x ->
    linked m fld h x.

Definition on_freelist (m : gmap Z byte) (b x : Z) : Prop :=
  x <> NULL /\
  exists h, Mem.load 8 m (Header_freelist b) = Some h /\ linked m Node_next h x.

Definition page_ok (m : gmap Z byte) (b s : Z) : Prop :=
  b mod PAGE_SIZE = 0 /\ 0 < b /\ b + PAGE_SIZE <= 2 ^ 63 /\
  Mem.mapped m b PAGE_SIZE /\
  Mem.load 4 m (Header_magicNum b) = Some MAGIC /\
  Mem.load 8 m (Header_size b) = Some s /\
  forall x, on_freelist m b x -> good_node b s x.

(** The pages of class [i]: the stack under [blockPtrs[i]]. *)
Definition owned (st : state) (i : nat) (b : Z) : Prop :=
  b <> NULL /\
  exists top, blockPtrs st !! i = Some top /\ linked (heap st) Header_next top b.

Definition Inv (st : state) : Prop :=
  length (blockPtrs st) = 8%nat /\
  forall i b, owned st i b -> page_ok (heap st) b (class_size (Z.of_nat i)).

(** A NULL-terminated list laid out in the heap. *)
Fixpoint list_at (m : gmap Z byte) (h : Z) (l : list Z) : Prop :=
  match l with
  | [] => h = NULL
  | x :: l' =>
      h = x /\ x <> NULL /\
      exists n, Mem.load 8 m (Node_next x) = Some n /\ list_at m n l'
  end.

(** The blocks of a page of class size [s] at [B], in the order in which the
    bootstrap loop leaves them on the freelist: last carved first. *)
Definition page_blocks (B s : Z) : list Z :=
  rev (map (fun j => B + first_block s + Z.of_nat j * s)
         (seq 0 (Z.to_nat ((PAGE_SIZE - first_block s) / s)))).

(** What the Page Source promises for a successful request of [len] bytes
    answered with [b]: page-aligned user-space addresses, not mapped before. *)
Definition fresh_region (m : gmap Z byte) (b len : Z) : Prop :=
  b mod PAGE_SIZE = 0 /\ 0 < b /\ 0 < len /\ b + len <= 2 ^ 63 /\
  Mem.unmapped m b len.

(** *** Lists and reachability *)

Lemma linked_closed m fld (S : Z -> Prop) h x :
  linked m fld h x ->
  S h ->
  (forall y n, S y -> y <> NULL -> Mem.load 8 m (fld y) = Some n -> S n) ->
  S x.
Proof. induction 1 as [|h n x Hh Hl _ IH]; intros H0 Hc; [done|]. apply IH; eauto. Qed.

Lemma linked_snoc m fld h y n :
  linked m fld h y -> y <> NULL -> Mem.load 8 m (fld y) = Some n -> linked m fld h n.
Proof.
  induction 1 as [h|h n' x Hh Hl _ IH]; intros Hy Hn.
  - eapply linked_next; [done|done|apply linked_here].
  - eapply linked_next; [done|done|by apply IH].
Qed.

Lemma linked_NULL m fld x : linked m fld NULL x -> x = NULL.
Proof. by inversion 1. Qed.

Lemma list_at_frame m m' h l :
  list_at m h l ->
  (forall x, x ∈ l -> Mem.load 8 m' (Node_next x) = Mem.load 8 m (Node_next x)) ->
  list_at m' h l.
Proof.
  revert h. induction l as [|x l IH]; intros h; cbn [list_at]; [done|].
  intros (-> & Hx & n & Hn & Hl) Hf. split; [done|]. split; [done|].
  exists n. split.
  - rewrite Hf; [done|]. by left.
  - apply IH; [done|]. intros y Hy. apply Hf. by right.
Qed.

Lemma list_at_linked m h l x :
  list_at m h l -> linked m Node_next h x -> x <> NULL -> x ∈ l.
Proof.
  revert h. induction l as [|y l IH]; intros h; cbn [list_at].
  - intros -> Hl Hx. by apply linked_NULL in Hl.
  - intros (-> & Hy & n & Hn & Hl) Hr Hx. inversion Hr as [|? n' ? _ Hn' Hr']; subst.
    + by left.
    + right. rewrite Hn in Hn'. injection Hn' as <-. by eapply IH.
Qed.

Lemma list_at_walk m h l fuel :
  list_at m h l -> (length l <= fuel)%nat -> walk fuel m h = Some l.
Proof.
  revert h l. induction fuel as [|fuel IH]; intros h l.
  - destruct l as [|x l]; cbn [list_at length]; [|lia]. by intros ->.
  - destruct l as [|x l]; cbn [list_at length].
    + by intros ->.
    + intros (-> & Hx & n & Hn & Hl) Hlen. cbn [walk].
      replace (x =? NULL) with false by (symmetry; by apply Z.eqb_neq).
      rewrite Hn. rewrite (IH n l); [done|done|lia].
Qed.

Lemma walk_list_at m h l fuel : walk fuel m h = Some l -> list_at m h l.
Proof.
  revert h l. induction fuel as [|fuel IH]; intros h l; cbn [walk].
  - destruct (h =? NULL) eqn:E; [|done]. intros [= <-]. by apply Z.eqb_eq.
  - destruct (h =? NULL) eqn:E.
    + intros [= <-]. by apply Z.eqb_eq.
    + destruct (Mem.load 8 m (Node_next h)) as [n|] eqn:En; [|done].
      destruct (walk fuel m n) as [l'|] eqn:Ew; [|done].
      intros [= <-]. cbn [list_at]. split; [done|]. split; [by apply Z.eqb_neq|].
      exists n. split; [done|]. by apply IH.
Qed.

(** *** Size classes *)

Lemma class_size_cases (i : nat) :
  (i < 8)%nat ->
  let s := class_size (Z.of_nat i) in
  (s = 16 /\ first_block s = 32) \/ (s = 32 /\ first_block s = 32) \/
  (s = 64 /\ first_block s = 64) \/ (s = 128 /\ first_block s = 128) \/
  (s = 256 /\ first_block s = 256) \/ (s = 512 /\ first_block s = 512) \/
  (s = 1024 /\ first_block s = 1024) \/ (s = 2048 /\ first_block s = 2048).
Proof.
  intros Hi. do 8 (destruct i as [|i]; [vm_compute; tauto|]). lia.
Qed.

Ltac class_cases i Hi :=
  let H := fresh "Hcls" in
  let Hs := fresh "Hs" in
  let Hfb := fresh "Hfb" in
  pose proof (class_size_cases i Hi) as H; cbv zeta in H;
  destruct H as [[Hs Hfb]|[[Hs Hfb]|[[Hs Hfb]|[[Hs Hfb]|[[Hs Hfb]|[[Hs Hfb]|[[Hs Hfb]|[Hs Hfb]]]]]]]];
  rewrite ?Hfb, ?Hs in *.

Lemma good_node_bounds (i : nat) b x :
  (i < 8)%nat -> good_node b (class_size (Z.of_nat i)) x ->
  b + 32 <= x /\ x + class_size (Z.of_nat i) <= b + PAGE_SIZE /\
  16 <= class_size (Z.of_nat i) <= 2048.
Proof.
  intros Hi Hg. unfold PAGE_SIZE in *.
  unfold good_node in *. class_cases i Hi; mlia.
Qed.


(** ** Page bootstrap *)

Lemma carve_spec B s (k : nat) : forall fuel st h l,
  (k < fuel)%nat -> 0 < B -> B + PAGE_SIZE <= 2 ^ 63 -> 8 <= s ->
  offset st + Z.of_nat k * s = PAGE_SIZE ->
  sizeof_Header <= offset st ->
  Mem.mapped (heap st) B PAGE_SIZE ->
  Mem.load 8 (heap st) (Header_freelist B) = Some h ->
  list_at (heap st) h l ->
  Forall (fun x => B + sizeof_Header <= x /\ x + 8 <= B + offset st) l ->
  wp (carve fuel B s) st (fun _ st' =>
    in_malloc st' = in_malloc st /\
    use_emergency_block st' = use_emergency_block st /\
    blockPtrs st' = blockPtrs st /\ p st' = p st /\ offset st' = PAGE_SIZE /\
    (forall x, is_Some (heap st' !! x) <-> is_Some (heap st !! x)) /\
    (forall x, x < B + 16 \/ B + 24 <= x < B + offset st \/ B + PAGE_SIZE <= x ->
               heap st' !! x = heap st !! x) /\
    exists h' l',
      Mem.load 8 (heap st') (Header_freelist B) = Some h' /\
      list_at (heap st') h' (l' ++ l) /\ length l' = k /\
      l' = rev (map (fun j => B + offset st + Z.of_nat j * s) (seq 0 k))).
Proof.
  induction k as [|k IH]; intros fuel st h l Hfuel HB0 HB1 Hs Hoff Hhdr Hmap Hh Hl Hall;
    (destruct fuel as [|fuel]; [lia|]); cbn [carve].
  - wp_pure. decide_if false; [|apply Z.ltb_ge; lia].
    wp_pure. do 4 (split; [done|]). split; [lia|]. split; [done|]. split; [done|].
    exists h, (@nil Z). repeat split; try done.
  - assert (Hlt : offset st < PAGE_SIZE) by nia.
    assert (Hle : offset st + s <= PAGE_SIZE) by nia.
    wp_pure. decide_if true; [|apply Z.ltb_lt; lia].
    assert (Enode : to_size_t (to_intptr B + offset st) = B + offset st).
    { rewrite to_intptr_small by mlia. apply to_size_t_small. mlia. }
    rewrite Enode. unfold Node_next.
    wp_load Hh.
    wp_store m1 Hm1. { intros x Hx. apply Hmap. mlia. }
    wp_store m2 Hm2.
    { eapply Mem.store_mapped; [done|]. intros x Hx. apply Hmap. mlia. }
    wp_pure.
    rewrite (to_size_t_small (offset st + s)) by mlia.
    pose proof (load64_range _ _ _ Hh) as Hhr.
    eapply wp_mono.
    + apply (IH fuel _ (B + offset st) ((B + offset st) :: l)); cbn [offset heap]; try done; try lia.
      * eapply Mem.store_mapped; [done|]. eapply Mem.store_mapped; [done|]. done.
      * apply (load64_store64 _ _ _ _ Hm2). mlia.
      * cbn [list_at]. split; [done|]. split; [mlia|]. exists h. split.
        -- unfold Node_next. rewrite (Mem.load_store_ne 8 8 _ _ _ _ _ Hm2) by mlia.
           by apply (load64_store64 _ _ _ _ Hm1).
        -- eapply list_at_frame; [exact Hl|]. intros x Hx.
           rewrite Forall_forall in Hall. specialize (Hall x Hx). unfold Node_next.
           rewrite (Mem.load_store_ne 8 8 _ _ _ _ _ Hm2) by mlia.
           rewrite (Mem.load_store_ne 8 8 _ _ _ _ _ Hm1) by mlia. done.
      * apply Forall_cons. split; [mlia|].
        eapply Forall_impl; [exact Hall|]. cbn beta. intros x Hx. mlia.
    + cbn beta. cbn [offset heap in_malloc use_emergency_block blockPtrs p].
      intros _ st' (H1 & H2 & H3 & H4 & H5 & H6 & H7 & h' & l' & Hh' & Hl' & Hlen & Hall').
      repeat (split; [done|]). split.
      { intros x. rewrite H6. rewrite (Mem.store_is_Some_lookup _ _ _ _ _ x Hm2).
        apply (Mem.store_is_Some_lookup _ _ _ _ _ x Hm1). }
      split.
      { intros x Hx. rewrite H7 by mlia.
        rewrite (Mem.lookup_store_out _ _ _ _ _ x Hm2) by mlia.
        rewrite (Mem.lookup_store_out _ _ _ _ _ x Hm1) by mlia. done. }
      exists h', (l' ++ [B + offset st]). split; [done|]. split.
      { by rewrite <- app_assoc. }
      split. { rewrite length_app. cbn [length]. lia. }
      rewrite Hall'. cbn [seq map rev]. rewrite <- seq_shift, map_map.
      f_equal; [f_equal; apply map_ext; intros j; lia|f_equal; lia].
Qed.


Lemma class_facts (i : nat) :
  (i < 8)%nat ->
  let s := class_size (Z.of_nat i) in
  let r := first_block s in
  16 <= s <= 2048 /\ 32 <= r /\ r mod s = 0 /\ PAGE_SIZE mod s = 0 /\
  s mod 16 = 0 /\
  r + Z.of_nat (Z.to_nat ((PAGE_SIZE - r) / s)) * s = PAGE_SIZE.
Proof.
  intros Hi. do 8 (destruct i as [|i]; [vm_compute; repeat split; congruence|]). lia.
Qed.

Lemma wp_mmap os len st B Q :
  os len = B -> B <> MAP_FAILED ->
  Q B (set_heap (Mem.map_zero (heap st) B len) st) ->
  wp (mmap os len) st Q.
Proof.
  intros <- Hne HQ. unfold wp, mmap.
  by replace (os len =? MAP_FAILED) with false by (symmetry; by apply Z.eqb_neq).
Qed.

Ltac wp_blockPtr H :=
  eapply wp_bind; eapply wp_get_blockPtr;
  [lia|rewrite ?Nat2Z.id; cbn [blockPtrs]; exact H|]; cbv beta.

Lemma new_page_spec_gen os (i : nat) st old B s (k : nat) :
  (i < 8)%nat -> 16 <= s <= 2048 -> 32 <= first_block s ->
  first_block s mod s = 0 ->
  first_block s + Z.of_nat k * s = PAGE_SIZE ->
  blockPtrs st !! i = Some old -> 0 <= old < 2 ^ 64 ->
  os PAGE_SIZE = B -> fresh_region (heap st) B PAGE_SIZE ->
  wp (new_page os (Z.of_nat i) s) st (fun _ st' =>
    in_malloc st' = in_malloc st /\
    use_emergency_block st' = use_emergency_block st /\
    blockPtrs st' = <[i := B]> (blockPtrs st) /\ p st' = B /\
    offset st' = PAGE_SIZE /\
    (forall x, x < B \/ B + PAGE_SIZE <= x -> heap st' !! x = heap st !! x) /\
    Mem.mapped (heap st') B PAGE_SIZE /\
    Mem.load 4 (heap st') (Header_magicNum B) = Some MAGIC /\
    Mem.load 8 (heap st') (Header_size B) = Some s /\
    Mem.load 8 (heap st') (Header_next B) = Some old /\
    exists h l,
      Mem.load 8 (heap st') (Header_freelist B) = Some h /\
      list_at (heap st') h l /\
      length l = k /\
      Forall (good_node B s) l /\
      l = rev (map (fun j => B + first_block s + Z.of_nat j * s) (seq 0 k))).
Proof.
  intros Hi Hs Hr Hrs Hk Hold Holdr HB (HBa & HB0 & _ & HB1 & Hfresh).
  set (r := first_block s) in *.
  assert (Hklt : (k < Z.to_nat PAGE_SIZE)%nat).
  { apply Nat2Z.inj_lt. rewrite Z2Nat.id by (unfold PAGE_SIZE; lia).
    unfold PAGE_SIZE in *. nia. }
  assert (Hfin : forall j, 0 <= j < Z.of_nat k -> good_node B s (B + r + j * s)).
  { intros j Hj. unfold good_node. fold r.
    replace (B + r + j * s - B) with (r + j * s) by lia. split; [nia|].
    rewrite Z.mod_add by lia. done. }
  assert (Er : ROUND_UP sizeof_Header s = r) by reflexivity.
  clear Hrs. clearbody r.
  assert (Hlen : (i < length (blockPtrs st))%nat) by (by eapply lookup_lt_Some).
  unfold new_page. revert Hklt. generalize (Z.to_nat PAGE_SIZE). intros fuel Hklt.
  eapply wp_bind. eapply wp_mmap; [exact HB|mlia|]. cbv beta.
  pose proof (Mem.map_zero_mapped (heap st) B PAGE_SIZE) as Hm0.
  assert (Hm0out : forall x, x < B \/ B + PAGE_SIZE <= x ->
                     Mem.map_zero (heap st) B PAGE_SIZE !! x = heap st !! x)
    by (intros x Hx; by apply Mem.map_zero_lookup_out).
  revert Hm0 Hm0out. generalize (Mem.map_zero (heap st) B PAGE_SIZE). intros m0 Hm0 Hm0out.
  cbn [set_heap in_malloc use_emergency_block blockPtrs p offset heap].
  wp_pure. wp_pure. wp_blockPtr Hold.
  wp_store m1 Hm1. { intros x Hx. apply Hm0. mlia. }
  eapply wp_bind. apply wp_set_blockPtr; [lia|]. cbv beta.
  rewrite Nat2Z.id. cbn [in_malloc use_emergency_block blockPtrs p offset heap].
  assert (HlB : <[i:=B]> (blockPtrs st) !! i = Some B) by (by apply list_lookup_insert_eq).
  wp_blockPtr HlB.
  eapply wp_bind. apply wp_store_int.
  { cbn [heap]. eapply Mem.store_mapped; [done|]. intros x Hx. apply Hm0. mlia. }
  cbn [heap]. intros m2 Hm2. cbv beta.
  cbn [in_malloc use_emergency_block blockPtrs p offset heap set_heap].
  wp_blockPtr HlB.
  wp_store m3 Hm3.
  { do 2 (eapply Mem.store_mapped; [done|]). intros x Hx. apply Hm0. mlia. }
  wp_blockPtr HlB.
  wp_store m4 Hm4.
  { do 3 (eapply Mem.store_mapped; [done|]). intros x Hx. apply Hm0. mlia. }
  wp_pure. decide_if false; [|apply Z.eqb_neq; lia].
  wp_pure. rewrite Er.
  assert (Hm4map : Mem.mapped m4 B PAGE_SIZE).
  { by do 4 (eapply Mem.store_mapped; [done|]). }
  eapply wp_mono.
  - apply (carve_spec B s k fuel _ NULL []);
      cbn [in_malloc use_emergency_block blockPtrs p offset heap].
    + exact Hklt.
    + lia.
    + lia.
    + lia.
    + exact Hk.
    + unfold sizeof_Header. lia.
    + exact Hm4map.
    + apply (load64_store64 _ _ _ _ Hm4). unfold NULL. mlia.
    + reflexivity.
    + apply Forall_nil_2.
  - cbv beta. cbn [in_malloc use_emergency_block blockPtrs p offset heap].
    intros _ st' (H1 & H2 & H3 & H4 & H5 & H6 & H7 & h' & l' & Hh' & Hl' & Hlen' & Hall').
    do 5 (split; [done|]).
    assert (Hout : forall x, x < B + 16 \/ B + 24 <= x < B + r \/ B + PAGE_SIZE <= x ->
                             heap st' !! x = m4 !! x) by exact H7.
    split.
    { intros x Hx. rewrite Hout by lia.
      rewrite (Mem.lookup_store_out _ _ _ _ _ x Hm4) by mlia.
      rewrite (Mem.lookup_store_out _ _ _ _ _ x Hm3) by mlia.
      rewrite (Mem.lookup_store_out _ _ _ _ _ x Hm2) by mlia.
      rewrite (Mem.lookup_store_out _ _ _ _ _ x Hm1) by mlia.
      apply Hm0out. lia. }
    split. { intros x Hx. apply H6. by apply Hm4map. }
    split.
    { rewrite (Mem.load_ext 4 m4) by (intros x Hx; apply Hout; mlia).
      rewrite (Mem.load_store_ne 8 4 _ _ _ _ _ Hm4) by mlia.
      rewrite (Mem.load_store_ne 8 4 _ _ _ _ _ Hm3) by mlia.
      by rewrite (load32_store32 _ _ _ _ Hm2). }
    split.
    { rewrite (Mem.load_ext 8 m4) by (intros x Hx; apply Hout; mlia).
      rewrite (Mem.load_store_ne 8 8 _ _ _ _ _ Hm4) by mlia.
      apply (load64_store64 _ _ _ _ Hm3). mlia. }
    split.
    { rewrite (Mem.load_ext 8 m4) by (intros x Hx; apply Hout; mlia).
      rewrite (Mem.load_store_ne 8 8 _ _ _ _ _ Hm4) by mlia.
      rewrite (Mem.load_store_ne 8 8 _ _ _ _ _ Hm3) by mlia.
      rewrite (Mem.load_store_ne 4 8 _ _ _ _ _ Hm2) by mlia.
      by apply (load64_store64 _ _ _ _ Hm1). }
    exists h', l'. rewrite app_nil_r in Hl'. split; [done|]. split; [done|]. split.
    { done. }
    split; [|exact Hall'].
    rewrite Hall'. apply Forall_rev, Forall_map, Forall_forall.
    intros j Hj%list_elem_of_In%in_seq. apply Hfin. lia.
Qed.

Lemma new_page_spec os (i : nat) st old B :
  (i < 8)%nat ->
  let s := class_size (Z.of_nat i) in
  blockPtrs st !! i = Some old -> 0 <= old < 2 ^ 64 ->
  os PAGE_SIZE = B -> fresh_region (heap st) B PAGE_SIZE ->
  wp (new_page os (Z.of_nat i) s) st (fun _ st' =>
    in_malloc st' = in_malloc st /\
    use_emergency_block st' = use_emergency_block st /\
    blockPtrs st' = <[i := B]> (blockPtrs st) /\ p st' = B /\
    offset st' = PAGE_SIZE /\
    (forall x, x < B \/ B + PAGE_SIZE <= x -> heap st' !! x = heap st !! x) /\
    Mem.mapped (heap st') B PAGE_SIZE /\
    Mem.load 4 (heap st') (Header_magicNum B) = Some MAGIC /\
    Mem.load 8 (heap st') (Header_size B) = Some s /\
    Mem.load 8 (heap st') (Header_next B) = Some old /\
    exists h l,
      Mem.load 8 (heap st') (Header_freelist B) = Some h /\
      list_at (heap st') h l /\
      Z.of_nat (length l) = (PAGE_SIZE - first_block s) / s /\
      Forall (good_node B s) l).
Proof.
  intros Hi s Hold Holdr HB Hfresh.
  destruct (class_facts i Hi) as (Hs & Hr & Hrs & _ & _ & Hk). fold s in Hs, Hr, Hrs, Hk.
  assert (Hkpos : 0 <= (PAGE_SIZE - first_block s) / s).
  { apply Z.div_pos; [|lia].
    assert (0 <= Z.of_nat (Z.to_nat ((PAGE_SIZE - first_block s) / s)) * s) by nia. lia. }
  eapply wp_mono.
  - by apply (new_page_spec_gen os i st old B s _ Hi Hs Hr Hrs Hk).
  - cbv beta. intros _ st' (H1 & H2 & H3 & H4 & H5 & H6 & H7 & H8 & H9 & H10 & h & l & Hh & Hl & Hlen & Hall & _).
    do 10 (split; [done|]). exists h, l. do 2 (split; [done|]). split; [|done].
    rewrite Hlen. by rewrite Z2Nat.id.
Qed.

Lemma length_page_blocks B s :
  length (page_blocks B s) = Z.to_nat ((PAGE_SIZE - first_block s) / s).
Proof. unfold page_blocks. by rewrite length_rev, length_map, length_seq. Qed.

Lemma page_blocks_nonempty (i : nat) B :
  (i < 8)%nat -> page_blocks B (class_size (Z.of_nat i)) <> [].
Proof.
  intros Hi E. apply (f_equal length) in E. rewrite length_page_blocks in E.
  cbn [length] in E. clear - Hi E. class_cases i Hi; vm_compute in E; discriminate.
Qed.

(** The same, with the freelist spelled out. *)
Lemma new_page_blocks os (i : nat) st old B :
  (i < 8)%nat ->
  let s := class_size (Z.of_nat i) in
  blockPtrs st !! i = Some old -> 0 <= old < 2 ^ 64 ->
  os PAGE_SIZE = B -> fresh_region (heap st) B PAGE_SIZE ->
  wp (new_page os (Z.of_nat i) s) st (fun _ st' =>
    in_malloc st' = in_malloc st /\
    use_emergency_block st' = use_emergency_block st /\
    blockPtrs st' = <[i := B]> (blockPtrs st) /\ p st' = B /\
    offset st' = PAGE_SIZE /\
    (forall x, x < B \/ B + PAGE_SIZE <= x -> heap st' !! x = heap st !! x) /\
    Mem.mapped (heap st') B PAGE_SIZE /\
    Mem.load 4 (heap st') (Header_magicNum B) = Some MAGIC /\
    Mem.load 8 (heap st') (Header_size B) = Some s /\
    Mem.load 8 (heap st') (Header_next B) = Some old /\
    exists h,
      Mem.load 8 (heap st') (Header_freelist B) = Some h /\
      list_at (heap st') h (page_blocks B s) /\
      Forall (good_node B s) (page_blocks B s)).
Proof.
  intros Hi s Hold Holdr HB Hfresh.
  destruct (class_facts i Hi) as (Hs & Hr & Hrs & _ & _ & Hk). fold s in Hs, Hr, Hrs, Hk.
  eapply wp_mono.
  - by apply (new_page_spec_gen os i st old B s _ Hi Hs Hr Hrs Hk).
  - cbv beta. intros _ st' (H1 & H2 & H3 & H4 & H5 & H6 & H7 & H8 & H9 & H10 & h & l & Hh & Hl & Hlen & Hall & ->).
    do 10 (split; [done|]). by exists h.
Qed.


(** ** Size classification *)

Lemma forallb_seqZ (P : Z -> bool) lo n :
  forallb P (seqZ lo n) = true -> forall x, lo <= x < lo + n -> P x = true.
Proof.
  intros H x Hx. rewrite forallb_forall in H. apply H.
  apply list_elem_of_In, elem_of_seqZ. lia.
Qed.

(** For every size that reaches the size-class path, the exponent chosen by
    the count-leading-zeros test is the ceiling of the binary logarithm. *)
Lemma class_log2_log2_up sz : 16 <= sz <= 2048 -> class_log2 sz = Z.log2_up sz.
Proof.
  intros H.
  assert (G : (class_log2 sz =? Z.log2_up sz) = true); [|by apply Z.eqb_eq].
  apply (forallb_seqZ (fun x => class_log2 x =? Z.log2_up x) 16 2033); [|lia].
  vm_compute. reflexivity.
Qed.

(** The size after the clamp of lines 77-79. *)
Definition clamp (size : Z) : Z :=
  if size <? MIN_MALLOC_SIZE then MIN_MALLOC_SIZE else size.

Lemma clamp_max n : clamp n = Z.max 16 n.
Proof. unfold clamp, MIN_MALLOC_SIZE. destruct (Z.ltb_spec n 16); lia. Qed.

Lemma class_of_request n :
  1 <= n <= 2048 ->
  exists i : nat,
    (i < 8)%nat /\
    class_log2 (clamp n) - builtin_ctz MIN_MALLOC_SIZE = Z.of_nat i /\
    Z.shiftl 1 (class_log2 (clamp n)) = class_size (Z.of_nat i) /\
    class_size (Z.of_nat i) = 2 ^ Z.log2_up (clamp n) /\
    clamp n <= class_size (Z.of_nat i) < 2 * clamp n.
Proof.
  intros Hn. rewrite clamp_max. set (sz := Z.max 16 n).
  assert (Hsz : 16 <= sz <= 2048) by lia.
  rewrite class_log2_log2_up by done.
  assert (Hlg : 4 <= Z.log2_up sz <= 11).
  { split.
    - change 4 with (Z.log2_up 16). apply Z.log2_up_le_mono. lia.
    - change 11 with (Z.log2_up 2048). apply Z.log2_up_le_mono. lia. }
  change (builtin_ctz MIN_MALLOC_SIZE) with 4.
  exists (Z.to_nat (Z.log2_up sz - 4)). rewrite Z2Nat.id by lia.
  unfold class_size. replace (Z.log2_up sz - 4 + 4) with (Z.log2_up sz) by lia.
  rewrite Z.shiftl_1_l.
  split; [lia|]. split; [done|]. split; [done|]. split; [done|].
  destruct (Z.log2_up_spec sz ltac:(lia)) as [Hlo Hhi].
  split; [done|].
  replace (Z.log2_up sz) with (Z.succ (Z.pred (Z.log2_up sz))) at 1 by lia.
  rewrite Z.pow_succ_r by lia. lia.
Qed.


(** ** Preservation of the heap invariant *)

Lemma owned_lt st i b : Inv st -> owned st i b -> (i < 8)%nat.
Proof.
  intros [Hlen _] (_ & top & Htop & _). apply lookup_lt_Some in Htop. lia.
Qed.

Lemma pages_disjoint b c :
  b mod PAGE_SIZE = 0 -> c mod PAGE_SIZE = 0 -> b <> c ->
  b + PAGE_SIZE <= c \/ c + PAGE_SIZE <= b.
Proof. intros. mlia. Qed.

(** A page whose bytes did not change is still well formed. *)
Lemma page_ok_unchanged m m' c (i : nat) :
  (i < 8)%nat ->
  page_ok m c (class_size (Z.of_nat i)) ->
  (forall x, c <= x < c + PAGE_SIZE -> m' !! x = m !! x) ->
  page_ok m' c (class_size (Z.of_nat i)).
Proof.
  intros Hi (Ha & H0 & H1 & Hmap & Hmg & Hsz & Hfl) Hsame.
  split; [done|]. split; [done|]. split; [done|]. split.
  { intros x Hx. rewrite Hsame by done. by apply Hmap. }
  split. { rewrite <- Hmg. apply Mem.load_ext. intros x Hx. apply Hsame. mlia. }
  split. { rewrite <- Hsz. apply Mem.load_ext. intros x Hx. apply Hsame. mlia. }
  intros x (Hx & h & Hh & Hl). apply Hfl. split; [done|].
  assert (Hh' : Mem.load 8 m (Header_freelist c) = Some h).
  { rewrite <- Hh. symmetry. apply Mem.load_ext. intros y Hy. apply Hsame. mlia. }
  exists h. split; [done|].
  apply (linked_closed m' Node_next (fun y => linked m Node_next h y) h x Hl).
  - apply linked_here.
  - intros y n Hy Hy0 Hn. eapply linked_snoc; [exact Hy|done|].
    assert (Hg : good_node c (class_size (Z.of_nat i)) y).
    { apply Hfl. split; [done|]. by exists h. }
    apply (good_node_bounds i c y Hi) in Hg.
    rewrite <- Hn. symmetry. apply Mem.load_ext. intros z Hz. apply Hsame. mlia.
Qed.

(** If no owned page had its [next] field changed, no page became owned. *)
Lemma owned_frame st st' j c :
  blockPtrs st' = blockPtrs st ->
  (forall y, owned st j y ->
     Mem.load 8 (heap st') (Header_next y) = Mem.load 8 (heap st) (Header_next y)) ->
  owned st' j c -> owned st j c.
Proof.
  intros Hbp Hsame (Hc & top & Htop & Hl). rewrite Hbp in Htop.
  split; [done|]. exists top. split; [done|].
  apply (linked_closed _ Header_next
           (fun y => linked (heap st) Header_next top y) top c Hl).
  - apply linked_here.
  - intros y n Hy Hy0 Hn. eapply linked_snoc; [exact Hy|done|].
    rewrite <- Hn. symmetry. apply Hsame. split; [done|]. by exists top.
Qed.

(** Popping the head of a page's freelist keeps the page well formed. *)
Lemma page_ok_pop m m' b (i : nat) f nx :
  (i < 8)%nat ->
  page_ok m b (class_size (Z.of_nat i)) ->
  Mem.load 8 m (Header_freelist b) = Some f -> f <> NULL ->
  Mem.load 8 m (Node_next f) = Some nx ->
  Mem.store 8 m (Header_freelist b) nx = Some m' ->
  page_ok m' b (class_size (Z.of_nat i)).
Proof.
  intros Hi (Ha & H0 & H1 & Hmap & Hmg & Hsz & Hfl) Hf Hf0 Hnx Hst.
  split; [done|]. split; [done|]. split; [done|]. split.
  { by eapply Mem.store_mapped. }
  split. { rewrite (Mem.load_store_ne 8 4 _ _ _ _ _ Hst) by mlia. done. }
  split. { rewrite (Mem.load_store_ne 8 8 _ _ _ _ _ Hst) by mlia. done. }
  intros x (Hx & h & Hh & Hl). apply Hfl. split; [done|]. exists f. split; [done|].
  rewrite (load64_store64 _ _ _ _ Hst) in Hh by (by eapply load64_range).
  injection Hh as <-.
  apply (linked_closed m' Node_next (fun y => linked m Node_next f y) nx x Hl).
  - eapply linked_next; [done|done|apply linked_here].
  - intros y n Hy Hy0 Hn. eapply linked_snoc; [exact Hy|done|].
    assert (Hg : good_node b (class_size (Z.of_nat i)) y).
    { apply Hfl. split; [done|]. by exists f. }
    apply (good_node_bounds i b y Hi) in Hg.
    rewrite <- Hn. symmetry. apply (Mem.load_store_ne 8 8 _ _ _ _ _ Hst). mlia.
Qed.

(** Pushing a block start onto a page's freelist keeps the page well formed. *)
Lemma page_ok_push m m1 m' b (i : nat) f start :
  (i < 8)%nat ->
  page_ok m b (class_size (Z.of_nat i)) ->
  good_node b (class_size (Z.of_nat i)) start ->
  Mem.load 8 m (Header_freelist b) = Some f ->
  Mem.store 8 m (Node_next start) f = Some m1 ->
  Mem.store 8 m1 (Header_freelist b) start = Some m' ->
  page_ok m' b (class_size (Z.of_nat i)).
Proof.
  intros Hi (Ha & H0 & H1 & Hmap & Hmg & Hsz & Hfl) Hgs Hf Hs1 Hs2.
  pose proof (good_node_bounds i b start Hi Hgs) as Hsb.
  split; [done|]. split; [done|]. split; [done|]. split.
  { eapply Mem.store_mapped; [done|]. by eapply Mem.store_mapped. }
  split.
  { rewrite (Mem.load_store_ne 8 4 _ _ _ _ _ Hs2) by mlia.
    rewrite (Mem.load_store_ne 8 4 _ _ _ _ _ Hs1) by mlia. done. }
  split.
  { rewrite (Mem.load_store_ne 8 8 _ _ _ _ _ Hs2) by mlia.
    rewrite (Mem.load_store_ne 8 8 _ _ _ _ _ Hs1) by mlia. done. }
  assert (Hstart : Mem.load 8 m' (Node_next start) = Some f).
  { rewrite (Mem.load_store_ne 8 8 _ _ _ _ _ Hs2) by mlia.
    apply (load64_store64 _ _ _ _ Hs1). by eapply load64_range. }
  intros x (Hx & h & Hh & Hl).
  rewrite (load64_store64 _ _ _ _ Hs2) in Hh by mlia. injection Hh as <-.
  apply (linked_closed m' Node_next
           (fun y => y <> NULL -> good_node b (class_size (Z.of_nat i)) y /\
                       (y = start \/ linked m Node_next f y)) start x Hl); [| |done].
  - intros _. split; [done|]. by left.
  - intros y n Hy Hy0 Hn Hn0. destruct (Hy Hy0) as [Hgy Hcase].
    assert (Hnl : linked m Node_next f n).
    { destruct (decide (y = start)) as [->|Hne].
      - rewrite Hstart in Hn. injection Hn as <-. apply linked_here.
      - destruct Hcase as [->|Hly]; [done|].
        eapply linked_snoc; [exact Hly|done|].
        pose proof (good_node_bounds i b y Hi Hgy) as Hyb.
        rewrite <- Hn. symmetry.
        rewrite (Mem.load_store_ne 8 8 _ _ _ _ _ Hs2) by mlia.
        apply (Mem.load_store_ne 8 8 _ _ _ _ _ Hs1).
        destruct Hgy as [_ Hym]. destruct Hgs as [_ Hsm].
        clear - Hi Hym Hsm Hne Hyb Hsb. unfold Node_next.
        class_cases i Hi; mlia. }
    split; [|by right]. apply Hfl. split; [done|]. by exists f.
Qed.


Lemma owned_top st (i : nat) b :
  blockPtrs st !! i = Some b -> b <> NULL -> owned st i b.
Proof. intros Hb Hb0. split; [done|]. exists b. split; [done|]. apply linked_here. Qed.

Lemma page_ok_class_eq m b (i j : nat) :
  page_ok m b (class_size (Z.of_nat i)) -> page_ok m b (class_size (Z.of_nat j)) ->
  class_size (Z.of_nat i) = class_size (Z.of_nat j).
Proof. intros (_ & _ & _ & _ & _ & H1 & _) (_ & _ & _ & _ & _ & H2 & _). congruence. Qed.

Lemma Inv_pop st st' (i : nat) b f nx :
  Inv st ->
  blockPtrs st !! i = Some b -> b <> NULL ->
  Mem.load 8 (heap st) (Header_freelist b) = Some f -> f <> NULL ->
  Mem.load 8 (heap st) (Node_next f) = Some nx ->
  Mem.store 8 (heap st) (Header_freelist b) nx = Some (heap st') ->
  blockPtrs st' = blockPtrs st ->
  Inv st'.
Proof.
  intros HI Hb Hb0 Hf Hf0 Hnx Hst Hbp. pose proof HI as [Hlen Hpages].
  pose proof (Hpages i b (owned_top _ _ _ Hb Hb0)) as Hpb.
  split; [by rewrite Hbp|]. intros j c Hown'.
  assert (Hown : owned st j c).
  { apply (owned_frame st st' j c Hbp); [|done]. intros y Hy.
    pose proof (Hpages j y Hy) as (Hya & _).
    destruct Hpb as (Hba & _).
    apply (Mem.load_store_ne 8 8 _ _ _ _ _ Hst).
    destruct (decide (y = b)) as [->|Hne]; [mlia|].
    pose proof (pages_disjoint _ _ Hya Hba Hne). mlia. }
  pose proof (owned_lt _ _ _ HI Hown) as Hj.
  pose proof (Hpages j c Hown) as Hpc.
  destruct (decide (c = b)) as [->|Hne].
  - by eapply page_ok_pop.
  - apply (page_ok_unchanged (heap st)); [done|done|].
    intros x Hx. apply (Mem.lookup_store_out _ _ _ _ _ x Hst).
    destruct Hpc as (Hca & _). destruct Hpb as (Hba & _).
    pose proof (pages_disjoint _ _ Hca Hba Hne). mlia.
Qed.

Lemma Inv_push st st' (i : nat) b f start m1 :
  Inv st -> owned st i b ->
  good_node b (class_size (Z.of_nat i)) start ->
  Mem.load 8 (heap st) (Header_freelist b) = Some f ->
  Mem.store 8 (heap st) (Node_next start) f = Some m1 ->
  Mem.store 8 m1 (Header_freelist b) start = Some (heap st') ->
  blockPtrs st' = blockPtrs st ->
  Inv st'.
Proof.
  intros HI Hob Hgs Hf Hs1 Hs2 Hbp. pose proof HI as [Hlen Hpages].
  pose proof (owned_lt _ _ _ HI Hob) as Hi.
  pose proof (Hpages i b Hob) as Hpb.
  pose proof (good_node_bounds i b start Hi Hgs) as Hsb.
  split; [by rewrite Hbp|]. intros j c Hown'.
  assert (Hown : owned st j c).
  { apply (owned_frame st st' j c Hbp); [|done]. intros y Hy.
    pose proof (Hpages j y Hy) as (Hya & _).
    destruct Hpb as (Hba & _).
    rewrite (Mem.load_store_ne 8 8 _ _ _ _ _ Hs2).
    - apply (Mem.load_store_ne 8 8 _ _ _ _ _ Hs1).
      destruct (decide (y = b)) as [->|Hne]; [mlia|].
      pose proof (pages_disjoint _ _ Hya Hba Hne). mlia.
    - destruct (decide (y = b)) as [->|Hne]; [mlia|].
      pose proof (pages_disjoint _ _ Hya Hba Hne). mlia. }
  pose proof (owned_lt _ _ _ HI Hown) as Hj.
  pose proof (Hpages j c Hown) as Hpc.
  destruct (decide (c = b)) as [->|Hne].
  - rewrite (page_ok_class_eq _ _ _ _ Hpb Hpc) in Hgs. by eapply page_ok_push.
  - apply (page_ok_unchanged (heap st)); [done|done|].
    intros x Hx. destruct Hpc as (Hca & _). destruct Hpb as (Hba & _).
    pose proof (pages_disjoint _ _ Hca Hba Hne).
    rewrite (Mem.lookup_store_out _ _ _ _ _ x Hs2) by mlia.
    apply (Mem.lookup_store_out _ _ _ _ _ x Hs1). mlia.
Qed.

Lemma Inv_new_page st st' (i : nat) B old h l :
  Inv st -> (i < 8)%nat ->
  fresh_region (heap st) B PAGE_SIZE ->
  blockPtrs st !! i = Some old ->
  blockPtrs st' = <[i := B]> (blockPtrs st) ->
  (forall x, x < B \/ B + PAGE_SIZE <= x -> heap st' !! x = heap st !! x) ->
  Mem.mapped (heap st') B PAGE_SIZE ->
  Mem.load 4 (heap st') (Header_magicNum B) = Some MAGIC ->
  Mem.load 8 (heap st') (Header_size B) = Some (class_size (Z.of_nat i)) ->
  Mem.load 8 (heap st') (Header_next B) = Some old ->
  Mem.load 8 (heap st') (Header_freelist B) = Some h ->
  list_at (heap st') h l ->
  Forall (good_node B (class_size (Z.of_nat i))) l ->
  Inv st'.
Proof.
  intros HI Hi (HBa & HB0 & _ & HB1 & Hfresh) Hold Hbp Hout Hmap Hmg Hsz Hnext Hh Hl Hall.
  pose proof HI as [Hlen Hpages].
  assert (Hsame : forall j y, owned st j y ->
            forall x, y <= x < y + PAGE_SIZE -> heap st' !! x = heap st !! x).
  { intros j y Hy x Hx. apply Hout.
    destruct (Hpages j y Hy) as (Hya & _ & _ & Hymap & _).
    destruct (decide (y = B)) as [->|Hne].
    - exfalso. destruct (Hymap B ltac:(mlia)) as [v Hv].
      rewrite Hfresh in Hv by mlia. done.
    - pose proof (pages_disjoint _ _ Hya HBa Hne). mlia. }
  assert (Hchain : forall j top c, blockPtrs st !! j = Some top ->
            linked (heap st') Header_next top c -> linked (heap st) Header_next top c).
  { intros j top c Htop Hlk.
    apply (linked_closed _ Header_next
             (fun y => linked (heap st) Header_next top y) top c Hlk).
    - apply linked_here.
    - intros y n Hy Hy0 Hn. eapply linked_snoc; [exact Hy|done|].
      rewrite <- Hn. symmetry. apply Mem.load_ext. intros x Hx.
      apply (Hsame j y); [|mlia]. split; [done|]. by exists top. }
  assert (Hcases : forall j c, owned st' j c -> (j = i /\ c = B) \/ owned st j c).
  { intros j c (Hc & top & Htop & Hlk). rewrite Hbp in Htop.
    destruct (decide (j = i)) as [->|Hne].
    - rewrite list_lookup_insert_eq in Htop by lia. injection Htop as <-.
      inversion Hlk as [|? n ? _ Hn Hlk']; subst; [by left|].
      right. rewrite Hnext in Hn. injection Hn as <-.
      split; [done|]. exists old. split; [done|]. by eapply Hchain.
    - rewrite list_lookup_insert_ne in Htop by done.
      right. split; [done|]. exists top. split; [done|]. by eapply Hchain. }
  split; [by rewrite Hbp, length_insert|]. intros j c Hown'.
  destruct (Hcases j c Hown') as [[-> ->]|Hown].
  - split; [done|]. split; [done|]. split; [done|]. split; [done|].
    split; [done|]. split; [done|].
    intros x (Hx & h' & Hh' & Hlk). rewrite Hh in Hh'. injection Hh' as <-.
    rewrite Forall_forall in Hall. apply Hall. by eapply list_at_linked.
  - apply (page_ok_unchanged (heap st)).
    + by eapply owned_lt.
    + by apply Hpages.
    + by apply (Hsame j).
Qed.


(** ** The size-class path of [xxmalloc] *)

Lemma Inv_ext st st' :
  blockPtrs st' = blockPtrs st -> heap st' = heap st -> Inv st -> Inv st'.
Proof.
  intros Hbp Hm [Hlen Hpages]. split; [by rewrite Hbp|].
  intros i b (Hb & top & Htop & Hl). rewrite Hm. apply Hpages.
  split; [done|]. exists top. rewrite <- Hbp, <- Hm. done.
Qed.

Lemma load64_mapped m a v : Mem.load 8 m a = Some v -> Mem.mapped m a 8.
Proof. intros H. by apply Mem.load_mapped in H. Qed.

Lemma pop_spec st (i : nat) b f nx :
  (i < 8)%nat ->
  blockPtrs st !! i = Some b ->
  Mem.load 8 (heap st) (Header_freelist b) = Some f ->
  Mem.load 8 (heap st) (Node_next f) = Some nx ->
  wp (pop (Z.of_nat i)) st (fun _ st' =>
    in_malloc st' = in_malloc st /\
    use_emergency_block st' = use_emergency_block st /\
    blockPtrs st' = blockPtrs st /\ p st' = f /\ offset st' = offset st /\
    Mem.store 8 (heap st) (Header_freelist b) nx = Some (heap st')).
Proof.
  intros Hi Hb Hf Hnx. unfold pop.
  wp_blockPtr Hb. wp_load Hf. wp_pure.
  wp_blockPtr Hb. wp_load Hf. wp_load Hnx. wp_blockPtr Hb.
  apply wp_store64; [by eapply load64_mapped|].
  cbn [heap]. intros m' Hm'. done.
Qed.

Lemma xxmalloc_finish st (i : nat) b f :
  Inv st -> blockPtrs st !! i = Some b -> b <> NULL ->
  Mem.load 8 (heap st) (Header_freelist b) = Some f -> f <> NULL ->
  wp (pop (Z.of_nat i) ;;
      let* q := get p in
      if q =? MAP_FAILED then set_use_emergency_block true ;; exit 2
      else set_in_malloc false ;; ret q) st
    (fun ptr st' =>
       ptr = f /\ Inv st' /\ in_malloc st' = false /\
       use_emergency_block st' = use_emergency_block st /\
       blockPtrs st' = blockPtrs st /\ p st' = f /\ offset st' = offset st /\
       good_node b (class_size (Z.of_nat i)) f /\
       exists nx, Mem.load 8 (heap st) (Node_next f) = Some nx /\
                  Mem.store 8 (heap st) (Header_freelist b) nx = Some (heap st')).
Proof.
  intros HI Hb Hb0 Hf Hf0.
  pose proof (owned_top _ _ _ Hb Hb0) as Hown.
  pose proof (owned_lt _ _ _ HI Hown) as Hi.
  destruct HI as [Hlen Hpages]. pose proof (Hpages i b Hown) as Hpb.
  pose proof Hpb as (Hba & Hb1 & Hb2 & Hbmap & Hmg & Hsz & Hfl).
  assert (Hgf : good_node b (class_size (Z.of_nat i)) f).
  { apply Hfl. split; [done|]. exists f. split; [done|]. apply linked_here. }
  pose proof (good_node_bounds i b f Hi Hgf) as Hfb.
  destruct (Mem.load_is_Some 8 (heap st) (Node_next f)) as [nx Hnx].
  { intros x Hx. apply Hbmap. mlia. }
  eapply wp_bind. eapply wp_mono; [by apply (pop_spec st i b f nx)|].
  cbv beta. intros _ st1 (H1 & H2 & H3 & H4 & H5 & H6).
  wp_pure. rewrite H4. decide_if false; [|apply Z.eqb_neq; mlia].
  wp_pure. wp_pure.
  split; [done|]. split.
  { apply (Inv_pop st _ i b f nx); done. }
  split; [done|]. split; [done|]. split; [done|]. split; [done|]. split; [done|].
  split; [done|]. by exists nx.
Qed.

(** The class index that lines 93-103 compute for a request. *)
Definition class_index (n : Z) : Z :=
  class_log2 (clamp n) - builtin_ctz MIN_MALLOC_SIZE.

Section Allocator_proofs.

Variable emergency_block : Z.

Lemma xxmalloc_prelude os n st (P : Z -> state -> Prop) :
  1 <= n <= 2048 ->
  in_malloc st = false -> use_emergency_block st = false ->
  (forall (i : nat) b,
     (i < 8)%nat ->
     class_log2 (clamp n) - builtin_ctz MIN_MALLOC_SIZE = Z.of_nat i ->
     Z.shiftl 1 (class_log2 (clamp n)) = class_size (Z.of_nat i) ->
     blockPtrs st !! i = Some b ->
     let st0 := mkState true false (blockPtrs st) (p st) (offset st) (heap st) in
     wp (let* need :=
           (if b =? NULL then ret true
            else let* f := load64 (Header_freelist b) in ret (f =? NULL)) in
         (if need : bool then new_page os (Z.of_nat i) (class_size (Z.of_nat i))
          else ret tt) ;;
         pop (Z.of_nat i) ;;
         let* q := get p in
         if q =? MAP_FAILED then set_use_emergency_block true ;; exit 2
         else set_in_malloc false ;; ret q) st0 P) ->
  length (blockPtrs st) = 8%nat ->
  wp (xxmalloc emergency_block os n) st P.
Proof.
  intros Hn Him Hue Hk Hlen. unfold xxmalloc.
  decide_if false; [|apply Z.eqb_neq; lia].
  wp_pure. rewrite Hue. cbv iota. wp_pure. rewrite Him. cbv iota. wp_pure.
  fold (clamp n).
  destruct (class_of_request n Hn) as (i & Hi & Hidx & Hsh & _ & Hb1 & Hb2).
  decide_if false.
  2:{ rewrite Z.gtb_ltb. apply Z.ltb_ge. rewrite clamp_max. lia. }
  rewrite Hidx, Hsh.
  destruct (lookup_lt_is_Some_2 (blockPtrs st) i ltac:(lia)) as [b Hb].
  wp_blockPtr Hb. rewrite Hue. by apply Hk.
Qed.


(** The current page of the class has a free block: it is popped and the
    Page Source is not consulted. *)
Lemma xxmalloc_reuse os n st (i : nat) b f :
  Inv st -> in_malloc st = false -> use_emergency_block st = false ->
  1 <= n <= 2048 -> class_index n = Z.of_nat i ->
  blockPtrs st !! i = Some b -> b <> NULL ->
  Mem.load 8 (heap st) (Header_freelist b) = Some f -> f <> NULL ->
  wp (xxmalloc emergency_block os n) st (fun ptr st' =>
    ptr = f /\ Inv st' /\ in_malloc st' = false /\
    use_emergency_block st' = false /\
    blockPtrs st' = blockPtrs st /\ p st' = f /\ offset st' = offset st /\
    good_node b (class_size (Z.of_nat i)) f /\
    exists nx, Mem.load 8 (heap st) (Node_next f) = Some nx /\
               Mem.store 8 (heap st) (Header_freelist b) nx = Some (heap st')).
Proof.
  intros HI Him Hue Hn Hci Hb Hb0 Hf Hf0.
  apply xxmalloc_prelude; try done; [|by destruct HI].
  intros i' b' Hi' Hidx Hsh Hb' st0.
  assert (i' = i) as -> by (unfold class_index in Hci; lia).
  rewrite Hb in Hb'. injection Hb' as <-.
  decide_if false; [|by apply Z.eqb_neq].
  eapply wp_bind. eapply wp_bind. eapply wp_load64; [exact Hf|]. cbv beta.
  wp_pure. decide_if false; [|by apply Z.eqb_neq]. wp_pure.
  eapply wp_mono.
  - apply (xxmalloc_finish st0 i b f); done.
  - cbv beta. subst st0. cbn [in_malloc use_emergency_block blockPtrs p offset heap].
    intros ptr st' H. exact H.
Qed.

(** The class has no page yet, or its current page is used up: a new page
    is mapped and carved, and its head block is returned. *)
Lemma xxmalloc_fresh os n st (i : nat) b B :
  Inv st -> in_malloc st = false -> use_emergency_block st = false ->
  1 <= n <= 2048 -> class_index n = Z.of_nat i ->
  blockPtrs st !! i = Some b ->
  (b = NULL \/ Mem.load 8 (heap st) (Header_freelist b) = Some NULL) ->
  os PAGE_SIZE = B -> fresh_region (heap st) B PAGE_SIZE ->
  wp (xxmalloc emergency_block os n) st (fun ptr st' =>
    Inv st' /\ in_malloc st' = false /\ use_emergency_block st' = false /\
    blockPtrs st' = <[i := B]> (blockPtrs st) /\ p st' = ptr /\
    offset st' = PAGE_SIZE /\
    good_node B (class_size (Z.of_nat i)) ptr /\
    (forall x, x < B \/ B + PAGE_SIZE <= x -> heap st' !! x = heap st !! x) /\
    Mem.load 8 (heap st') (Header_next B) = Some b /\
    exists rest h',
      page_blocks B (class_size (Z.of_nat i)) = ptr :: rest /\
      Mem.load 8 (heap st') (Header_freelist B) = Some h' /\
      list_at (heap st') h' rest).
Proof.
  intros HI Him Hue Hn Hci Hb Hneed HB Hfresh.
  apply xxmalloc_prelude; try done; [|by destruct HI].
  intros i' b' Hi Hidx Hsh Hb' st0.
  assert (i' = i) as -> by (unfold class_index in Hci; lia).
  rewrite Hb in Hb'. injection Hb' as <-.
  assert (HI0 : Inv st0) by (by apply (Inv_ext st)).
  assert (Hbr : 0 <= b < 2 ^ 64).
  { destruct (decide (b = NULL)) as [->|Hb0]; [unfold NULL; mlia|].
    destruct HI as [_ Hpages].
    destruct (Hpages i b (owned_top _ _ _ Hb Hb0)) as (_ & ? & ? & _). mlia. }
  eapply wp_bind. eapply (wp_mono _ _ (fun need st' => need = true /\ st' = st0)).
  { destruct (Z.eqb_spec b NULL) as [->|Hb0].
    - by wp_pure.
    - destruct Hneed as [?|Hf]; [done|].
      eapply wp_bind. eapply wp_load64; [exact Hf|]. cbv beta. by wp_pure. }
  cbv beta. intros need st' [-> ->].
  eapply wp_bind. eapply wp_mono.
  { by apply (new_page_blocks os i st0 b B). }
  cbv beta. subst st0. cbn [in_malloc use_emergency_block blockPtrs p offset heap].
  intros _ st1 (H1 & H2 & H3 & H4 & H5 & H6 & H7 & H8 & H9 & H10 & h & Hh & Hl & Hall).
  pose proof (page_blocks_nonempty i B Hi) as Hne.
  revert Hl Hall Hne. generalize (eq_refl (page_blocks B (class_size (Z.of_nat i)))).
  generalize (page_blocks B (class_size (Z.of_nat i))) at 2 3 4 5.
  intros l El Hl Hall Hne.
  assert (HI1 : Inv st1).
  { apply (Inv_new_page _ st1 i B b h l HI0); done. }
  assert (HB1 : blockPtrs st1 !! i = Some B).
  { rewrite H3. apply list_lookup_insert_eq. destruct HI as [-> _]. lia. }
  destruct l as [|x l]; [done|]. clear Hne.
  destruct Hl as (-> & Hx0 & n0 & Hn0 & Hl).
  assert (Hh0 : x <> NULL) by done.
  destruct Hfresh as (HBa & HB0 & _ & HB2 & _).
  eapply wp_mono.
  - apply (xxmalloc_finish st1 i B x); try done. unfold NULL. lia.
  - cbv beta. intros ptr st' (-> & HI' & G1 & G2 & G3 & G4 & G5 & G6 & nx & Hnx & Hst).
    split; [done|]. split; [done|]. split; [congruence|]. split; [congruence|].
    split; [done|]. split; [congruence|]. split; [done|].
    pose proof (good_node_bounds i B x Hi G6) as Hhb.
    split.
    { intros y Hy. rewrite (Mem.lookup_store_out _ _ _ _ _ y Hst) by mlia. by apply H6. }
    split.
    { rewrite (Mem.load_store_ne 8 8 _ _ _ _ _ Hst) by mlia. done. }
    rewrite Hn0 in Hnx. injection Hnx as <-.
    exists l, n0. split; [done|]. split.
    + apply (load64_store64 _ _ _ _ Hst). by eapply load64_range.
    + eapply list_at_frame; [exact Hl|]. intros y Hy.
      apply Forall_cons in Hall as [_ Hall]. rewrite Forall_forall in Hall.
      pose proof (good_node_bounds i B y Hi (Hall y Hy)) as Hyb.
      apply (Mem.load_store_ne 8 8 _ _ _ _ _ Hst). mlia.
Qed.

Lemma xxmalloc_small os n st :
  Inv st -> in_malloc st = false -> use_emergency_block st = false ->
  1 <= n <= 2048 ->
  fresh_region (heap st) (os PAGE_SIZE) PAGE_SIZE ->
  wp (xxmalloc emergency_block os n) st (fun ptr st' =>
    Inv st' /\ in_malloc st' = false /\ use_emergency_block st' = false /\
    p st' = ptr /\
    exists (i : nat) b,
      class_index n = Z.of_nat i /\ (i < 8)%nat /\
      blockPtrs st' !! i = Some b /\ b <> NULL /\
      good_node b (class_size (Z.of_nat i)) ptr).
Proof.
  intros HI Him Hue Hn Hfresh.
  destruct (class_of_request n Hn) as (i & Hi & Hidx & _).
  pose proof HI as [Hlen Hpages].
  destruct (lookup_lt_is_Some_2 (blockPtrs st) i ltac:(lia)) as [b Hb].
  assert (Hcase : (b = NULL \/ Mem.load 8 (heap st) (Header_freelist b) = Some NULL) \/
                  (b <> NULL /\ exists f, Mem.load 8 (heap st) (Header_freelist b) = Some f /\ f <> NULL)).
  { destruct (decide (b = NULL)) as [->|Hb0]; [by left; left|].
    destruct (Hpages i b (owned_top _ _ _ Hb Hb0)) as (_ & _ & _ & Hmap & _).
    destruct (Mem.load_is_Some 8 (heap st) (Header_freelist b)) as [f Hf].
    { intros x Hx. apply Hmap. mlia. }
    destruct (decide (f = NULL)) as [->|Hf0]; [by left; right|].
    right. split; [done|]. by exists f. }
  destruct Hcase as [Hneed|(Hb0 & f & Hf & Hf0)].
  - eapply wp_mono; [by apply (xxmalloc_fresh os n st i b (os PAGE_SIZE))|].
    cbv beta. intros ptr st' (H1 & H2 & H3 & H4 & H5 & H6 & H7 & _).
    do 4 (split; [done|]). exists i, (os PAGE_SIZE). split; [done|]. split; [done|].
    split. { rewrite H4. apply list_lookup_insert_eq. lia. }
    split; [|done]. destruct Hfresh as (_ & ? & _). unfold NULL. lia.
  - eapply wp_mono; [by apply (xxmalloc_reuse os n st i b f)|].
    cbv beta. intros ptr st' (-> & H1 & H2 & H3 & H4 & H5 & H6 & H7 & _).
    do 4 (split; [done|]). exists i, b. rewrite H4. done.
Qed.

End Allocator_proofs.


(** ** Pointers into owned pages *)

Lemma Inv_initial : Inv initial_state.
Proof.
  split; [done|]. intros i b (Hb & top & Htop & Hl).
  cbn [blockPtrs initial_state] in Htop.
  apply lookup_replicate in Htop as [-> _]. by apply linked_NULL in Hl.
Qed.

Lemma unmapped_empty b len : Mem.unmapped ∅ b len.
Proof. intros x _. apply lookup_empty. Qed.

Lemma page_of_in_page b ptr :
  b mod PAGE_SIZE = 0 -> 0 < b -> b + PAGE_SIZE <= 2 ^ 63 ->
  b <= ptr < b + PAGE_SIZE ->
  0 < ptr < 2 ^ 63 /\ ptr - ptr mod PAGE_SIZE = b.
Proof. intros. mlia. Qed.

(** The block start that [xxfree] computes for a pointer into a block. *)
Lemma block_start_good (i : nat) b ptr :
  (i < 8)%nat -> b mod PAGE_SIZE = 0 ->
  b + first_block (class_size (Z.of_nat i)) <= ptr < b + PAGE_SIZE ->
  good_node b (class_size (Z.of_nat i)) (ptr - ptr mod class_size (Z.of_nat i)) /\
  ptr - class_size (Z.of_nat i) < ptr - ptr mod class_size (Z.of_nat i) <= ptr.
Proof.
  intros Hi Hb Hp. unfold good_node. class_cases i Hi; mlia.
Qed.

Lemma good_node_block_start (i : nat) b x :
  (i < 8)%nat -> b mod PAGE_SIZE = 0 ->
  good_node b (class_size (Z.of_nat i)) x ->
  x - x mod class_size (Z.of_nat i) = x /\
  b + first_block (class_size (Z.of_nat i)) <= x < b + PAGE_SIZE.
Proof.
  intros Hi Hb Hg. unfold good_node in Hg. class_cases i Hi; mlia.
Qed.

Lemma usable_size_owned st (i : nat) b ptr :
  (i < 8)%nat ->
  page_ok (heap st) b (class_size (Z.of_nat i)) ->
  b <= ptr < b + PAGE_SIZE ->
  xxmalloc_usable_size ptr st = Returns (class_size (Z.of_nat i)) st.
Proof.
  intros Hi (Ha & H0 & H1 & Hmap & Hmg & Hsz & _) Hp.
  destruct (page_of_in_page b ptr Ha H0 H1 Hp) as [Hu Hpg].
  apply usable_size_marked; [done| |]; by rewrite Hpg.
Qed.

(** [xxfree] on a pointer into a block of an owned page. *)
Lemma xxfree_owned st (i : nat) b ptr :
  Inv st -> owned st i b ->
  b + first_block (class_size (Z.of_nat i)) <= ptr < b + PAGE_SIZE ->
  exists st' f m1,
    xxfree ptr st = Returns tt st' /\ Inv st' /\
    in_malloc st' = in_malloc st /\
    use_emergency_block st' = use_emergency_block st /\
    blockPtrs st' = blockPtrs st /\ p st' = p st /\ offset st' = offset st /\
    Mem.load 8 (heap st) (Header_freelist b) = Some f /\
    Mem.store 8 (heap st) (Node_next (ptr - ptr mod class_size (Z.of_nat i))) f = Some m1 /\
    Mem.store 8 m1 (Header_freelist b) (ptr - ptr mod class_size (Z.of_nat i)) = Some (heap st') /\
    Mem.load 8 (heap st') (Header_freelist b) = Some (ptr - ptr mod class_size (Z.of_nat i)) /\
    Mem.load 8 (heap st') (Node_next (ptr - ptr mod class_size (Z.of_nat i))) = Some f.
Proof.
  intros HI Hown Hp. pose proof (owned_lt _ _ _ HI Hown) as Hi.
  pose proof HI as [Hlen Hpages]. pose proof (Hpages i b Hown) as Hpb.
  pose proof Hpb as (Ha & H0 & H1 & Hmap & Hmg & Hsz & Hfl).
  set (s := class_size (Z.of_nat i)) in *.
  destruct (block_start_good i b ptr Hi Ha Hp) as [Hgs Hsr]. fold s in Hgs, Hsr.
  pose proof (good_node_bounds i b _ Hi Hgs) as Hsb. fold s in Hsb.
  assert (Hpin : b <= ptr < b + PAGE_SIZE).
  { pose proof (class_facts i Hi) as (_ & ? & _). fold s in H. lia. }
  destruct (page_of_in_page b ptr Ha H0 H1 Hpin) as [Hu Hpg].
  destruct (Mem.load_is_Some 8 (heap st) (Header_freelist b)) as [f Hf].
  { intros x Hx. apply Hmap. mlia. }
  destruct (xxfree_marked st ptr s f Hu) as (m1 & m' & Hs1 & Hs2 & Hfree).
  - by rewrite Hpg.
  - by rewrite Hpg.
  - lia.
  - by rewrite Hpg.
  - intros x Hx. apply Hmap. lia.
  - rewrite Hpg in Hs2. unfold Node_next in *.
    exists (set_heap m' st), f, m1. split; [done|]. split.
    { by apply (Inv_push st _ i b f (ptr - ptr mod s) m1). }
    do 5 (split; [done|]). do 3 (split; [done|]). split.
    + apply (load64_store64 _ _ _ _ Hs2). mlia.
    + cbn [set_heap heap]. rewrite (Mem.load_store_ne 8 8 _ _ _ _ _ Hs2) by mlia.
      apply (load64_store64 _ _ _ _ Hs1). by eapply load64_range.
Qed.


(** ** The large-object path and the failure paths *)

Lemma ROUND_UP_page n :
  0 <= n < 2 ^ 64 -> 0 < ROUND_UP n PAGE_SIZE ->
  ROUND_UP n PAGE_SIZE mod PAGE_SIZE = 0 /\
  n <= ROUND_UP n PAGE_SIZE < n + PAGE_SIZE.
Proof.
  intros Hn. unfold ROUND_UP, to_size_t, PAGE_SIZE.
  destruct (Z.eqb_spec (n mod 4096) 0) as [E|E]; [mlia|].
  intros Hpos.
  assert (Hx : n + (4096 - n mod 4096) < 2 ^ 64 \/ n + (4096 - n mod 4096) = 2 ^ 64) by mlia.
  destruct Hx as [Hx|Hx].
  - rewrite Z.mod_small in * by mlia. mlia.
  - rewrite Hx, Z.mod_same in Hpos by (pow_consts; lia). lia.
Qed.

Section Allocator_paths.

Variable emergency_block : Z.

(** Lines 81-88. *)
Lemma xxmalloc_large os n st :
  in_malloc st = false -> use_emergency_block st = false ->
  2048 < n ->
  xxmalloc emergency_block os n st =
    let len := ROUND_UP n PAGE_SIZE in
    if os len =? MAP_FAILED then Returns (os len) st
    else Returns (os len) (set_heap (Mem.map_zero (heap st) (os len) len) st).
Proof.
  intros Him Hue Hn. unfold xxmalloc.
  replace (n =? 0) with false by (symmetry; apply Z.eqb_neq; lia).
  unfold bind at 1. unfold get at 1. rewrite Hue.
  unfold bind at 1. unfold get at 1. rewrite Him.
  unfold bind at 1. unfold set_in_malloc at 1.
  replace (n <? MIN_MALLOC_SIZE) with false
    by (symmetry; apply Z.ltb_ge; unfold MIN_MALLOC_SIZE; lia).
  replace (n >? 2048) with true by (symmetry; rewrite Z.gtb_ltb; apply Z.ltb_lt; lia).
  unfold bind, mmap, set_in_malloc, ret, set_heap. cbn [in_malloc use_emergency_block blockPtrs p offset heap].
  cbv zeta. destruct (os (ROUND_UP n PAGE_SIZE) =? MAP_FAILED);
    destruct st; cbn in *; subst; reflexivity.
Qed.

End Allocator_paths.


(** ** The address space and the Page Source *)

(** Only user-space addresses are ever mapped. *)
Definition user_space (m : gmap Z byte) : Prop :=
  forall x, is_Some (m !! x) -> 0 <= x < 2 ^ 63.

(** The Page Source either fails or answers with a fresh region. *)
Definition page_source_ok (m : gmap Z byte) (os : Z -> Z) : Prop :=
  forall len, os len = MAP_FAILED \/ fresh_region m (os len) len.

(** The pointers [xxfree] is meant for: NULL, a pointer whose page does not
    carry the marker, or a pointer into a block of an owned page. *)
Definition releasable (st : state) (ptr : Z) : Prop :=
  ptr = NULL \/
  (0 < ptr < 2 ^ 63 /\
   exists v, Mem.load 4 (heap st) (Header_magicNum (ptr - ptr mod PAGE_SIZE)) = Some v /\
             v <> MAGIC) \/
  (exists (i : nat) b,
     owned st i b /\
     b + first_block (class_size (Z.of_nat i)) <= ptr < b + PAGE_SIZE).

Lemma user_space_empty : user_space ∅.
Proof. intros x [v Hv]. by rewrite lookup_empty in Hv. Qed.

Lemma user_space_store n m a v m' :
  Mem.store n m a v = Some m' -> user_space m -> user_space m'.
Proof.
  intros Hs Hu x Hx. apply Hu. by apply (Mem.store_is_Some_lookup _ _ _ _ _ x Hs).
Qed.

Lemma user_space_map_zero m b len :
  fresh_region m b len -> user_space m -> user_space (Mem.map_zero m b len).
Proof.
  intros (_ & Hb0 & _ & Hb1 & _) Hu x Hx. rewrite Mem.lookup_map_zero in Hx.
  case_decide as Hin; [lia|]. by apply Hu.
Qed.

Lemma user_space_outside m m' b len :
  0 < b -> b + len <= 2 ^ 63 ->
  (forall x, x < b \/ b + len <= x -> m' !! x = m !! x) ->
  user_space m -> user_space m'.
Proof.
  intros Hb0 Hb1 Hout Hu x Hx.
  destruct (decide (b <= x < b + len)) as [Hin|Hin]; [lia|].
  apply Hu. rewrite <- Hout by lia. done.
Qed.

Lemma store_unmapped_fails n m a v :
  m !! a = None -> Mem.store (S n) m a v = None.
Proof. intros H. unfold Mem.store. cbn [Mem.encode Mem.store_bytes]. by rewrite H. Qed.

(** Mapping a fresh region leaves the size-class pages as they are. *)
Lemma Inv_map_zero st st' b len :
  Inv st -> fresh_region (heap st) b len ->
  blockPtrs st' = blockPtrs st ->
  heap st' = Mem.map_zero (heap st) b len ->
  Inv st'.
Proof.
  intros HI (_ & _ & _ & _ & Hfresh) Hbp Hm. pose proof HI as [Hlen Hpages].
  assert (Hsame : forall j y, owned st j y ->
            forall x, y <= x < y + PAGE_SIZE -> heap st' !! x = heap st !! x).
  { intros j y Hy x Hx. rewrite Hm, Mem.lookup_map_zero.
    case_decide as Hin; [|done]. exfalso.
    destruct (Hpages j y Hy) as (_ & _ & _ & Hymap & _).
    destruct (Hymap x Hx) as [v Hv]. rewrite Hfresh in Hv by done. done. }
  split; [by rewrite Hbp|]. intros j c Hown'.
  assert (Hown : owned st j c).
  { apply (owned_frame st st' j c Hbp); [|done]. intros y Hy.
    apply Mem.load_ext. intros x Hx. apply (Hsame j y Hy).
    destruct (Hpages j y Hy) as (_ & _). mlia. }
  apply (page_ok_unchanged (heap st)).
  - by eapply owned_lt.
  - by apply Hpages.
  - by apply (Hsame j).
Qed.

Section Allocator_failure.

Variable emergency_block : Z.

(** The size-class path up to the test of line 110, as an equation. *)
Lemma xxmalloc_small_eq os n st :
  1 <= n <= 2048 ->
  in_malloc st = false -> use_emergency_block st = false ->
  xxmalloc emergency_block os n st =
    (let* b := get_blockPtr (class_index n) in
     let* need :=
       (if b =? NULL then ret true
        else let* f := load64 (Header_freelist b) in ret (f =? NULL)) in
     (if need : bool then new_page os (class_index n) (Z.shiftl 1 (class_log2 (clamp n)))
      else ret tt) ;;
     pop (class_index n) ;;
     let* q := get p in
     if q =? MAP_FAILED then set_use_emergency_block true ;; exit 2
     else set_in_malloc false ;; ret q)
      (mkState true false (blockPtrs st) (p st) (offset st) (heap st)).
Proof.
  intros Hn Him Hue. unfold xxmalloc.
  replace (n =? 0) with false by (symmetry; apply Z.eqb_neq; lia).
  unfold bind at 1. unfold get at 1. rewrite Hue.
  unfold bind at 1. unfold get at 1. rewrite Him.
  unfold bind at 1. unfold set_in_malloc at 1. rewrite Hue.
  fold (clamp n).
  replace (clamp n >? 2048) with false; [reflexivity|].
  symmetry. rewrite Z.gtb_ltb. apply Z.ltb_ge. rewrite clamp_max. lia.
Qed.

(** When a page is needed and the Page Source fails, the header write of
    line 119 goes through [MAP_FAILED]: the call never returns. *)
Lemma xxmalloc_small_mmap_fails os n st (i : nat) b :
  1 <= n <= 2048 ->
  in_malloc st = false -> use_emergency_block st = false ->
  user_space (heap st) ->
  class_index n = Z.of_nat i -> (i < 8)%nat ->
  blockPtrs st !! i = Some b ->
  (b = NULL \/ Mem.load 8 (heap st) (Header_freelist b) = Some NULL) ->
  os PAGE_SIZE = MAP_FAILED ->
  xxmalloc emergency_block os n st = Crashes.
Proof.
  intros Hn Him Hue Hus Hci Hi Hb Hneed Hos.
  rewrite xxmalloc_small_eq by done. rewrite Hci.
  unfold bind at 1. unfold get_blockPtr at 1.
  replace ((0 <=? Z.of_nat i) && (Z.of_nat i <? 8)) with true
    by (symmetry; apply andb_true_iff; lia).
  rewrite Nat2Z.id. cbn [blockPtrs]. rewrite Hb.
  assert (Hnd : (if b =? NULL then ret true
                 else let* f := load64 (Header_freelist b) in ret (f =? NULL))
                  (mkState true false (blockPtrs st) (p st) (offset st) (heap st)) =
                Returns true (mkState true false (blockPtrs st) (p st) (offset st) (heap st))).
  { destruct (Z.eqb_spec b NULL) as [->|Hb0]; [done|].
    destruct Hneed as [?|Hf]; [done|].
    unfold bind, load64. cbn [heap]. by rewrite Hf. }
  unfold bind at 1. rewrite Hnd.
  unfold bind at 1. unfold new_page.
  unfold bind at 1. unfold mmap at 1. rewrite Hos, Z.eqb_refl.
  unfold bind at 1. unfold set_p at 1.
  unfold bind at 1. unfold get at 1.
  cbn [in_malloc use_emergency_block blockPtrs p offset heap].
  unfold bind at 1. unfold get_blockPtr at 1.
  replace ((0 <=? Z.of_nat i) && (Z.of_nat i <? 8)) with true
    by (symmetry; apply andb_true_iff; lia).
  rewrite Nat2Z.id. cbn [blockPtrs]. rewrite Hb.
  unfold bind at 1. unfold store64 at 1. cbn [heap].
  rewrite store_unmapped_fails; [done|].
  destruct (heap st !! Header_next MAP_FAILED) as [v|] eqn:E; [|done].
  exfalso. destruct (Hus (Header_next MAP_FAILED)) as [_ Hlt]; [by eexists|]. mlia.
Qed.

End Allocator_failure.


(** ** Concrete runs *)

(** A Page Source that answers every request with [base]. *)
Definition os_at (base : Z) : Z -> Z := fun _ => base.
(** A Page Source that fails. *)
Definition os_fail : Z -> Z := fun _ => MAP_FAILED.

(** Where the static buffer sits in the runs below. *)
Definition demo_emergency_block : Z := 0x601040.

Definition state_of {A} (o : outcome A) : state :=
  match o with
  | Returns _ st | Hangs st | Exits _ st => st
  | _ => initial_state
  end.

Definition value_of {A} (o : outcome A) : option A :=
  match o with
  | Returns a _ => Some a
  | _ => None
  end.

Lemma returns_state_of {A} (o : outcome A) (a : A) :
  value_of o = Some a -> o = Returns a (state_of o).
Proof. destruct o; cbn; congruence. Qed.

(** After [xxmalloc(2048)] on a page at 0x10000 and [xxmalloc(3000)] on a
    region at 0x20000. *)
Definition demo_state : state :=
  state_of (xxmalloc demo_emergency_block (os_at 0x20000) 3000
              (state_of (xxmalloc demo_emergency_block (os_at 0x10000) 2048 initial_state))).

Lemma fresh_region_empty b len :
  b mod PAGE_SIZE = 0 -> 0 < b -> 0 < len -> b + len <= 2 ^ 63 ->
  fresh_region ∅ b len.
Proof. intros. repeat split; done. Qed.

Lemma Inv_after_first eb os n :
  1 <= n <= 2048 -> fresh_region ∅ (os PAGE_SIZE) PAGE_SIZE ->
  Inv (state_of (xxmalloc eb os n initial_state)).
Proof.
  intros Hn Hf.
  pose proof (xxmalloc_small eb os n initial_state Inv_initial eq_refl eq_refl Hn Hf) as H.
  apply wp_returns in H as (ptr & st' & -> & HI & _). exact HI.
Qed.

(** The state after the first size-class allocation on an empty heap. *)
Lemma first_allocation_state eb os n (i : nat) B rest :
  1 <= n <= 2048 -> class_index n = Z.of_nat i ->
  os PAGE_SIZE = B ->
  fresh_region ∅ B PAGE_SIZE ->
  page_blocks B (class_size (Z.of_nat i)) = (B + PAGE_SIZE - class_size (Z.of_nat i)) :: rest ->
  let o := xxmalloc eb os n initial_state in
  o = Returns (B + PAGE_SIZE - class_size (Z.of_nat i)) (state_of o) /\
  Inv (state_of o) /\ in_malloc (state_of o) = false /\
  use_emergency_block (state_of o) = false /\
  blockPtrs (state_of o) !! i = Some B /\
  (Mem.load 8 (heap (state_of o)) (Header_freelist B) = Some (default NULL (head rest)) /\
   list_at (heap (state_of o)) (default NULL (head rest)) rest) /\
  (forall x, x < B \/ B + PAGE_SIZE <= x -> heap (state_of o) !! x = None).
Proof.
  intros Hn Hci HB Hfresh Hpb o.
  pose proof (xxmalloc_fresh eb os n initial_state i NULL B Inv_initial eq_refl eq_refl
                Hn Hci) as H.
  assert (Hi : (i < 8)%nat).
  { destruct (class_of_request n Hn) as (i' & Hi' & Hidx & _).
    unfold class_index in Hci. lia. }
  specialize (H ltac:(by apply lookup_replicate_2) (or_introl eq_refl) HB Hfresh).
  apply wp_returns in H as (q & st1 & Hrun & HI1 & Him1 & Hue1 & Hbp1 & _ & _ & _ & Hout & _
                              & rest' & h1 & Hpb' & Hh1 & Hl1).
  rewrite Hpb in Hpb'. injection Hpb' as <- <-.
  subst o. rewrite Hrun. cbn [state_of].
  split; [done|]. do 3 (split; [done|]).
  split; [rewrite Hbp1; by apply list_lookup_insert_eq|].
  assert (h1 = default NULL (head rest)) as <-.
  { destruct rest as [|y rest]; cbn [list_at head default] in *; [done|]. by destruct Hl1. }
  split; [done|]. intros x Hx. rewrite Hout by done. apply lookup_empty.
Qed.



(** ** Properties of the allocator *)

Lemma class_size_pow2 (i : nat) : class_size (Z.of_nat i) = 2 ^ (Z.of_nat i + 4).
Proof. unfold class_size. apply Z.shiftl_1_l. Qed.

(** C1: for every request [1 <= n <= 2048], [xxmalloc] returns a non-null
    pointer, and [xxmalloc_usable_size] of that pointer is a power of two
    that is at least [max(16, n)] and at most [2 * max(16, n)]. *)
Theorem small_request_usable_size eb os n st :
  Inv st -> in_malloc st = false -> use_emergency_block st = false ->
  1 <= n <= 2048 ->
  fresh_region (heap st) (os PAGE_SIZE) PAGE_SIZE ->
  exists ptr st' u k,
    xxmalloc eb os n st = Returns ptr st' /\ ptr <> NULL /\
    xxmalloc_usable_size ptr st' = Returns u st' /\
    0 <= k /\ u = 2 ^ k /\ Z.max 16 n <= u <= 2 * Z.max 16 n.
Proof.
  intros HI Him Hue Hn Hfresh.
  pose proof (xxmalloc_small eb os n st HI Him Hue Hn Hfresh) as H.
  apply wp_returns in H as (ptr & st' & Hrun & HI' & _ & _ & _ & i & b & Hci & Hi & Hb & Hb0 & Hg).
  destruct (class_of_request n Hn) as (i' & _ & Hidx & _ & Hpow & Hlo & Hhi).
  assert (i' = i) as -> by (unfold class_index in Hci; lia).
  rewrite clamp_max in *.
  destruct HI' as [_ Hpages]. pose proof (Hpages i b (owned_top _ _ _ Hb Hb0)) as Hpb.
  pose proof Hpb as (Ha & H0 & H1 & _).
  pose proof (good_node_bounds i b ptr Hi Hg) as Hgb.
  exists ptr, st', (class_size (Z.of_nat i)), (Z.of_nat i + 4).
  split; [done|]. split; [unfold NULL; lia|]. split.
  { apply (usable_size_owned st' i b); [done|done|]. unfold PAGE_SIZE in *. lia. }
  split; [lia|]. split; [apply class_size_pow2|]. lia.
Qed.

Lemma small_request_usable_size_witness :
  exists ptr st' u k,
    xxmalloc demo_emergency_block (os_at 0x10000) 100 initial_state = Returns ptr st' /\
    ptr <> NULL /\
    xxmalloc_usable_size ptr st' = Returns u st' /\
    0 <= k /\ u = 2 ^ k /\ Z.max 16 100 <= u <= 2 * Z.max 16 100.
Proof.
  apply (small_request_usable_size demo_emergency_block (os_at 0x10000) 100 initial_state).
  - exact Inv_initial.
  - reflexivity.
  - reflexivity.
  - lia.
  - apply fresh_region_empty; [reflexivity|reflexivity|reflexivity|vm_compute; discriminate].
Defined.

(** C3: a request that is an exact power of two, [16 <= 2^k <= 2048], is
    mapped to block size [2^k] itself, at index [k - 4]; the block that
    [xxmalloc] returns for it has usable size exactly [2^k]. *)
Theorem exact_power_of_two_not_over_rounded k :
  4 <= k <= 11 ->
  class_log2 (clamp (2 ^ k)) = k /\
  class_index (2 ^ k) = k - Z.log2 16 /\
  Z.shiftl 1 (class_log2 (clamp (2 ^ k))) = 2 ^ k /\
  forall eb os st,
    Inv st -> in_malloc st = false -> use_emergency_block st = false ->
    fresh_region (heap st) (os PAGE_SIZE) PAGE_SIZE ->
    exists ptr st',
      xxmalloc eb os (2 ^ k) st = Returns ptr st' /\
      xxmalloc_usable_size ptr st' = Returns (2 ^ k) st'.
Proof.
  intros Hk.
  assert (Hr : 16 <= 2 ^ k <= 2048).
  { split.
    - change 16 with (2 ^ 4). apply Z.pow_le_mono_r; lia.
    - change 2048 with (2 ^ 11). apply Z.pow_le_mono_r; lia. }
  assert (Hc : clamp (2 ^ k) = 2 ^ k) by (rewrite clamp_max; lia).
  assert (Hlg : class_log2 (clamp (2 ^ k)) = k).
  { rewrite Hc, class_log2_log2_up by done. apply Z.log2_up_pow2. lia. }
  split; [done|]. split.
  { unfold class_index. rewrite Hlg. reflexivity. }
  split. { rewrite Hlg. apply Z.shiftl_1_l. }
  intros eb os st HI Him Hue Hfresh.
  pose proof (xxmalloc_small eb os (2 ^ k) st HI Him Hue ltac:(lia) Hfresh) as H.
  apply wp_returns in H as (ptr & st' & Hrun & HI' & _ & _ & _ & i & b & Hci & Hi & Hb & Hb0 & Hg).
  unfold class_index in Hci. rewrite Hlg in Hci. change (builtin_ctz MIN_MALLOC_SIZE) with 4 in Hci.
  destruct HI' as [_ Hpages]. pose proof (Hpages i b (owned_top _ _ _ Hb Hb0)) as Hpb.
  pose proof (good_node_bounds i b ptr Hi Hg) as Hgb.
  exists ptr, st'. split; [done|].
  replace (2 ^ k) with (class_size (Z.of_nat i))
    by (rewrite class_size_pow2; f_equal; lia).
  apply (usable_size_owned st' i b); [done|done|]. unfold PAGE_SIZE in *. lia.
Qed.

Lemma exact_power_of_two_not_over_rounded_witness :
  class_log2 (clamp (2 ^ 6)) = 6 /\
  exists ptr st',
    xxmalloc demo_emergency_block (os_at 0x10000) 64 initial_state = Returns ptr st' /\
    xxmalloc_usable_size ptr st' = Returns 64 st'.
Proof.
  destruct (exact_power_of_two_not_over_rounded 6 ltac:(lia)) as (H1 & _ & _ & H4).
  split; [exact H1|].
  apply (H4 demo_emergency_block (os_at 0x10000) initial_state).
  - exact Inv_initial.
  - reflexivity.
  - reflexivity.
  - apply fresh_region_empty; [reflexivity|reflexivity|reflexivity|vm_compute; discriminate].
Defined.

(** C5: bootstrapping a fresh page for block size [s = 2^k],
    [16 <= s <= 2048], links exactly
    [(PAGE_SIZE - ROUND_UP(sizeof(Header), s)) / s] blocks into the page's
    freelist. *)
Theorem bootstrap_block_count os k st old :
  4 <= k <= 11 ->
  blockPtrs st !! Z.to_nat (k - 4) = Some old -> 0 <= old < 2 ^ 64 ->
  fresh_region (heap st) (os PAGE_SIZE) PAGE_SIZE ->
  exists st' h l,
    new_page os (k - 4) (2 ^ k) st = Returns tt st' /\
    blockPtrs st' !! Z.to_nat (k - 4) = Some (os PAGE_SIZE) /\
    Mem.load 8 (heap st') (Header_freelist (os PAGE_SIZE)) = Some h /\
    walk (Z.to_nat PAGE_SIZE) (heap st') h = Some l /\
    Z.of_nat (length l) = (PAGE_SIZE - ROUND_UP sizeof_Header (2 ^ k)) / 2 ^ k.
Proof.
  intros Hk Hold Holdr Hfresh.
  set (i := Z.to_nat (k - 4)) in *.
  assert (Hi : (i < 8)%nat) by lia.
  assert (Hik : k - 4 = Z.of_nat i) by lia.
  assert (Hs : 2 ^ k = class_size (Z.of_nat i)) by (rewrite class_size_pow2; f_equal; lia).
  rewrite Hik, Hs.
  pose proof (new_page_spec os i st old (os PAGE_SIZE) Hi Hold Holdr eq_refl Hfresh) as H.
  cbv zeta in H.
  apply wp_returns in H as ([] & st' & Hrun & _ & _ & Hbp & _ & _ & _ & _ & _ & _ & _ & h & l & Hh & Hl & Hlen & _).
  exists st', h, l. split; [done|]. split.
  { rewrite Hbp. apply list_lookup_insert_eq. by eapply lookup_lt_Some. }
  split; [done|]. split; [|exact Hlen].
  apply list_at_walk; [done|].
  apply Nat2Z.inj_le. rewrite Hlen. rewrite Z2Nat.id by (unfold PAGE_SIZE; lia).
  clear - Hi. unfold first_block. class_cases i Hi; vm_compute; discriminate.
Qed.

Lemma bootstrap_block_count_witness :
  exists st' h l,
    new_page (os_at 0x10000) (4 - 4) (2 ^ 4) initial_state = Returns tt st' /\
    blockPtrs st' !! Z.to_nat (4 - 4) = Some 0x10000 /\
    Mem.load 8 (heap st') (Header_freelist 0x10000) = Some h /\
    walk (Z.to_nat PAGE_SIZE) (heap st') h = Some l /\
    Z.of_nat (length l) = 254.
Proof.
  apply (bootstrap_block_count (os_at 0x10000) 4 initial_state 0).
  - lia.
  - reflexivity.
  - vm_compute. split; [discriminate|reflexivity].
  - apply fresh_region_empty; [reflexivity|reflexivity|reflexivity|vm_compute; discriminate].
Defined.


Lemma xxmalloc_zero eb os st : xxmalloc eb os 0 st = Returns NULL st.
Proof. reflexivity. Qed.

Lemma xxmalloc_emergency eb os n st :
  use_emergency_block st = true -> n <> 0 -> xxmalloc eb os n st = Returns eb st.
Proof.
  intros Hue Hn. unfold xxmalloc.
  replace (n =? 0) with false by (symmetry; by apply Z.eqb_neq).
  unfold bind, get. by rewrite Hue.
Qed.

Lemma xxmalloc_nested eb os n st :
  use_emergency_block st = false -> in_malloc st = true -> n <> 0 ->
  xxmalloc eb os n st =
    Hangs (mkState true true (blockPtrs st) (p st) (offset st) (heap st)).
Proof.
  intros Hue Him Hn. unfold xxmalloc.
  replace (n =? 0) with false by (symmetry; by apply Z.eqb_neq).
  unfold bind at 1. unfold get at 1. rewrite Hue.
  unfold bind at 1. unfold get at 1. rewrite Him.
  unfold bind, set_use_emergency_block, hang. by rewrite Him.
Qed.

(** A released block of the class's current page is the next block that
    the class hands out; the Page Source is not consulted. *)
Lemma release_then_allocate eb os n st (i : nat) b ptr :
  Inv st -> in_malloc st = false -> use_emergency_block st = false ->
  1 <= n <= 2048 -> class_index n = Z.of_nat i ->
  blockPtrs st !! i = Some b -> b <> NULL ->
  b + first_block (class_size (Z.of_nat i)) <= ptr < b + PAGE_SIZE ->
  exists st2 st3,
    xxfree ptr st = Returns tt st2 /\
    Mem.load 8 (heap st2) (Header_freelist b) =
      Some (ptr - ptr mod class_size (Z.of_nat i)) /\
    xxmalloc eb os n st2 = Returns (ptr - ptr mod class_size (Z.of_nat i)) st3 /\
    Inv st3 /\ blockPtrs st3 = blockPtrs st /\
    (forall x, is_Some (heap st3 !! x) <-> is_Some (heap st !! x)).
Proof.
  intros HI Him Hue Hn Hci Hb Hb0 Hp.
  pose proof (owned_top _ _ _ Hb Hb0) as Hown.
  pose proof (owned_lt _ _ _ HI Hown) as Hi.
  destruct (xxfree_owned st i b ptr HI Hown Hp)
    as (st2 & f & m1 & Hfree & HI2 & F1 & F2 & F3 & F4 & F5 & Hf & Hs1 & Hs2 & Hl1 & Hl2).
  destruct HI as [_ Hpages]. destruct (Hpages i b Hown) as (Ha & H0 & _).
  destruct (block_start_good i b ptr Hi Ha Hp) as [Hgs _].
  pose proof (good_node_bounds i b _ Hi Hgs) as Hsb.
  assert (Hb2 : blockPtrs st2 !! i = Some b) by (by rewrite F3).
  pose proof (xxmalloc_reuse eb os n st2 i b _ HI2 ltac:(congruence) ltac:(congruence)
                Hn Hci Hb2 Hb0 Hl1 ltac:(unfold NULL; lia)) as H.
  apply wp_returns in H as (q & st3 & Hrun & -> & HI3 & _ & _ & G3 & _ & _ & _ & nx & Hnx & Hst).
  exists st2, st3. split; [done|]. split; [done|]. split; [done|]. split; [done|].
  split; [congruence|]. intros x.
  rewrite (Mem.store_is_Some_lookup _ _ _ _ _ x Hst).
  rewrite (Mem.store_is_Some_lookup _ _ _ _ _ x Hs2).
  apply (Mem.store_is_Some_lookup _ _ _ _ _ x Hs1).
Qed.

(** C6, as the code has it: a pointer just returned by the size-class path
    of [xxmalloc], released and requested again, comes back, with no page
    acquired; more generally, a released pointer into a block of the page
    that is the current table entry of its class is the next block of that
    class. *)
Theorem release_then_allocate_reuses :
  (forall eb os os' n st,
     Inv st -> in_malloc st = false -> use_emergency_block st = false ->
     1 <= n <= 2048 ->
     fresh_region (heap st) (os PAGE_SIZE) PAGE_SIZE ->
     exists ptr st1 st2 st3,
       xxmalloc eb os n st = Returns ptr st1 /\
       xxfree ptr st1 = Returns tt st2 /\
       xxmalloc eb os' n st2 = Returns ptr st3 /\
       blockPtrs st3 = blockPtrs st1 /\
       (forall x, is_Some (heap st3 !! x) <-> is_Some (heap st1 !! x))) /\
  (forall eb os' n st (i : nat) b ptr,
     Inv st -> in_malloc st = false -> use_emergency_block st = false ->
     1 <= n <= 2048 -> class_index n = Z.of_nat i ->
     blockPtrs st !! i = Some b -> b <> NULL ->
     b + first_block (class_size (Z.of_nat i)) <= ptr < b + PAGE_SIZE ->
     exists st2 st3,
       xxfree ptr st = Returns tt st2 /\
       Mem.load 8 (heap st2) (Header_freelist b) =
         Some (ptr - ptr mod class_size (Z.of_nat i)) /\
       xxmalloc eb os' n st2 = Returns (ptr - ptr mod class_size (Z.of_nat i)) st3 /\
       blockPtrs st3 = blockPtrs st /\
       (forall x, is_Some (heap st3 !! x) <-> is_Some (heap st !! x))).
Proof.
  split.
  - intros eb os os' n st HI Him Hue Hn Hfresh.
    pose proof (xxmalloc_small eb os n st HI Him Hue Hn Hfresh) as H.
    apply wp_returns in H as (ptr & st1 & Hrun & HI1 & Him1 & Hue1 & _ & i & b & Hci & Hi & Hb & Hb0 & Hg).
    pose proof HI1 as [_ Hpages].
    destruct (Hpages i b (owned_top _ _ _ Hb Hb0)) as (Ha & _).
    destruct (good_node_block_start i b ptr Hi Ha Hg) as [Hst Hin].
    destruct (release_then_allocate eb os' n st1 i b ptr HI1 Him1 Hue1 Hn Hci Hb Hb0 Hin)
      as (st2 & st3 & Hfree & _ & Hrun2 & _ & Hbp & Hdom).
    rewrite Hst in Hrun2. by exists ptr, st1, st2, st3.
  - intros eb os' n st i b ptr HI Him Hue Hn Hci Hb Hb0 Hp.
    destruct (release_then_allocate eb os' n st i b ptr HI Him Hue Hn Hci Hb Hb0 Hp)
      as (st2 & st3 & Hfree & Hhead & Hrun2 & _ & Hbp & Hdom).
    by exists st2, st3.
Qed.

Lemma release_then_allocate_reuses_witness :
  exists ptr st1 st2 st3,
    xxmalloc demo_emergency_block (os_at 0x10000) 16 initial_state = Returns ptr st1 /\
    xxfree ptr st1 = Returns tt st2 /\
    xxmalloc demo_emergency_block os_fail 16 st2 = Returns ptr st3 /\
    blockPtrs st3 = blockPtrs st1 /\
    (forall x, is_Some (heap st3 !! x) <-> is_Some (heap st1 !! x)).
Proof.
  apply (proj1 release_then_allocate_reuses).
  - exact Inv_initial.
  - reflexivity.
  - reflexivity.
  - lia.
  - apply fresh_region_empty; [reflexivity|reflexivity|reflexivity|vm_compute; discriminate].
Defined.

(** Two pages of class 2048, each with its single block handed out; the
    block of the older page is released, then the class is asked again. *)
Definition stale_run1 : outcome Z :=
  xxmalloc demo_emergency_block (os_at 0x10000) 2048 initial_state.
Definition stale_run2 : outcome Z :=
  xxmalloc demo_emergency_block (os_at 0x20000) 2048 (state_of stale_run1).
Definition stale_run3 : outcome unit :=
  xxfree 0x10800 (state_of stale_run2).
Definition stale_run4 : outcome Z :=
  xxmalloc demo_emergency_block (os_at 0x30000) 2048 (state_of stale_run3).

(** C6 as stated fails: the released pointer is recognized and its block
    is pushed onto the freelist of its page, yet the next allocation of the
    class maps a new page and returns a block that was on no freelist. *)
Lemma stale_page_not_reused :
  value_of stale_run1 = Some 0x10800 /\
  value_of stale_run2 = Some 0x20800 /\
  value_of (xxmalloc_usable_size 0x10800 (state_of stale_run2)) = Some 2048 /\
  value_of stale_run3 = Some tt /\
  Mem.load 8 (heap (state_of stale_run3)) (Header_freelist 0x10000) = Some 0x10800 /\
  value_of stale_run4 = Some 0x30800 /\
  heap (state_of stale_run3) !! 0x30800 = None /\
  blockPtrs (state_of stale_run3) = [0; 0; 0; 0; 0; 0; 0; 0x20000] /\
  blockPtrs (state_of stale_run4) = [0; 0; 0; 0; 0; 0; 0; 0x30000].
Proof. vm_compute. repeat split; reflexivity. Qed.


Lemma good_node_aligned (i : nat) b x :
  (i < 8)%nat -> b mod PAGE_SIZE = 0 ->
  good_node b (class_size (Z.of_nat i)) x ->
  x mod class_size (Z.of_nat i) = 0 /\ b + sizeof_Header <= x < b + PAGE_SIZE.
Proof.
  intros Hi Hb Hg. unfold good_node in Hg. class_cases i Hi; mlia.
Qed.

(** [xxmalloc] keeps the heap invariant on every path on which it returns. *)
Lemma xxmalloc_preserves eb os n st ptr st' :
  Inv st -> user_space (heap st) -> page_source_ok (heap st) os ->
  0 <= n < 2 ^ 64 ->
  xxmalloc eb os n st = Returns ptr st' ->
  Inv st' /\ user_space (heap st') /\
  (use_emergency_block st = false -> 1 <= n <= 2048 ->
   exists (i : nat) b,
     owned st' i b /\ good_node b (class_size (Z.of_nat i)) ptr /\
     ptr mod class_size (Z.of_nat i) = 0 /\
     b + sizeof_Header <= ptr < b + PAGE_SIZE).
Proof.
  intros HI Hus Hos Hn Hrun.
  destruct (decide (n = 0)) as [->|Hn0].
  { rewrite xxmalloc_zero in Hrun. injection Hrun as <- <-.
    split; [done|]. split; [done|]. intros _ ?. lia. }
  destruct (use_emergency_block st) eqn:Hue.
  { rewrite xxmalloc_emergency in Hrun by done. injection Hrun as <- <-.
    split; [done|]. split; [done|]. intros ?. done. }
  destruct (in_malloc st) eqn:Him.
  { rewrite xxmalloc_nested in Hrun by done. done. }
  destruct (decide (2048 < n)) as [Hbig|Hsmall].
  { rewrite xxmalloc_large in Hrun by done. cbv zeta in Hrun.
    destruct (Z.eqb_spec (os (ROUND_UP n PAGE_SIZE)) MAP_FAILED) as [E|E].
    - injection Hrun as <- <-. split; [done|]. split; [done|]. intros _ ?. lia.
    - injection Hrun as <- <-.
      destruct (Hos (ROUND_UP n PAGE_SIZE)) as [?|Hfresh]; [done|].
      split; [by eapply Inv_map_zero|].
      split; [by apply user_space_map_zero|]. intros _ ?. lia. }
  assert (Hn' : 1 <= n <= 2048) by lia.
  destruct (class_of_request n Hn') as (i & Hi & Hidx & _).
  pose proof HI as [Hlen Hpages].
  destruct (lookup_lt_is_Some_2 (blockPtrs st) i ltac:(lia)) as [b Hb].
  assert (Hcase : (b = NULL \/ Mem.load 8 (heap st) (Header_freelist b) = Some NULL) \/
                  (b <> NULL /\ exists f, Mem.load 8 (heap st) (Header_freelist b) = Some f /\ f <> NULL)).
  { destruct (decide (b = NULL)) as [->|Hb0]; [by left; left|].
    destruct (Hpages i b (owned_top _ _ _ Hb Hb0)) as (_ & _ & _ & Hmap & _).
    destruct (Mem.load_is_Some 8 (heap st) (Header_freelist b)) as [f Hf].
    { intros x Hx. apply Hmap. mlia. }
    destruct (decide (f = NULL)) as [->|Hf0]; [by left; right|].
    right. split; [done|]. by exists f. }
  destruct Hcase as [Hneed|(Hb0 & f & Hf & Hf0)].
  - destruct (Hos PAGE_SIZE) as [Hfail|Hfresh].
    { rewrite (xxmalloc_small_mmap_fails eb os n st i b) in Hrun by done. done. }
    pose proof (xxmalloc_fresh eb os n st i b _ HI Him Hue Hn' Hidx Hb Hneed eq_refl Hfresh) as H.
    apply wp_returns in H as (q & st1 & Hrun' & HI1 & _ & _ & Hbp & _ & _ & Hg & Hout & _).
    rewrite Hrun in Hrun'. injection Hrun' as <- <-.
    pose proof Hfresh as (HBa & HB0 & _ & HB1 & _).
    split; [done|]. split; [by eapply user_space_outside|]. intros _ _.
    exists i, (os PAGE_SIZE). split.
    { apply owned_top; [|unfold NULL; lia]. rewrite Hbp. apply list_lookup_insert_eq. lia. }
    split; [done|]. by apply good_node_aligned.
  - pose proof (xxmalloc_reuse eb os n st i b f HI Him Hue Hn' Hidx Hb Hb0 Hf Hf0) as H.
    apply wp_returns in H as (q & st1 & Hrun' & -> & HI1 & _ & _ & Hbp & _ & _ & Hg & nx & _ & Hst).
    rewrite Hrun in Hrun'. injection Hrun' as <- <-.
    split; [done|]. split; [by eapply user_space_store|]. intros _ _.
    exists i, b. split; [apply owned_top; [by rewrite Hbp|done]|].
    split; [done|]. apply good_node_aligned; [done| |done].
    by destruct (Hpages i b (owned_top _ _ _ Hb Hb0)) as (? & _).
Qed.

Lemma xxfree_preserves ptr st :
  Inv st -> user_space (heap st) -> releasable st ptr ->
  exists st', xxfree ptr st = Returns tt st' /\ Inv st' /\ user_space (heap st').
Proof.
  intros HI Hus [->|[(Hp & v & Hv & Hne)|(i & b & Hown & Hp)]].
  - exists st. by rewrite xxfree_null.
  - exists st. by rewrite (xxfree_unmarked st ptr v).
  - destruct (xxfree_owned st i b ptr HI Hown Hp)
      as (st' & f & m1 & Hfree & HI' & _ & _ & _ & _ & _ & _ & Hs1 & Hs2 & _).
    exists st'. split; [done|]. split; [done|].
    eapply user_space_store; [exact Hs2|]. by eapply user_space_store.
Qed.

Lemma new_page_preserves os (i : nat) st :
  Inv st -> user_space (heap st) -> (i < 8)%nat ->
  fresh_region (heap st) (os PAGE_SIZE) PAGE_SIZE ->
  exists st', new_page os (Z.of_nat i) (class_size (Z.of_nat i)) st = Returns tt st' /\
              Inv st' /\ user_space (heap st').
Proof.
  intros HI Hus Hi Hfresh. pose proof HI as [Hlen Hpages].
  destruct (lookup_lt_is_Some_2 (blockPtrs st) i ltac:(lia)) as [b Hb].
  assert (Hbr : 0 <= b < 2 ^ 64).
  { destruct (decide (b = NULL)) as [->|Hb0]; [unfold NULL; mlia|].
    destruct (Hpages i b (owned_top _ _ _ Hb Hb0)) as (_ & ? & ? & _). mlia. }
  pose proof (new_page_spec os i st b _ Hi Hb Hbr eq_refl Hfresh) as H. cbv zeta in H.
  apply wp_returns in H as ([] & st' & Hrun & _ & _ & Hbp & _ & _ & Hout & Hmap & Hmg & Hsz & Hnx & h & l & Hh & Hl & _ & Hall).
  exists st'. split; [done|]. split.
  - by apply (Inv_new_page st st' i (os PAGE_SIZE) b h l).
  - destruct Hfresh as (_ & ? & _ & ? & _). by eapply user_space_outside.
Qed.


(** A Page Source that maps requests of up to 4 GiB at [base] and fails
    otherwise. *)
Definition os_bounded (base : Z) : Z -> Z :=
  fun len => if (0 <? len) && (len <=? 2 ^ 32) then base else MAP_FAILED.

Lemma page_source_ok_bounded base :
  base mod PAGE_SIZE = 0 -> 0 < base -> base + 2 ^ 32 <= 2 ^ 63 ->
  page_source_ok ∅ (os_bounded base).
Proof.
  intros Ha H0 H1 len. unfold os_bounded.
  destruct ((0 <? len) && (len <=? 2 ^ 32)) eqn:E; [|by left].
  right. apply andb_true_iff in E as [E1 E2].
  apply Z.ltb_lt in E1. apply Z.leb_le in E2.
  apply fresh_region_empty; [done|done|done|lia].
Qed.

(** [xxmalloc(2048)] on an empty heap. *)
Local Notation "'first_alloc'" :=
  (xxmalloc demo_emergency_block (os_bounded 0x10000) 2048 initial_state).

Lemma first_alloc_facts :
  value_of first_alloc = Some 0x10800 /\
  blockPtrs (state_of first_alloc) !! 7%nat = Some 0x10000.
Proof. vm_compute. split; reflexivity. Qed.


(** ** Releasing a large object whose contents look like a header *)

(** The heap invariant only looks at the owned pages. *)
Lemma Inv_frame st st' :
  Inv st -> blockPtrs st' = blockPtrs st ->
  (forall j y, owned st j y ->
     forall x, y <= x < y + PAGE_SIZE -> heap st' !! x = heap st !! x) ->
  Inv st'.
Proof.
  intros HI Hbp Hsame. pose proof HI as [Hlen Hpages].
  split; [by rewrite Hbp|]. intros j c Hown'.
  assert (Hown : owned st j c).
  { apply (owned_frame st st' j c Hbp); [|done]. intros y Hy.
    apply Mem.load_ext. intros x Hx. apply (Hsame j y Hy).
    destruct (Hpages j y Hy) as (_ & _). mlia. }
  apply (page_ok_unchanged (heap st)).
  - by eapply owned_lt.
  - by apply Hpages.
  - by apply (Hsame j).
Qed.

(** What a caller may write into the first 24 bytes of an object at
    0x20000: the marker, a size and a pointer. *)
Definition forge_header : M unit :=
  store_int 0x20000 (to_int MAGIC) ;;
  store64 0x20008 0x10010 ;;
  store64 0x20010 0x10018.

Lemma forged_release eb os st :
  Inv st -> user_space (heap st) ->
  in_malloc st = false -> use_emergency_block st = false ->
  blockPtrs st !! 0%nat = Some 0x10000 ->
  Mem.mapped (heap st) 0x20000 24 ->
  Mem.load 4 (heap st) 0x20000 = Some 0 ->
  let o3 := forge_header st in
  let o4 := xxfree 0x20000 (state_of o3) in
  o3 = Returns tt (state_of o3) /\
  Inv (state_of o3) /\ user_space (heap (state_of o3)) /\
  o4 = Returns tt (state_of o4) /\
  blockPtrs (state_of o4) !! 0%nat = Some 0x10000 /\
  Mem.load 8 (heap (state_of o4)) (Header_freelist 0x10000) = Some 0x10018 /\
  ~ good_node 0x10000 (class_size (Z.of_nat 0)) 0x10018 /\
  ~ Inv (state_of o4) /\
  value_of (xxmalloc eb os 16 (state_of o4)) = Some 0x10018.
Proof.
  intros HI Hus Him Hue Hb Hmap Hzero o3 o4.
  pose proof HI as [Hlen Hpages].
  assert (Hb0 : 0x10000 <> NULL) by discriminate.
  pose proof (owned_top _ _ _ Hb Hb0) as Hown.
  destruct (Hpages _ _ Hown) as (_ & _ & _ & Hpmap & _).
  (* no owned page starts at 0x20000: the marker is not there *)
  assert (Hdis : forall j y, owned st j y ->
            forall x, y <= x < y + PAGE_SIZE -> ~ 0x20000 <= x < 0x20018).
  { intros j y Hy x Hx Hin.
    destruct (Hpages j y Hy) as (Hya & Hy0 & _ & _ & Hmg & _).
    assert (y = 0x20000) as -> by (clear - Hya Hx Hin; mlia).
    unfold Header_magicNum in Hmg. rewrite Hzero in Hmg. discriminate Hmg. }
  destruct (Mem.store_is_Some 4 (heap st) 0x20000 (to_int MAGIC)) as [m1 Hm1].
  { intros x Hx. apply Hmap. change (Z.of_nat 4) with 4 in Hx. lia. }
  destruct (Mem.store_is_Some 8 m1 0x20008 0x10010) as [m2 Hm2].
  { eapply Mem.store_mapped; [done|]. intros x Hx. apply Hmap.
    change (Z.of_nat 8) with 8 in Hx. lia. }
  destruct (Mem.store_is_Some 8 m2 0x20010 0x10018) as [m3 Hm3].
  { do 2 (eapply Mem.store_mapped; [done|]). intros x Hx. apply Hmap.
    change (Z.of_nat 8) with 8 in Hx. lia. }
  assert (E3 : forge_header st = Returns tt (set_heap m3 st)).
  { unfold forge_header, bind, store_int, store64. rewrite Hm1. cbn [set_heap heap].
    rewrite Hm2. cbn [set_heap heap]. rewrite Hm3. by destruct st. }
  assert (Hout3 : forall x, ~ 0x20000 <= x < 0x20018 -> m3 !! x = heap st !! x).
  { intros x Hx.
    rewrite (Mem.lookup_store_out _ _ _ _ _ x Hm3) by (change (Z.of_nat 8) with 8; lia).
    rewrite (Mem.lookup_store_out _ _ _ _ _ x Hm2) by (change (Z.of_nat 8) with 8; lia).
    apply (Mem.lookup_store_out _ _ _ _ _ x Hm1). change (Z.of_nat 4) with 4. lia. }
  assert (HI3 : Inv (set_heap m3 st)).
  { apply (Inv_frame st); [done|done|]. intros j y Hy x Hx. cbn [set_heap heap].
    apply Hout3. by apply (Hdis j y Hy). }
  assert (Hus3 : user_space (heap (set_heap m3 st))).
  { cbn [set_heap heap]. do 3 (eapply user_space_store; [done|]). done. }
  (* the header that xxfree reads *)
  assert (Hmg3 : Mem.load 4 m3 0x20000 = Some MAGIC).
  { rewrite (Mem.load_store_ne 8 4 _ _ _ _ _ Hm3) by lia.
    rewrite (Mem.load_store_ne 8 4 _ _ _ _ _ Hm2) by lia.
    by rewrite (load32_store32 _ _ _ _ Hm1). }
  assert (Hsz3 : Mem.load 8 m3 0x20008 = Some 0x10010).
  { rewrite (Mem.load_store_ne 8 8 _ _ _ _ _ Hm3) by lia.
    apply (load64_store64 _ _ _ _ Hm2). pow_consts. lia. }
  assert (Hfl3 : Mem.load 8 m3 0x20010 = Some 0x10018).
  { apply (load64_store64 _ _ _ _ Hm3). pow_consts. lia. }
  assert (Hp : 0 < 0x20000 < 2 ^ 63) by (pow_consts; lia).
  assert (Hst3 : Mem.mapped m3 0x10010 8).
  { do 3 (eapply Mem.store_mapped; [done|]). intros x Hx. apply Hpmap.
    unfold PAGE_SIZE. lia. }
  pose proof (xxfree_marked (set_heap m3 st) 0x20000 0x10010 0x10018 Hp) as Hfree.
  cbv zeta in Hfree. cbn [set_heap heap] in Hfree.
  specialize (Hfree Hmg3 Hsz3 ltac:(discriminate) Hfl3 Hst3).
  destruct Hfree as (m4 & m5 & Hm4 & Hm5 & Hfree).
  change (0x20000 - 0x20000 mod 0x10010) with 0x10010 in Hm4, Hm5.
  change (Header_freelist (0x20000 - 0x20000 mod PAGE_SIZE)) with 0x20010 in Hm5.
  assert (Hbad : ~ good_node 0x10000 (class_size (Z.of_nat 0)) 0x10018).
  { intros [Hlo _]. vm_compute in Hlo. by apply Hlo. }
  subst o4 o3. rewrite E3. cbn [state_of]. rewrite Hfree. cbn [state_of].
  split; [done|]. split; [done|]. split; [done|]. split; [done|].
  cbn [set_heap blockPtrs heap]. split; [done|].
  assert (Hhead : Mem.load 8 m5 (Header_freelist 0x10000) = Some 0x10018).
  { unfold Header_freelist.
    rewrite (Mem.load_store_ne 8 8 _ _ _ _ _ Hm5) by lia.
    apply (load64_store64 _ _ _ _ Hm4). pow_consts. lia. }
  split; [done|]. split; [done|]. split.
  { intros [_ Hpages5]. apply Hbad.
    assert (Hown5 : owned (set_heap m5 (set_heap m3 st)) 0 0x10000) by (by apply owned_top).
    destruct (Hpages5 _ _ Hown5) as (_ & _ & _ & _ & _ & _ & Hfl5).
    apply Hfl5. split; [discriminate|]. exists 0x10018. split; [done|apply linked_here]. }
  (* the next request of the class pops the forged node *)
  destruct (Mem.load_is_Some 8 m5 (Node_next 0x10018)) as [nx Hnx].
  { do 5 (eapply Mem.store_mapped; [done|]). intros x Hx. apply Hpmap.
    unfold Node_next, PAGE_SIZE in *. change (Z.of_nat 8) with 8 in Hx. lia. }
  assert (Hrun : wp (xxmalloc eb os 16) (set_heap m5 (set_heap m3 st))
                   (fun q _ => q = 0x10018)).
  { apply xxmalloc_prelude; [lia|done|done| |done].
    intros i' b' Hi' Hidx Hsh Hb' st0. cbn [set_heap blockPtrs] in Hb'.
    assert (i' = 0%nat) as ->.
    { change (class_log2 (clamp 16) - builtin_ctz MIN_MALLOC_SIZE) with 0 in Hidx. lia. }
    rewrite Hb in Hb'. injection Hb' as <-.
    decide_if false; [|reflexivity].
    eapply wp_bind. eapply wp_bind. eapply wp_load64; [exact Hhead|]. cbv beta.
    wp_pure. decide_if false; [|reflexivity]. wp_pure.
    eapply wp_bind. eapply wp_mono; [by apply (pop_spec st0 0 0x10000 0x10018 nx)|].
    cbv beta. intros _ st5 (_ & _ & _ & Hp5 & _).
    wp_pure. rewrite Hp5. decide_if false; [|reflexivity].
    wp_pure. by wp_pure. }
  apply wp_returns in Hrun as (q & st5 & -> & ->). reflexivity.
Qed.

Lemma forged_run_facts eb os1 os2 os3 :
  os1 PAGE_SIZE = 0x10000 -> os2 8192 = 0x20000 ->
  let o1 := xxmalloc eb os1 16 initial_state in
  let o2 := xxmalloc eb os2 5000 (state_of o1) in
  let o3 := forge_header (state_of o2) in
  let o4 := xxfree 0x20000 (state_of o3) in
  o1 = Returns 0x10FF0 (state_of o1) /\
  o2 = Returns 0x20000 (state_of o2) /\
  o3 = Returns tt (state_of o3) /\
  Inv (state_of o3) /\ user_space (heap (state_of o3)) /\
  o4 = Returns tt (state_of o4) /\
  blockPtrs (state_of o4) !! 0%nat = Some 0x10000 /\
  Mem.load 8 (heap (state_of o4)) (Header_freelist 0x10000) = Some 0x10018 /\
  ~ good_node 0x10000 (class_size (Z.of_nat 0)) 0x10018 /\
  ~ Inv (state_of o4) /\
  value_of (xxmalloc eb os3 16 (state_of o4)) = Some 0x10018.
Proof.
  intros Hos1 Hos2.
  assert (Hfresh : fresh_region ∅ 0x10000 PAGE_SIZE).
  { apply fresh_region_empty; [reflexivity|reflexivity|reflexivity|vm_compute; discriminate]. }
  assert (Hn : 1 <= 16 <= 2048) by lia.
  pose proof (first_allocation_state eb os1 16 0 0x10000 (tail (page_blocks 0x10000 16))
                Hn eq_refl Hos1 Hfresh eq_refl) as H.
  clear Hfresh Hn. cbv zeta in H.
  destruct H as (Hrun1 & HI1 & Him1 & Hue1 & Hb1 & _ & Hout1).
  cbv zeta. split; [exact Hrun1|]. clear Hrun1.
  revert HI1 Him1 Hue1 Hb1 Hout1.
  generalize (state_of (xxmalloc eb os1 16 initial_state)).
  intros st1 HI1 Him1 Hue1 Hb1 Hout1.
  assert (Hus1 : user_space (heap st1)).
  { intros x Hx. destruct (decide (0x10000 <= x < 0x10000 + PAGE_SIZE)) as [Hin|Hin].
    - unfold PAGE_SIZE in Hin. pow_consts. lia.
    - rewrite Hout1 in Hx by lia. by destruct Hx. }
  assert (Hfresh2 : fresh_region (heap st1) 0x20000 8192).
  { split; [reflexivity|]. split; [reflexivity|]. split; [reflexivity|].
    split; [vm_compute; discriminate|]. intros x Hx. apply Hout1. unfold PAGE_SIZE. lia. }
  assert (E2 : xxmalloc eb os2 5000 st1 =
               Returns 0x20000 (set_heap (Mem.map_zero (heap st1) 0x20000 8192) st1)).
  { rewrite xxmalloc_large by (done || lia). cbv zeta.
    change (ROUND_UP 5000 PAGE_SIZE) with 8192. rewrite Hos2. reflexivity. }
  rewrite E2. cbn [state_of]. split; [reflexivity|].
  assert (HI2 : Inv (set_heap (Mem.map_zero (heap st1) 0x20000 8192) st1)).
  { by apply (Inv_map_zero st1 _ 0x20000 8192 HI1 Hfresh2). }
  assert (Hus2 : user_space (heap (set_heap (Mem.map_zero (heap st1) 0x20000 8192) st1))).
  { cbn [set_heap heap]. by apply user_space_map_zero. }
  assert (Hmap2 : Mem.mapped (heap (set_heap (Mem.map_zero (heap st1) 0x20000 8192) st1))
                    0x20000 24).
  { cbn [set_heap heap]. intros x Hx. apply Mem.map_zero_mapped. lia. }
  assert (Hz2 : Mem.load 4 (heap (set_heap (Mem.map_zero (heap st1) 0x20000 8192) st1))
                  0x20000 = Some 0).
  { cbn [set_heap heap]. apply Mem.load_zero. intros x Hx.
    rewrite Mem.lookup_map_zero. rewrite decide_True; [done|].
    change (Z.of_nat 4) with 4 in Hx. lia. }
  assert (Hb2 : blockPtrs (set_heap (Mem.map_zero (heap st1) 0x20000 8192) st1) !! 0%nat
                = Some 0x10000) by exact Hb1.
  assert (Him2 : in_malloc (set_heap (Mem.map_zero (heap st1) 0x20000 8192) st1) = false)
    by exact Him1.
  assert (Hue2 : use_emergency_block (set_heap (Mem.map_zero (heap st1) 0x20000 8192) st1)
                 = false) by exact Hue1.
  revert HI2 Hus2 Hmap2 Hz2 Hb2 Him2 Hue2.
  generalize (set_heap (Mem.map_zero (heap st1) 0x20000 8192) st1).
  intros st2 HI2 Hus2 Hmap2 Hz2 Hb2 Him2 Hue2.
  exact (forged_release eb os3 st2 HI2 Hus2 Him2 Hue2 Hb2 Hmap2 Hz2).
Qed.

(** A 16-byte block, then a 5000-byte object at 0x20000; the caller fills
    the first words of its object; the object is released. *)
Definition forged_run1 : outcome Z :=
  xxmalloc demo_emergency_block (os_at 0x10000) 16 initial_state.
Definition forged_run2 : outcome Z :=
  xxmalloc demo_emergency_block (os_at 0x20000) 5000 (state_of forged_run1).
Definition forged_run3 : outcome unit :=
  forge_header (state_of forged_run2).
Definition forged_run4 : outcome unit :=
  xxfree 0x20000 (state_of forged_run3).
Definition forged_run5 : outcome Z :=
  xxmalloc demo_emergency_block os_fail 16 (state_of forged_run4).



(** C2, at the failing input: with a Page Source that fails,
    [xxmalloc(4096)] hands [MAP_FAILED], which is not NULL, back to the
    caller with the state untouched (no emergency flag, no exit); on the
    size-class path the failed mapping is written through instead of being
    tested, so [xxmalloc(16)] ends in an invalid access. *)
Theorem failed_mapping_not_reported :
  xxmalloc demo_emergency_block os_fail 4096 initial_state
    = Returns MAP_FAILED initial_state /\
  MAP_FAILED <> NULL /\
  xxmalloc demo_emergency_block os_fail 16 initial_state = Crashes.
Proof.
  split; [|split].
  - rewrite xxmalloc_large by (reflexivity || lia). reflexivity.
  - unfold MAP_FAILED, NULL. pow_consts. lia.
  - apply (xxmalloc_small_mmap_fails _ _ _ _ 0%nat NULL);
      first [reflexivity | lia | apply user_space_empty | by left].
Qed.

(** C4 as stated fails at 2049: the request is rounded to one page; the
    last byte mapped is at offset 4095 of the region. *)
Lemma allocate_2049_maps_one_page :
  ROUND_UP 2049 PAGE_SIZE = 4096 /\
  value_of (xxmalloc demo_emergency_block (os_at 0x10000) 2049 initial_state)
    = Some 0x10000 /\
  heap (state_of (xxmalloc demo_emergency_block (os_at 0x10000) 2049 initial_state))
    !! (0x10000 + 4095) = Some x00 /\
  heap (state_of (xxmalloc demo_emergency_block (os_at 0x10000) 2049 initial_state))
    !! (0x10000 + 4096) = None.
Proof. vm_compute. repeat split; reflexivity. Qed.

(** C4, as the code has it: a request above 2048 that the Page Source
    serves is rounded up to the next multiple of the page size; that many
    bytes are mapped as one zero-filled region and its page-aligned base is
    returned, so at least [n] bytes are backed; 2049 is rounded to one page
    of 4096 bytes. *)
Theorem large_request_maps_whole_pages eb os n st :
  in_malloc st = false -> use_emergency_block st = false ->
  2048 < n < 2 ^ 64 ->
  let len := ROUND_UP n PAGE_SIZE in
  fresh_region (heap st) (os len) len ->
  exists st',
    xxmalloc eb os n st = Returns (os len) st' /\
    len mod PAGE_SIZE = 0 /\ n <= len < n + PAGE_SIZE /\
    os len mod PAGE_SIZE = 0 /\
    heap st' = Mem.map_zero (heap st) (os len) len /\
    Mem.mapped (heap st') (os len) n /\
    blockPtrs st' = blockPtrs st /\
    ROUND_UP 2049 PAGE_SIZE = PAGE_SIZE.
Proof.
  intros Him Hue Hn len (Ha & H0 & Hlen & H1 & Hfresh).
  destruct (ROUND_UP_page n ltac:(lia) Hlen) as [Hm Hr]. fold len in Hm, Hr.
  rewrite xxmalloc_large by (done || lia). cbv zeta. fold len.
  replace (os len =? MAP_FAILED) with false
    by (symmetry; apply Z.eqb_neq; unfold MAP_FAILED; pow_consts; lia).
  eexists. split; [reflexivity|]. split; [done|]. split; [done|]. split; [done|].
  split; [reflexivity|]. split.
  - cbn [set_heap heap]. intros x Hx. apply Mem.map_zero_mapped. lia.
  - split; reflexivity.
Qed.

Lemma large_request_maps_whole_pages_witness :
  exists st',
    xxmalloc demo_emergency_block (os_at 0x20000) 5000 initial_state
      = Returns 0x20000 st' /\
    8192 mod PAGE_SIZE = 0 /\ 5000 <= 8192 < 5000 + PAGE_SIZE /\
    0x20000 mod PAGE_SIZE = 0 /\
    heap st' = Mem.map_zero ∅ 0x20000 8192 /\
    Mem.mapped (heap st') 0x20000 5000 /\
    blockPtrs st' = blockPtrs initial_state /\
    ROUND_UP 2049 PAGE_SIZE = PAGE_SIZE.
Proof.
  apply (large_request_maps_whole_pages demo_emergency_block (os_at 0x20000) 5000
           initial_state).
  - reflexivity.
  - reflexivity.
  - pow_consts. lia.
  - apply fresh_region_empty; [reflexivity|reflexivity|reflexivity|vm_compute; discriminate].
Defined.

(** Facts about [demo_state], by evaluation. *)
Lemma demo_small_user : 0 < 0x10900 < 2 ^ 63.
Proof. pow_consts. lia. Qed.

Lemma demo_large_user : 0 < 0x20234 < 2 ^ 63.
Proof. pow_consts. lia. Qed.

Lemma zero_not_MAGIC : 0 <> MAGIC.
Proof. discriminate. Qed.

Lemma demo_state_facts :
  Mem.load 4 (heap demo_state) (Header_magicNum (0x10900 - 0x10900 mod PAGE_SIZE))
    = Some MAGIC /\
  Mem.load 8 (heap demo_state) (Header_size (0x10900 - 0x10900 mod PAGE_SIZE))
    = Some 2048 /\
  Mem.load 8 (heap demo_state) (Header_freelist (0x10900 - 0x10900 mod PAGE_SIZE))
    = Some 0 /\
  Mem.load 8 (heap demo_state) (0x10900 - 0x10900 mod 2048) = Some 0 /\
  Mem.load 4 (heap demo_state) (Header_magicNum (0x20234 - 0x20234 mod PAGE_SIZE))
    = Some 0.
Proof. vm_compute. repeat split; reflexivity. Qed.

(** C7: [xxmalloc_usable_size] returns 0 for NULL; for a pointer whose
    page carries the validity marker it returns that page's [size] field;
    for a pointer whose page does not carry it, the 4096-byte fallback. *)
Theorem usable_size_cases st :
  xxmalloc_usable_size NULL st = Returns 0 st /\
  forall ptr v, 0 < ptr < 2 ^ 63 ->
    Mem.load 4 (heap st) (Header_magicNum (ptr - ptr mod PAGE_SIZE)) = Some v ->
    (v = MAGIC -> forall sz,
       Mem.load 8 (heap st) (Header_size (ptr - ptr mod PAGE_SIZE)) = Some sz ->
       xxmalloc_usable_size ptr st = Returns sz st) /\
    (v <> MAGIC -> xxmalloc_usable_size ptr st = Returns PAGE_SIZE st).
Proof.
  split; [apply usable_size_null|]. intros ptr v Hp Hv. split.
  - intros -> sz Hs. by apply usable_size_marked.
  - intros Hne. by eapply usable_size_unmarked.
Qed.

Lemma usable_size_cases_witness :
  xxmalloc_usable_size 0x10900 demo_state = Returns 2048 demo_state /\
  xxmalloc_usable_size 0x20234 demo_state = Returns PAGE_SIZE demo_state.
Proof.
  pose proof demo_state_facts as (F1 & F2 & _ & _ & F5).
  split.
  - exact (proj1 (proj2 (usable_size_cases demo_state) 0x10900 MAGIC
                    demo_small_user F1) eq_refl 2048 F2).
  - exact (proj2 (proj2 (usable_size_cases demo_state) 0x20234 0
                    demo_large_user F5) zero_not_MAGIC).
Defined.

(** C8: [xxfree] changes nothing when its argument is NULL or when the page
    of the pointer does not carry the validity marker; when the marker is
    there, the start of the pointer's block (the pointer rounded down to a
    multiple of the page's [size]) becomes the head of the page's freelist,
    with the old head as its successor, and nothing else changes. *)
Theorem xxfree_cases st :
  xxfree NULL st = Returns tt st /\
  forall ptr v, 0 < ptr < 2 ^ 63 ->
    let hdr := ptr - ptr mod PAGE_SIZE in
    Mem.load 4 (heap st) (Header_magicNum hdr) = Some v ->
    (v <> MAGIC -> xxfree ptr st = Returns tt st) /\
    (v = MAGIC -> forall sz fl,
       Mem.load 8 (heap st) (Header_size hdr) = Some sz -> sz <> 0 ->
       Mem.load 8 (heap st) (Header_freelist hdr) = Some fl ->
       let start := ptr - ptr mod sz in
       Mem.mapped (heap st) start 8 ->
       exists st',
         xxfree ptr st = Returns tt st' /\
         in_malloc st' = in_malloc st /\
         use_emergency_block st' = use_emergency_block st /\
         blockPtrs st' = blockPtrs st /\ p st' = p st /\ offset st' = offset st /\
         Mem.load 8 (heap st') (Header_freelist hdr) = Some start /\
         (start + 8 <= Header_freelist hdr \/ Header_freelist hdr + 8 <= start ->
          Mem.load 8 (heap st') (Node_next start) = Some fl) /\
         forall x, ~ (start <= x < start + 8) ->
                   ~ (Header_freelist hdr <= x < Header_freelist hdr + 8) ->
                   heap st' !! x = heap st !! x).
Proof.
  split; [apply xxfree_null|]. intros ptr v Hp hdr Hv. split.
  - intros Hne. by eapply xxfree_unmarked.
  - intros -> sz fl Hsz Hnz Hfl start Hmap.
    destruct (xxfree_marked st ptr sz fl Hp Hv Hsz Hnz Hfl Hmap)
      as (m1 & m' & Hs1 & Hs2 & Hfree).
    fold hdr in Hs2. fold start in Hs1, Hs2. unfold Node_next in *.
    pose proof (load64_range _ _ _ Hsz) as Hszr.
    assert (Hstart : 0 <= start < 2 ^ 64).
    { subst start. pose proof (Z.mod_pos_bound ptr sz ltac:(lia)).
      pose proof (Z.mod_le ptr sz ltac:(lia) ltac:(lia)). pow_consts. lia. }
    exists (set_heap m' st). split; [done|]. do 5 (split; [done|]).
    cbn [set_heap heap]. split; [by apply (load64_store64 _ _ _ _ Hs2)|]. split.
    + intros Hd. rewrite (Mem.load_store_ne 8 8 _ _ _ _ _ Hs2) by lia.
      apply (load64_store64 _ _ _ _ Hs1). by eapply load64_range.
    + intros x Hx1 Hx2.
      rewrite (Mem.lookup_store_out _ _ _ _ _ x Hs2) by lia.
      apply (Mem.lookup_store_out _ _ _ _ _ x Hs1). lia.
Qed.

Lemma xxfree_cases_witness :
  xxfree 0x20234 demo_state = Returns tt demo_state /\
  exists st',
    xxfree 0x10900 demo_state = Returns tt st' /\
    blockPtrs st' = blockPtrs demo_state /\
    Mem.load 8 (heap st') (Header_freelist 0x10000) = Some 0x10800 /\
    Mem.load 8 (heap st') (Node_next 0x10800) = Some 0.
Proof.
  pose proof demo_state_facts as (F1 & F2 & F3 & F4 & F5).
  split.
  - exact (proj1 (proj2 (xxfree_cases demo_state) 0x20234 0
                    demo_large_user F5) zero_not_MAGIC).
  - pose proof (proj2 (proj2 (xxfree_cases demo_state) 0x10900 MAGIC
                         demo_small_user F1)
                  eq_refl 2048 0 F2 ltac:(clear; lia) F3
                  (load64_mapped _ _ _ F4)) as H.
    destruct H as (st' & H1 & _ & _ & H4 & _ & _ & H7 & H8 & _).
    exists st'. split; [exact H1|]. split; [exact H4|]. split; [exact H7|].
    apply H8. right. clear. mlia.
Defined.

(** C10: while [use_emergency_block] is set, every call of [xxmalloc] with
    a nonzero size, also one larger than the 1024 bytes of the buffer,
    returns the address of the static [emergency_block], and the state,
    with the table and every page, is left as it was. *)
Theorem emergency_mode_returns_static_buffer eb os n st :
  use_emergency_block st = true -> n <> 0 ->
  xxmalloc eb os n st = Returns eb st.
Proof. intros Hue Hn. by apply xxmalloc_emergency. Qed.

Lemma emergency_mode_returns_static_buffer_witness :
  xxmalloc demo_emergency_block os_fail 5000
    (mkState true true (blockPtrs demo_state) 0 0 (heap demo_state))
  = Returns demo_emergency_block
      (mkState true true (blockPtrs demo_state) 0 0 (heap demo_state)).
Proof.
  apply emergency_mode_returns_static_buffer.
  - reflexivity.
  - lia.
Defined.


(** * Further properties of the code *)

(** ** The rounding macros *)

(** X1: [ROUND_UP(x,y)] is the least multiple of [y] that is not below [x], as
    long as that multiple fits the 64-bit type. *)
Theorem ROUND_UP_least_multiple x y :
  0 < y -> 0 <= x -> x + y <= 2 ^ 64 ->
  ROUND_UP x y mod y = 0 /\ x <= ROUND_UP x y < x + y /\
  forall z, z mod y = 0 -> x <= z -> ROUND_UP x y <= z.
Proof.
  intros Hy Hx Hfit. unfold ROUND_UP, to_size_t.
  pose proof (Z.mod_pos_bound x y Hy) as Hm.
  pose proof (Z.div_mod x y ltac:(lia)) as Hd.
  destruct (Z.eqb_spec (x mod y) 0) as [E|E].
  - split; [done|]. split; [lia|]. intros z _ Hz. done.
  - rewrite (Z.mod_small (x + (y - x mod y))) by (pow_consts; lia).
    assert (Er : x + (y - x mod y) = (x / y + 1) * y) by lia.
    split; [rewrite Er; apply Z.mod_mul; lia|]. split; [lia|].
    intros z Hz Hxz. apply Z.mod_divide in Hz as [q ->]; [|lia].
    rewrite Er. assert (x / y < q) by nia. nia.
Qed.

Lemma ROUND_UP_least_multiple_witness :
  ROUND_UP 3000 PAGE_SIZE mod PAGE_SIZE = 0 /\
  3000 <= ROUND_UP 3000 PAGE_SIZE < 3000 + PAGE_SIZE /\
  forall z, z mod PAGE_SIZE = 0 -> 3000 <= z -> ROUND_UP 3000 PAGE_SIZE <= z.
Proof.
  apply (ROUND_UP_least_multiple 3000 PAGE_SIZE); [reflexivity|discriminate|].
  vm_compute. discriminate.
Defined.

(** X2: [ROUND_DOWN(x,y)] at an unsigned type is the greatest multiple of [y]
    that is not above [x]. *)
Theorem ROUND_DOWN_greatest_multiple x y :
  0 < y -> 0 <= x < 2 ^ 64 ->
  ROUND_DOWN x y mod y = 0 /\ ROUND_DOWN x y <= x < ROUND_DOWN x y + y /\
  forall z, z mod y = 0 -> z <= x -> z <= ROUND_DOWN x y.
Proof.
  intros Hy Hx. unfold ROUND_DOWN, to_size_t.
  pose proof (Z.mod_pos_bound x y Hy) as Hm.
  pose proof (Z.div_mod x y ltac:(lia)) as Hd.
  pose proof (Z.mod_le x y ltac:(lia) Hy) as Hle.
  rewrite (Z.mod_small (x - x mod y)) by (pow_consts; lia).
  assert (Er : x - x mod y = (x / y) * y) by lia.
  split; [rewrite Er; apply Z.mod_mul; lia|]. split; [lia|].
  intros z Hz Hzx. apply Z.mod_divide in Hz as [q ->]; [|lia].
  rewrite Er. assert (q <= x / y) by nia. nia.
Qed.

Lemma ROUND_DOWN_greatest_multiple_witness :
  ROUND_DOWN 0x10900 2048 mod 2048 = 0 /\
  ROUND_DOWN 0x10900 2048 <= 0x10900 < ROUND_DOWN 0x10900 2048 + 2048 /\
  forall z, z mod 2048 = 0 -> z <= 0x10900 -> z <= ROUND_DOWN 0x10900 2048.
Proof.
  apply (ROUND_DOWN_greatest_multiple 0x10900 2048); [reflexivity|].
  split; [discriminate|reflexivity].
Defined.

(** X3: At the signed type [intptr_t] the remainder truncates toward zero: for
    a pointer in the upper half of the address space that is not page
    aligned, the header address that [xxmalloc_usable_size] and [xxfree]
    compute is the base of the page after the pointer's own. *)
Theorem page_of_upper_half ptr :
  2 ^ 63 <= ptr < 2 ^ 64 -> ptr mod PAGE_SIZE <> 0 ->
  page_of ptr = (ptr - ptr mod PAGE_SIZE + PAGE_SIZE) mod 2 ^ 64 /\
  (ptr < 2 ^ 64 - PAGE_SIZE -> ptr < page_of ptr).
Proof.
  intros Hp Hna. unfold page_of, ROUND_DOWN_intptr, to_intptr, to_size_t.
  rewrite (Z.mod_small ptr) by lia.
  replace (ptr <? 2 ^ 63) with false by (symmetry; apply Z.ltb_ge; lia).
  assert (Hrem : Z.rem (ptr - 2 ^ 64) PAGE_SIZE = ptr mod PAGE_SIZE - PAGE_SIZE).
  { replace (ptr - 2 ^ 64) with (- (2 ^ 64 - ptr)) by lia.
    rewrite Z.rem_opp_l by (unfold PAGE_SIZE; lia).
    rewrite Z.rem_mod_nonneg by (unfold PAGE_SIZE; pow_consts; lia).
    unfold PAGE_SIZE in *. pow_consts. Z.div_mod_to_equations. lia. }
  rewrite Hrem.
  replace (ptr - 2 ^ 64 - (ptr mod PAGE_SIZE - PAGE_SIZE))
    with (ptr - ptr mod PAGE_SIZE + PAGE_SIZE + (-1) * 2 ^ 64) by lia.
  rewrite Z.mod_add by (pow_consts; lia). split; [done|].
  intros Hlt. rewrite Z.mod_small; unfold PAGE_SIZE in *; pow_consts;
    Z.div_mod_to_equations; lia.
Qed.

Lemma page_of_upper_half_witness :
  page_of (2 ^ 63 + 8) = (2 ^ 63 + 8 - (2 ^ 63 + 8) mod PAGE_SIZE + PAGE_SIZE) mod 2 ^ 64 /\
  (2 ^ 63 + 8 < 2 ^ 64 - PAGE_SIZE -> 2 ^ 63 + 8 < page_of (2 ^ 63 + 8)).
Proof.
  apply (page_of_upper_half (2 ^ 63 + 8)); [split; [discriminate|reflexivity]|].
  vm_compute. discriminate.
Defined.

(** ** Size classes *)

(** X4: The table index of lines 93-103 is [ceil(log2(max(16,n))) - 4]: it
    never leaves the eight entries of [blockPtrs], and a larger request never
    gets a smaller class. *)
Theorem class_index_in_table n :
  1 <= n <= 2048 ->
  0 <= class_index n < 8 /\
  class_index n = Z.log2_up (Z.max 16 n) - 4 /\
  forall m, n <= m <= 2048 -> class_index n <= class_index m.
Proof.
  intros Hn.
  assert (G : forall k, 1 <= k <= 2048 ->
            class_index k = Z.log2_up (Z.max 16 k) - 4 /\ 0 <= class_index k < 8).
  { intros k Hk. destruct (class_of_request k Hk) as (i & Hi & Hidx & _).
    unfold class_index. split; [|lia].
    rewrite clamp_max, class_log2_log2_up by lia. reflexivity. }
  destruct (G n Hn) as [E Hr]. split; [done|]. split; [done|].
  intros m Hm. destruct (G m ltac:(lia)) as [E' _]. rewrite E, E'.
  apply Z.sub_le_mono_r, Z.log2_up_le_mono. lia.
Qed.

Lemma class_index_in_table_witness :
  0 <= class_index 100 < 8 /\
  class_index 100 = Z.log2_up (Z.max 16 100) - 4 /\
  forall m, 100 <= m <= 2048 -> class_index 100 <= class_index m.
Proof. apply (class_index_in_table 100). lia. Defined.

(** ** The recursion guard *)

(** X5: A call that finds [in_malloc] set (and the emergency flag clear) raises
    the emergency flag and never returns; it touches nothing else, and from
    the state it leaves every nonzero request is answered with the static
    buffer. *)
Theorem nested_call_enters_emergency_mode eb os n st :
  in_malloc st = true -> use_emergency_block st = false -> n <> 0 ->
  exists st',
    xxmalloc eb os n st = Hangs st' /\
    use_emergency_block st' = true /\ in_malloc st' = true /\
    blockPtrs st' = blockPtrs st /\ p st' = p st /\ offset st' = offset st /\
    heap st' = heap st /\
    forall os' m, m <> 0 -> xxmalloc eb os' m st' = Returns eb st'.
Proof.
  intros Him Hue Hn. eexists. split; [by apply xxmalloc_nested|].
  do 6 (split; [reflexivity|]). intros os' m Hm. by apply xxmalloc_emergency.
Qed.

Lemma nested_call_enters_emergency_mode_witness :
  exists st',
    xxmalloc demo_emergency_block os_fail 24
      (mkState true false (replicate 8 NULL) NULL 0 ∅) = Hangs st' /\
    use_emergency_block st' = true /\ in_malloc st' = true /\
    blockPtrs st' = replicate 8 NULL /\ p st' = NULL /\ offset st' = 0 /\
    heap st' = ∅ /\
    forall os' m, m <> 0 -> xxmalloc demo_emergency_block os' m st' = Returns demo_emergency_block st'.
Proof.
  apply (nested_call_enters_emergency_mode demo_emergency_block os_fail 24
           (mkState true false (replicate 8 NULL) NULL 0 ∅));
    [reflexivity|reflexivity|discriminate].
Defined.

(** ** Requests close to [SIZE_MAX] *)

Lemma set_heap_same st : set_heap (heap st) st = st.
Proof. by destruct st. Qed.

(** X6: Rounding a size within a page of [2^64] up to whole pages wraps to 0:
    the Page Source is asked for zero bytes, whatever it answers is returned
    as the result, and nothing is mapped. *)
Theorem huge_request_asks_for_zero_bytes eb os n st :
  in_malloc st = false -> use_emergency_block st = false ->
  2 ^ 64 - PAGE_SIZE < n < 2 ^ 64 ->
  ROUND_UP n PAGE_SIZE = 0 /\ xxmalloc eb os n st = Returns (os 0) st.
Proof.
  intros Him Hue Hn.
  assert (E : ROUND_UP n PAGE_SIZE = 0).
  { unfold ROUND_UP, to_size_t.
    destruct (Z.eqb_spec (n mod PAGE_SIZE) 0) as [E|E]; [exfalso; mlia|].
    replace (n + (PAGE_SIZE - n mod PAGE_SIZE)) with (2 ^ 64) by mlia.
    apply Z.mod_same. pow_consts. lia. }
  split; [done|].
  rewrite xxmalloc_large by (try done; unfold PAGE_SIZE in Hn; pow_consts; lia).
  cbv zeta. rewrite E, Mem.map_zero_empty, set_heap_same.
  by destruct (os 0 =? MAP_FAILED).
Qed.

Lemma huge_request_asks_for_zero_bytes_witness :
  ROUND_UP (2 ^ 64 - 1) PAGE_SIZE = 0 /\
  xxmalloc demo_emergency_block os_fail (2 ^ 64 - 1) initial_state
    = Returns (os_fail 0) initial_state.
Proof.
  apply (huge_request_asks_for_zero_bytes demo_emergency_block os_fail (2 ^ 64 - 1));
    [reflexivity|reflexivity|]. split; reflexivity.
Defined.

(** ** How a call of [xxmalloc] can end *)

(** X7: From a well-formed heap, whatever the Page Source answers: [xxmalloc]
    hangs only on a nested call, ends in an invalid access only when a
    size-class request needs a page (its table entry is NULL or the current
    page's freelist is empty) and the Page Source fails, and never
    reaches the [perror]/[exit(2)] of lines 144-148: the test
    [p == MAP_FAILED] looks at a block popped from a freelist.  Every return
    on the regular paths leaves [in_malloc] clear. *)
Theorem xxmalloc_outcomes eb os n st :
  Inv st -> user_space (heap st) -> page_source_ok (heap st) os ->
  0 <= n < 2 ^ 64 ->
  match xxmalloc eb os n st with
  | Returns _ st' =>
      n <> 0 -> use_emergency_block st = false -> in_malloc st' = false
  | Hangs _ => in_malloc st = true /\ use_emergency_block st = false /\ n <> 0
  | Crashes =>
      in_malloc st = false /\ use_emergency_block st = false /\
      1 <= n <= 2048 /\ os PAGE_SIZE = MAP_FAILED /\
      exists b, blockPtrs st !! Z.to_nat (class_index n) = Some b /\
                (b = NULL \/ Mem.load 8 (heap st) (Header_freelist b) = Some NULL)
  | Exits _ _ => False
  | OutOfFuel => False
  end.
Proof.
  intros HI Hus Hos Hn.
  destruct (decide (n = 0)) as [->|Hn0].
  { by rewrite xxmalloc_zero. }
  destruct (use_emergency_block st) eqn:Hue.
  { by rewrite xxmalloc_emergency. }
  destruct (in_malloc st) eqn:Him.
  { by rewrite xxmalloc_nested. }
  destruct (decide (2048 < n)) as [Hbig|Hsmall].
  { rewrite xxmalloc_large by done. cbv zeta.
    by destruct (os (ROUND_UP n PAGE_SIZE) =? MAP_FAILED). }
  assert (Hn' : 1 <= n <= 2048) by lia.
  destruct (class_of_request n Hn') as (i & Hi & Hidx & _).
  pose proof HI as [Hlen Hpages].
  destruct (lookup_lt_is_Some_2 (blockPtrs st) i ltac:(lia)) as [b Hb].
  assert (Hcase : (b = NULL \/ Mem.load 8 (heap st) (Header_freelist b) = Some NULL) \/
                  (b <> NULL /\ exists f, Mem.load 8 (heap st) (Header_freelist b) = Some f /\ f <> NULL)).
  { destruct (decide (b = NULL)) as [->|Hb0]; [by left; left|].
    destruct (Hpages i b (owned_top _ _ _ Hb Hb0)) as (_ & _ & _ & Hmap & _).
    destruct (Mem.load_is_Some 8 (heap st) (Header_freelist b)) as [f Hf].
    { intros x Hx. apply Hmap. mlia. }
    destruct (decide (f = NULL)) as [->|Hf0]; [by left; right|].
    right. split; [done|]. by exists f. }
  destruct Hcase as [Hneed|(Hb0 & f & Hf & Hf0)].
  - destruct (Hos PAGE_SIZE) as [Hfail|Hfresh].
    { rewrite (xxmalloc_small_mmap_fails eb os n st i b) by done.
      do 4 (split; [done|]). exists b. split; [|done].
      unfold class_index. by rewrite Hidx, Nat2Z.id. }
    pose proof (xxmalloc_fresh eb os n st i b _ HI Him Hue Hn' Hidx Hb Hneed eq_refl Hfresh) as H.
    apply wp_returns in H as (q & st1 & -> & _ & Him1 & _). done.
  - pose proof (xxmalloc_reuse eb os n st i b f HI Him Hue Hn' Hidx Hb Hb0 Hf Hf0) as H.
    apply wp_returns in H as (q & st1 & -> & _ & _ & Him1 & _). done.
Qed.

Lemma xxmalloc_outcomes_witness :
  match xxmalloc demo_emergency_block os_fail 16 initial_state with
  | Returns _ st' =>
      16 <> 0 -> use_emergency_block initial_state = false -> in_malloc st' = false
  | Hangs _ =>
      in_malloc initial_state = true /\ use_emergency_block initial_state = false /\ 16 <> 0
  | Crashes =>
      in_malloc initial_state = false /\ use_emergency_block initial_state = false /\
      1 <= 16 <= 2048 /\ os_fail PAGE_SIZE = MAP_FAILED /\
      exists b, blockPtrs initial_state !! Z.to_nat (class_index 16) = Some b /\
                (b = NULL \/
                 Mem.load 8 (heap initial_state) (Header_freelist b) = Some NULL)
  | Exits _ _ => False
  | OutOfFuel => False
  end.
Proof.
  apply (xxmalloc_outcomes demo_emergency_block os_fail 16 initial_state).
  - exact Inv_initial.
  - exact user_space_empty.
  - intros len. by left.
  - split; [discriminate|reflexivity].
Defined.

(** ** Large objects after allocation *)

(** X8: A large object carries no header: for every address inside the region
    that [xxmalloc] mapped for it, [xxmalloc_usable_size] answers one page,
    however long the region is, and [xxfree] returns without changing
    anything, so the region stays mapped. *)
Theorem large_object_not_recognised eb os n st :
  in_malloc st = false -> use_emergency_block st = false ->
  2048 < n < 2 ^ 64 ->
  let len := ROUND_UP n PAGE_SIZE in
  fresh_region (heap st) (os len) len ->
  exists st1,
    xxmalloc eb os n st = Returns (os len) st1 /\
    forall q, os len <= q < os len + len ->
      xxmalloc_usable_size q st1 = Returns PAGE_SIZE st1 /\
      xxfree q st1 = Returns tt st1 /\
      is_Some (heap st1 !! q).
Proof.
  intros Him Hue Hn len (Ha & H0 & Hlen & H1 & Hfresh).
  destruct (ROUND_UP_page n ltac:(lia) Hlen) as [Hm Hr]. fold len in Hm, Hr.
  rewrite xxmalloc_large by (done || lia). cbv zeta. fold len.
  replace (os len =? MAP_FAILED) with false
    by (symmetry; apply Z.eqb_neq; unfold MAP_FAILED; pow_consts; lia).
  eexists. split; [reflexivity|]. intros q Hq.
  assert (Hu : 0 < q < 2 ^ 63) by lia.
  assert (Hz : Mem.load 4 (heap (set_heap (Mem.map_zero (heap st) (os len) len) st))
                 (q - q mod PAGE_SIZE) = Some 0).
  { cbn [set_heap heap]. apply Mem.load_zero. intros x Hx.
    rewrite Mem.lookup_map_zero. rewrite decide_True; [done|].
    change (Z.of_nat 4) with 4 in Hx. clear - Ha Hm Hq Hx H0. mlia. }
  split; [by apply (usable_size_unmarked _ q 0 Hu Hz)|].
  split; [by apply (xxfree_unmarked _ q 0 Hu Hz)|].
  cbn [set_heap heap]. by apply Mem.map_zero_mapped.
Qed.

Lemma large_object_not_recognised_witness :
  exists st1,
    xxmalloc demo_emergency_block (os_at 0x20000) 10000 initial_state
      = Returns 0x20000 st1 /\
    forall q, 0x20000 <= q < 0x20000 + 12288 ->
      xxmalloc_usable_size q st1 = Returns PAGE_SIZE st1 /\
      xxfree q st1 = Returns tt st1 /\
      is_Some (heap st1 !! q).
Proof.
  apply (large_object_not_recognised demo_emergency_block (os_at 0x20000) 10000
           initial_state).
  - reflexivity.
  - reflexivity.
  - pow_consts. lia.
  - apply fresh_region_empty; [reflexivity|reflexivity|reflexivity|vm_compute; discriminate].
Defined.

(** ** Freelists as lists *)

Lemma list_at_elem_linked m h l x :
  list_at m h l -> x ∈ l -> linked m Node_next h x.
Proof.
  revert h. induction l as [|y l IH]; intros h; cbn [list_at].
  - intros _ Hx. by apply elem_of_nil in Hx.
  - intros (-> & Hy & n & Hn & Hl) Hx. apply elem_of_cons in Hx as [->|Hx].
    + apply linked_here.
    + eapply linked_next; [done|done|by apply IH].
Qed.

Lemma list_at_nonnull m h l x : list_at m h l -> x ∈ l -> x <> NULL.
Proof.
  revert h. induction l as [|y l IH]; intros h; cbn [list_at].
  - intros _ Hx. by apply elem_of_nil in Hx.
  - intros (-> & Hy & n & Hn & Hl) Hx. apply elem_of_cons in Hx as [->|Hx]; [done|].
    by eapply IH.
Qed.

Lemma list_at_det m h l1 l2 : list_at m h l1 -> list_at m h l2 -> l1 = l2.
Proof.
  revert h l2. induction l1 as [|x l1 IH]; intros h [|y l2]; cbn [list_at].
  - done.
  - intros -> (-> & Hy & _). done.
  - intros (-> & Hx & _) ->. done.
  - intros (-> & Hx & n & Hn & Hl) (<- & _ & n' & Hn' & Hl').
    rewrite Hn in Hn'. injection Hn' as <-. f_equal. by eapply IH.
Qed.

Lemma list_at_suffix m h l1 x l2 :
  list_at m h (l1 ++ x :: l2) -> list_at m x (x :: l2).
Proof.
  revert h. induction l1 as [|y l1 IH]; intros h; cbn [app list_at].
  - intros (-> & Hx & Hrest). done.
  - intros (-> & Hy & n & Hn & Hl). by eapply IH.
Qed.

(** A NULL-terminated list has no repetition: its head is not met again. *)
Lemma list_at_head_fresh m h x l : list_at m h (x :: l) -> x ∉ l.
Proof.
  intros Hl Hin. apply list_elem_of_split in Hin as (l1 & l2 & ->).
  pose proof Hl as (-> & _).
  pose proof (list_at_suffix m x (x :: l1) x l2 Hl) as Hs.
  pose proof (list_at_det _ _ _ _ Hl Hs) as E.
  apply (f_equal length) in E. cbn [length] in E. rewrite length_app in E.
  cbn [length] in E. lia.
Qed.

Lemma walk_length fuel m h l : walk fuel m h = Some l -> (length l <= fuel)%nat.
Proof.
  revert h l. induction fuel as [|fuel IH]; intros h l; cbn [walk].
  - destruct (h =? NULL); [|done]. intros [= <-]. done.
  - destruct (h =? NULL); [intros [= <-]; cbn; lia|].
    destruct (Mem.load 8 m (Node_next h)) as [n|]; [|done].
    destruct (walk fuel m n) as [l'|] eqn:Ew; [|done].
    intros [= <-]. cbn [length]. apply IH in Ew. lia.
Qed.

(** The [j]-th block of a page, counted from the head of the fresh
    freelist, is the [j+1]-th from the end of the page. *)
Lemma page_blocks_lookup (i : nat) B (j : nat) :
  (i < 8)%nat ->
  let s := class_size (Z.of_nat i) in
  (j < length (page_blocks B s))%nat ->
  page_blocks B s !! j = Some (B + PAGE_SIZE - (Z.of_nat j + 1) * s).
Proof.
  intros Hi s Hj.
  destruct (class_facts i Hi) as (Hs & _ & _ & _ & _ & Hk). fold s in Hs, Hk.
  pose proof Hj as Hj'. rewrite length_page_blocks in Hj'.
  destruct (lookup_lt_is_Some_2 _ _ Hj) as [y Hy]. rewrite Hy. f_equal.
  apply (nth_lookup_Some _ _ (B + first_block s + Z.of_nat 0 * s)) in Hy. subst y.
  unfold page_blocks.
  revert Hj' Hk. generalize (Z.to_nat ((PAGE_SIZE - first_block s) / s)). intros k Hj' Hk.
  rewrite rev_nth by (by rewrite length_map, length_seq).
  rewrite length_map, length_seq.
  rewrite (map_nth (fun j0 : nat => B + first_block s + Z.of_nat j0 * s)).
  rewrite seq_nth by lia. nia.
Qed.

Section Freelist_order.

Variable emergency_block : Z.

(** The reuse path in terms of the freelist as a list: the head goes out,
    the tail stays. *)
Lemma xxmalloc_pop_list os n st (i : nat) b f x l :
  Inv st -> in_malloc st = false -> use_emergency_block st = false ->
  1 <= n <= 2048 -> class_index n = Z.of_nat i ->
  blockPtrs st !! i = Some b -> b <> NULL ->
  Mem.load 8 (heap st) (Header_freelist b) = Some f ->
  list_at (heap st) f (x :: l) ->
  exists st' f',
    xxmalloc emergency_block os n st = Returns x st' /\
    Inv st' /\ in_malloc st' = false /\ use_emergency_block st' = false /\
    blockPtrs st' = blockPtrs st /\
    Mem.load 8 (heap st') (Header_freelist b) = Some f' /\
    list_at (heap st') f' l /\
    (forall y, is_Some (heap st' !! y) <-> is_Some (heap st !! y)).
Proof.
  intros HI Him Hue Hn Hci Hb Hb0 Hf Hl.
  pose proof Hl as (-> & Hx0 & n0 & Hn0 & Hl').
  pose proof (xxmalloc_reuse emergency_block os n st i b x HI Him Hue Hn Hci Hb Hb0 Hf Hx0) as H.
  apply wp_returns in H as (q & st' & Hrun & -> & HI' & G1 & G2 & G3 & _ & _ & Hg & nx & Hnx & Hst).
  rewrite Hn0 in Hnx. injection Hnx as <-.
  exists st', n0. do 5 (split; [done|]).
  pose proof (owned_top _ _ _ Hb Hb0) as Hown.
  pose proof (owned_lt _ _ _ HI Hown) as Hi.
  destruct HI as [_ Hpages]. destruct (Hpages i b Hown) as (_ & _ & _ & _ & _ & _ & Hfl).
  split; [apply (load64_store64 _ _ _ _ Hst); by eapply load64_range|].
  split.
  - eapply list_at_frame; [exact Hl'|]. intros y Hy.
    assert (Hgy : good_node b (class_size (Z.of_nat i)) y).
    { apply Hfl. split; [by eapply list_at_nonnull|].
      exists x. split; [done|]. eapply linked_next; [done|done|].
      by eapply list_at_elem_linked. }
    pose proof (good_node_bounds i b y Hi Hgy) as Hyb.
    apply (Mem.load_store_ne 8 8 _ _ _ _ _ Hst). mlia.
  - intros y. apply (Mem.store_is_Some_lookup _ _ _ _ _ y Hst).
Qed.

End Freelist_order.


Lemma xxmalloc_times_list eb os n (i : nat) b l : forall st f,
  Inv st -> in_malloc st = false -> use_emergency_block st = false ->
  1 <= n <= 2048 -> class_index n = Z.of_nat i ->
  blockPtrs st !! i = Some b -> b <> NULL ->
  Mem.load 8 (heap st) (Header_freelist b) = Some f ->
  list_at (heap st) f l ->
  exists st',
    xxmalloc_times eb os n (length l) st = Returns l st' /\
    Inv st' /\ in_malloc st' = false /\ use_emergency_block st' = false /\
    blockPtrs st' = blockPtrs st /\
    Mem.load 8 (heap st') (Header_freelist b) = Some NULL /\
    (forall y, is_Some (heap st' !! y) <-> is_Some (heap st !! y)).
Proof.
  induction l as [|x l IH]; intros st f HI Him Hue Hn Hci Hb Hb0 Hf Hl.
  - cbn [list_at] in Hl. subst f. exists st. do 6 (split; [done|]). done.
  - destruct (xxmalloc_pop_list eb os n st i b f x l HI Him Hue Hn Hci Hb Hb0 Hf Hl)
      as (st1 & f1 & Hrun & HI1 & Him1 & Hue1 & Hbp1 & Hf1 & Hl1 & Hdom1).
    destruct (IH st1 f1 HI1 Him1 Hue1 Hn Hci ltac:(by rewrite Hbp1) Hb0 Hf1 Hl1)
      as (st2 & Hrun2 & HI2 & Him2 & Hue2 & Hbp2 & Hf2 & Hdom2).
    exists st2. cbn [length xxmalloc_times]. unfold bind at 1. rewrite Hrun.
    unfold bind at 1. rewrite Hrun2. split; [done|].
    do 3 (split; [done|]). split; [congruence|]. split; [done|].
    intros y. by rewrite Hdom2.
Qed.

(** ** Order of the blocks of a page *)

(** X9: The bootstrap loop leaves the blocks of the new page on the freelist
    from the top of the page downwards: the [j]-th node is [(j+1) * s] bytes
    below the end of the page, and the blocks tile the page from the first
    block offset to its end. *)
Theorem bootstrap_freelist_order os (i : nat) st old :
  (i < 8)%nat -> blockPtrs st !! i = Some old -> 0 <= old < 2 ^ 64 ->
  fresh_region (heap st) (os PAGE_SIZE) PAGE_SIZE ->
  let B := os PAGE_SIZE in
  let s := class_size (Z.of_nat i) in
  exists st' h l,
    new_page os (Z.of_nat i) s st = Returns tt st' /\
    Mem.load 8 (heap st') (Header_freelist B) = Some h /\
    walk (Z.to_nat PAGE_SIZE) (heap st') h = Some l /\
    (forall j : nat, (j < length l)%nat ->
       l !! j = Some (B + PAGE_SIZE - (Z.of_nat j + 1) * s)) /\
    first_block s + Z.of_nat (length l) * s = PAGE_SIZE.
Proof.
  intros Hi Hold Holdr Hfresh B s.
  pose proof (new_page_blocks os i st old B Hi Hold Holdr eq_refl Hfresh) as H.
  cbv zeta in H. fold s in H.
  apply wp_returns in H as ([] & st' & Hrun & _ & _ & _ & _ & _ & _ & _ & _ & _ & _ & h & Hh & Hl & _).
  destruct (class_facts i Hi) as (Hs & _ & _ & _ & _ & Hk). fold s in Hs, Hk.
  exists st', h, (page_blocks B s). do 2 (split; [done|]). split.
  { apply list_at_walk; [done|]. rewrite length_page_blocks.
    clear - Hs Hk. revert Hk. generalize (Z.to_nat ((PAGE_SIZE - first_block s) / s)).
    intros k Hk. apply Nat2Z.inj_le. rewrite Z2Nat.id by (unfold PAGE_SIZE; lia).
    assert (0 <= first_block s).
    { unfold first_block, ROUND_UP, to_size_t. destruct (_ =? 0); [unfold sizeof_Header; lia|].
      apply Z.mod_pos_bound. pow_consts. lia. }
    unfold PAGE_SIZE in *. nia. }
  split; [intros j Hj; by apply page_blocks_lookup|].
  by rewrite length_page_blocks.
Qed.

Lemma bootstrap_freelist_order_witness :
  exists st' h l,
    new_page (os_at 0x10000) (Z.of_nat 6) (class_size (Z.of_nat 6)) initial_state
      = Returns tt st' /\
    Mem.load 8 (heap st') (Header_freelist 0x10000) = Some h /\
    walk (Z.to_nat PAGE_SIZE) (heap st') h = Some l /\
    (forall j : nat, (j < length l)%nat ->
       l !! j = Some (0x10000 + PAGE_SIZE - (Z.of_nat j + 1) * class_size (Z.of_nat 6))) /\
    first_block (class_size (Z.of_nat 6)) + Z.of_nat (length l) * class_size (Z.of_nat 6)
      = PAGE_SIZE.
Proof.
  apply (bootstrap_freelist_order (os_at 0x10000) 6 initial_state NULL).
  - lia.
  - reflexivity.
  - split; [discriminate|reflexivity].
  - apply fresh_region_empty; [reflexivity|reflexivity|reflexivity|vm_compute; discriminate].
Defined.

(** X10: The blocks of a fresh page go out from the top of the page downwards:
    when a class needs a page, the next [k] calls ([k] being the number of
    blocks of a page) return the addresses [(j+1) * s] below the end of the
    new page, [j = 0 .. k-1]; only the first call maps memory, and the page
    is then used up. *)
Theorem fresh_page_served_top_down eb os n st (i : nat) b :
  Inv st -> in_malloc st = false -> use_emergency_block st = false ->
  1 <= n <= 2048 -> class_index n = Z.of_nat i ->
  blockPtrs st !! i = Some b ->
  (b = NULL \/ Mem.load 8 (heap st) (Header_freelist b) = Some NULL) ->
  fresh_region (heap st) (os PAGE_SIZE) PAGE_SIZE ->
  let B := os PAGE_SIZE in
  let s := class_size (Z.of_nat i) in
  let k := Z.to_nat ((PAGE_SIZE - first_block s) / s) in
  exists l st',
    xxmalloc_times eb os n k st = Returns l st' /\
    length l = k /\
    (forall j : nat, (j < k)%nat -> l !! j = Some (B + PAGE_SIZE - (Z.of_nat j + 1) * s)) /\
    blockPtrs st' = <[i := B]> (blockPtrs st) /\
    Mem.load 8 (heap st') (Header_freelist B) = Some NULL /\
    (forall y, y < B \/ B + PAGE_SIZE <= y -> is_Some (heap st' !! y) <-> is_Some (heap st !! y)).
Proof.
  intros HI Him Hue Hn Hci Hb Hneed Hfresh B s k.
  assert (Hi : (i < 8)%nat).
  { destruct (class_of_request n Hn) as (i' & Hi' & Hidx & _).
    unfold class_index in Hci. lia. }
  pose proof (xxmalloc_fresh eb os n st i b B HI Him Hue Hn Hci Hb Hneed eq_refl Hfresh) as H.
  apply wp_returns in H as (q & st1 & Hrun & HI1 & Him1 & Hue1 & Hbp1 & _ & _ & _ & Hout & _
                              & rest & h1 & Hpb & Hh1 & Hl1).
  fold s in Hpb.
  assert (HB1 : blockPtrs st1 !! i = Some B).
  { rewrite Hbp1. apply list_lookup_insert_eq. destruct HI as [-> _]. lia. }
  assert (HB0 : B <> NULL) by (destruct Hfresh as (_ & ? & _); unfold NULL; lia).
  destruct (xxmalloc_times_list eb os n i B rest st1 h1 HI1 Him1 Hue1 Hn Hci HB1 HB0 Hh1 Hl1)
    as (st2 & Hrun2 & _ & _ & _ & Hbp2 & Hf2 & Hdom2).
  assert (Hk : k = S (length rest)).
  { subst k. rewrite <- (length_page_blocks B s), Hpb. reflexivity. }
  exists (q :: rest), st2. rewrite Hk. cbn [xxmalloc_times]. unfold bind at 1. rewrite Hrun.
  unfold bind at 1. rewrite Hrun2. split; [done|]. split; [done|]. split.
  { intros j Hj. rewrite <- Hpb. apply page_blocks_lookup; [done|].
    fold s. rewrite Hpb. cbn [length]. lia. }
  split; [congruence|]. split; [done|].
  intros y Hy. rewrite Hdom2. by rewrite Hout.
Qed.

Lemma fresh_page_served_top_down_witness :
  exists l st',
    xxmalloc_times demo_emergency_block (os_at 0x10000) 1000 3 initial_state
      = Returns l st' /\
    length l = 3%nat /\
    (forall j : nat, (j < 3)%nat -> l !! j = Some (0x10000 + PAGE_SIZE - (Z.of_nat j + 1) * 1024)) /\
    blockPtrs st' = <[6%nat := 0x10000]> (blockPtrs initial_state) /\
    Mem.load 8 (heap st') (Header_freelist 0x10000) = Some NULL /\
    (forall y, y < 0x10000 \/ 0x10000 + PAGE_SIZE <= y ->
       is_Some (heap st' !! y) <-> is_Some (heap initial_state !! y)).
Proof.
  apply (fresh_page_served_top_down demo_emergency_block (os_at 0x10000) 1000
           initial_state 6 NULL).
  - exact Inv_initial.
  - reflexivity.
  - reflexivity.
  - lia.
  - vm_compute. reflexivity.
  - reflexivity.
  - by left.
  - apply fresh_region_empty; [reflexivity|reflexivity|reflexivity|vm_compute; discriminate].
Defined.

(** ** A page with one block handed out *)

(** [xxmalloc(1000)] on an empty heap. *)
Local Notation "'one_page'" :=
  (xxmalloc demo_emergency_block (os_at 0x10000) 1000 initial_state).

Lemma one_page_facts :
  one_page = Returns 0x10C00 (state_of one_page) /\
  Inv (state_of one_page) /\
  in_malloc (state_of one_page) = false /\
  use_emergency_block (state_of one_page) = false /\
  blockPtrs (state_of one_page) !! 6%nat = Some 0x10000 /\
  Mem.load 8 (heap (state_of one_page)) (Header_freelist 0x10000) = Some 0x10800 /\
  walk 2 (heap (state_of one_page)) 0x10800 = Some [0x10800; 0x10400] /\
  fresh_region (heap (state_of one_page)) 0x20000 PAGE_SIZE.
Proof.
  assert (Hfresh : fresh_region ∅ 0x10000 PAGE_SIZE).
  { apply fresh_region_empty; [reflexivity|reflexivity|reflexivity|vm_compute; discriminate]. }
  assert (Hn : 1 <= 1000 <= 2048) by lia.
  pose proof (first_allocation_state demo_emergency_block (os_at 0x10000) 1000 6 0x10000
                [0x10800; 0x10400] Hn eq_refl eq_refl Hfresh eq_refl) as H.
  clear Hfresh Hn. cbv zeta in H.
  pose proof (proj1 H) as Hrun.
  pose proof (proj1 (proj2 H)) as HI.
  pose proof (proj1 (proj2 (proj2 H))) as Him.
  pose proof (proj1 (proj2 (proj2 (proj2 H)))) as Hue.
  pose proof (proj1 (proj2 (proj2 (proj2 (proj2 H))))) as Hbp.
  pose proof (proj1 (proj2 (proj2 (proj2 (proj2 (proj2 H)))))) as Hl.
  pose proof (proj2 (proj2 (proj2 (proj2 (proj2 (proj2 H)))))) as Hout.
  clear H.
  split; [exact Hrun|]. split; [exact HI|]. split; [exact Him|]. split; [exact Hue|].
  split; [exact Hbp|]. split; [exact (proj1 Hl)|].
  split; [exact (list_at_walk _ _ _ 2 (proj2 Hl) (le_n 2))|].
  split; [reflexivity|]. split; [reflexivity|]. split; [reflexivity|].
  split; [vm_compute; discriminate|].
  intros x Hx. apply Hout. clear - Hx. unfold PAGE_SIZE in *. lia.
Qed.

Lemma one_page_owned : owned (state_of one_page) 6 0x10000.
Proof.
  split; [discriminate|]. exists 0x10000.
  split; [exact (proj1 (proj2 (proj2 (proj2 (proj2 one_page_facts)))))|apply linked_here].
Qed.

(** ** The reuse path *)

(** X11: The reuse path takes the head of the current page's freelist and
    leaves the rest of the list as it was, so the block handed out is no
    longer on the freelist: allocation is last in, first out, and maps
    nothing. *)
Theorem allocation_pops_freelist_head eb os n st (i : nat) b f x l fuel :
  Inv st -> in_malloc st = false -> use_emergency_block st = false ->
  1 <= n <= 2048 -> class_index n = Z.of_nat i ->
  blockPtrs st !! i = Some b -> b <> NULL ->
  Mem.load 8 (heap st) (Header_freelist b) = Some f ->
  walk fuel (heap st) f = Some (x :: l) ->
  exists st' f',
    xxmalloc eb os n st = Returns x st' /\
    Mem.load 8 (heap st') (Header_freelist b) = Some f' /\
    walk fuel (heap st') f' = Some l /\ (x ∉ l) /\
    blockPtrs st' = blockPtrs st /\
    (forall y, is_Some (heap st' !! y) <-> is_Some (heap st !! y)).
Proof.
  intros HI Him Hue Hn Hci Hb Hb0 Hf Hw.
  pose proof (walk_length _ _ _ _ Hw) as Hlen. cbn [length] in Hlen.
  apply walk_list_at in Hw.
  destruct (xxmalloc_pop_list eb os n st i b f x l HI Him Hue Hn Hci Hb Hb0 Hf Hw)
    as (st' & f' & Hrun & _ & _ & _ & Hbp & Hf' & Hl' & Hdom).
  exists st', f'. do 2 (split; [done|]). split; [apply list_at_walk; [done|lia]|].
  split; [by eapply list_at_head_fresh|done].
Qed.

Lemma allocation_pops_freelist_head_witness :
  exists st' f',
    xxmalloc demo_emergency_block os_fail 1000 (state_of one_page) = Returns 0x10800 st' /\
    Mem.load 8 (heap st') (Header_freelist 0x10000) = Some f' /\
    walk 2 (heap st') f' = Some [0x10400] /\ (0x10800 ∉ [0x10400]) /\
    blockPtrs st' = blockPtrs (state_of one_page) /\
    (forall y, is_Some (heap st' !! y) <-> is_Some (heap (state_of one_page) !! y)).
Proof.
  pose proof one_page_facts as (_ & HI & Him & Hue & Hb & Hf & Hw & _).
  apply (allocation_pops_freelist_head demo_emergency_block os_fail 1000
           (state_of one_page) 6 0x10000 0x10800 0x10800 [0x10400] 2 HI Him Hue).
  - clear. lia.
  - clear. reflexivity.
  - exact Hb.
  - clear. discriminate.
  - exact Hf.
  - exact Hw.
Defined.

(** ** What [xxfree] can touch *)



(** ** What an allocation leaves alone *)

(** X13: A size-class allocation changes no byte that was mapped before the
    call, apart from the freelist field in the header of the class's current
    page: the contents of every block handed out earlier survive.  It
    changes no table entry but that of its own class. *)
Theorem allocation_keeps_mapped_bytes eb os n st :
  Inv st -> in_malloc st = false -> use_emergency_block st = false ->
  1 <= n <= 2048 ->
  fresh_region (heap st) (os PAGE_SIZE) PAGE_SIZE ->
  exists ptr st' (i : nat) b,
    xxmalloc eb os n st = Returns ptr st' /\
    class_index n = Z.of_nat i /\ blockPtrs st !! i = Some b /\
    (forall x, is_Some (heap st !! x) ->
       ~ Header_freelist b <= x < Header_freelist b + 8 ->
       heap st' !! x = heap st !! x) /\
    (forall j : nat, j <> i -> blockPtrs st' !! j = blockPtrs st !! j).
Proof.
  intros HI Him Hue Hn Hfresh.
  destruct (class_of_request n Hn) as (i & Hi & Hidx & _).
  pose proof HI as [Hlen Hpages].
  destruct (lookup_lt_is_Some_2 (blockPtrs st) i ltac:(lia)) as [b Hb].
  assert (Hcase : (b = NULL \/ Mem.load 8 (heap st) (Header_freelist b) = Some NULL) \/
                  (b <> NULL /\ exists f, Mem.load 8 (heap st) (Header_freelist b) = Some f /\ f <> NULL)).
  { destruct (decide (b = NULL)) as [->|Hb0]; [by left; left|].
    destruct (Hpages i b (owned_top _ _ _ Hb Hb0)) as (_ & _ & _ & Hmap & _).
    destruct (Mem.load_is_Some 8 (heap st) (Header_freelist b)) as [f Hf].
    { intros x Hx. apply Hmap. mlia. }
    destruct (decide (f = NULL)) as [->|Hf0]; [by left; right|].
    right. split; [done|]. by exists f. }
  destruct Hcase as [Hneed|(Hb0 & f & Hf & Hf0)].
  - pose proof (xxmalloc_fresh eb os n st i b _ HI Him Hue Hn Hidx Hb Hneed eq_refl Hfresh) as H.
    apply wp_returns in H as (q & st1 & Hrun & _ & _ & _ & Hbp & _ & _ & _ & Hout & _).
    exists q, st1, i, b. do 3 (split; [done|]). split.
    + intros x Hx _. apply Hout.
      destruct Hfresh as (_ & _ & _ & _ & Hun).
      destruct (decide (os PAGE_SIZE <= x < os PAGE_SIZE + PAGE_SIZE)) as [Hin|Hin]; [|lia].
      rewrite (Hun x Hin) in Hx. by destruct Hx.
    + intros j Hj. rewrite Hbp. by apply list_lookup_insert_ne.
  - pose proof (xxmalloc_reuse eb os n st i b f HI Him Hue Hn Hidx Hb Hb0 Hf Hf0) as H.
    apply wp_returns in H as (q & st1 & Hrun & _ & _ & _ & _ & Hbp & _ & _ & _ & nx & _ & Hst).
    exists q, st1, i, b. do 3 (split; [done|]). split.
    + intros x _ Hx.
      apply (Mem.lookup_store_out _ _ _ _ _ x Hst). change (Z.of_nat 8) with 8. lia.
    + intros j _. by rewrite Hbp.
Qed.

Lemma allocation_keeps_mapped_bytes_witness :
  exists ptr st' (i : nat) b,
    xxmalloc demo_emergency_block (os_at 0x20000) 16 (state_of one_page) = Returns ptr st' /\
    class_index 16 = Z.of_nat i /\ blockPtrs (state_of one_page) !! i = Some b /\
    (forall x, is_Some (heap (state_of one_page) !! x) ->
       ~ Header_freelist b <= x < Header_freelist b + 8 ->
       heap st' !! x = heap (state_of one_page) !! x) /\
    (forall j : nat, j <> i -> blockPtrs st' !! j = blockPtrs (state_of one_page) !! j).
Proof.
  pose proof one_page_facts as (_ & HI & Him & Hue & _ & _ & _ & Hfresh).
  apply (allocation_keeps_mapped_bytes demo_emergency_block (os_at 0x20000) 16
           (state_of one_page) HI Him Hue).
  - clear. lia.
  - exact Hfresh.
Defined.

(** X14: A size-class allocation always hands out a block of the page that is
    the table entry of the class when the call returns: past the header,
    inside the page, a multiple of the block size from its base, and mapped
    over its whole length.  Blocks of the older pages of a class are not
    handed out again. *)
Theorem allocation_comes_from_current_page eb os n st :
  Inv st -> in_malloc st = false -> use_emergency_block st = false ->
  1 <= n <= 2048 ->
  fresh_region (heap st) (os PAGE_SIZE) PAGE_SIZE ->
  exists ptr st' (i : nat) b,
    xxmalloc eb os n st = Returns ptr st' /\
    class_index n = Z.of_nat i /\ blockPtrs st' !! i = Some b /\
    b + sizeof_Header <= ptr /\ ptr + class_size (Z.of_nat i) <= b + PAGE_SIZE /\
    (ptr - b) mod class_size (Z.of_nat i) = 0 /\
    Mem.mapped (heap st') ptr (class_size (Z.of_nat i)).
Proof.
  intros HI Him Hue Hn Hfresh.
  pose proof (xxmalloc_small eb os n st HI Him Hue Hn Hfresh) as H.
  apply wp_returns in H as (ptr & st' & Hrun & HI' & _ & _ & _ & i & b & Hci & Hi & Hb & Hb0 & Hg).
  pose proof (good_node_bounds i b ptr Hi Hg) as Hgb.
  destruct HI' as [_ Hpages].
  destruct (Hpages i b (owned_top _ _ _ Hb Hb0)) as (_ & _ & _ & Hmap & _).
  exists ptr, st', i, b. do 3 (split; [done|]).
  split; [unfold sizeof_Header; lia|]. split; [lia|]. split; [by destruct Hg|].
  intros x Hx. apply Hmap. lia.
Qed.

Lemma allocation_comes_from_current_page_witness :
  exists ptr st' (i : nat) b,
    xxmalloc demo_emergency_block (os_at 0x10000) 300 initial_state = Returns ptr st' /\
    class_index 300 = Z.of_nat i /\ blockPtrs st' !! i = Some b /\
    b + sizeof_Header <= ptr /\ ptr + class_size (Z.of_nat i) <= b + PAGE_SIZE /\
    (ptr - b) mod class_size (Z.of_nat i) = 0 /\
    Mem.mapped (heap st') ptr (class_size (Z.of_nat i)).
Proof.
  apply (allocation_comes_from_current_page demo_emergency_block (os_at 0x10000) 300
           initial_state).
  - exact Inv_initial.
  - reflexivity.
  - reflexivity.
  - lia.
  - apply fresh_region_empty; [reflexivity|reflexivity|reflexivity|vm_compute; discriminate].
Defined.

(** ** Pages are never given up *)

Lemma linked_trans m fld a b c :
  linked m fld a b -> linked m fld b c -> linked m fld a c.
Proof.
  induction 1 as [|h n x Hh Hl _ IH]; [done|].
  intros Hc. eapply linked_next; [done|done|by apply IH].
Qed.

Lemma linked_frame m m' fld top h c :
  linked m fld top h -> linked m fld h c ->
  (forall y, y <> NULL -> linked m fld top y ->
     Mem.load 8 m' (fld y) = Mem.load 8 m (fld y)) ->
  linked m' fld h c.
Proof.
  intros Hth Hhc. revert Hth.
  induction Hhc as [|h n x Hh Hn Hnx IH]; intros Hth Hsame; [apply linked_here|].
  eapply linked_next; [done| |].
  - rewrite Hsame; done.
  - apply IH; [|done]. by eapply linked_snoc.
Qed.

(** A page stays owned when the links of the owned pages are not written
    and the old table entry is still reachable from the new one. *)
Lemma owned_keep st st' (j : nat) c top top' :
  blockPtrs st !! j = Some top -> blockPtrs st' !! j = Some top' ->
  linked (heap st') Header_next top' top ->
  (forall y, owned st j y ->
     Mem.load 8 (heap st') (Header_next y) = Mem.load 8 (heap st) (Header_next y)) ->
  owned st j c -> owned st' j c.
Proof.
  intros Htop Htop' Hlink Hsame (Hc & top0 & Htop0 & Hl).
  rewrite Htop in Htop0. injection Htop0 as <-.
  split; [done|]. exists top'. split; [done|].
  eapply linked_trans; [exact Hlink|].
  apply (linked_frame (heap st) (heap st') Header_next top top c); [apply linked_here|done|].
  intros y Hy Hty. apply Hsame. split; [done|]. by exists top.
Qed.

Lemma owned_link_frame st (j i : nat) y b lo :
  Inv st -> owned st j y -> owned st i b ->
  b + 16 <= lo -> lo + 8 <= b + PAGE_SIZE -> lo + 8 <= b + 24 \/ b + 32 <= lo ->
  Header_next y + 8 <= lo \/ lo + 8 <= Header_next y.
Proof.
  intros [_ Hpages] Hy Hb H1 H2 H3.
  destruct (Hpages j y Hy) as (Hya & Hy0 & _).
  destruct (Hpages i b Hb) as (Hba & Hb0 & _).
  destruct (decide (y = b)) as [->|Hne]; [mlia|].
  destruct (pages_disjoint y b Hya Hba Hne); mlia.
Qed.

(** X15: Once a page has been bootstrapped for a class it stays linked under the
    table entry of that class, and no mapped byte is ever unmapped: neither a
    size-class allocation nor a release gives memory back. *)
Theorem pages_stay_owned :
  (forall eb os n st,
     Inv st -> in_malloc st = false -> use_emergency_block st = false ->
     1 <= n <= 2048 ->
     fresh_region (heap st) (os PAGE_SIZE) PAGE_SIZE ->
     exists ptr st',
       xxmalloc eb os n st = Returns ptr st' /\
       (forall j c, owned st j c -> owned st' j c) /\
       (forall x, is_Some (heap st !! x) -> is_Some (heap st' !! x))) /\
  (forall ptr st (i : nat) b,
     Inv st -> owned st i b ->
     b + first_block (class_size (Z.of_nat i)) <= ptr < b + PAGE_SIZE ->
     exists st',
       xxfree ptr st = Returns tt st' /\
       (forall j c, owned st j c -> owned st' j c) /\
       (forall x, is_Some (heap st !! x) -> is_Some (heap st' !! x))).
Proof.
  split.
  - intros eb os n st HI Him Hue Hn Hfresh.
    destruct (class_of_request n Hn) as (i & Hi & Hidx & _).
    pose proof HI as [Hlen Hpages].
    destruct (lookup_lt_is_Some_2 (blockPtrs st) i ltac:(lia)) as [b Hb].
    assert (Hcase : (b = NULL \/ Mem.load 8 (heap st) (Header_freelist b) = Some NULL) \/
                    (b <> NULL /\ exists f, Mem.load 8 (heap st) (Header_freelist b) = Some f /\ f <> NULL)).
    { destruct (decide (b = NULL)) as [->|Hb0]; [by left; left|].
      destruct (Hpages i b (owned_top _ _ _ Hb Hb0)) as (_ & _ & _ & Hmap & _).
      destruct (Mem.load_is_Some 8 (heap st) (Header_freelist b)) as [f Hf].
      { intros x Hx. apply Hmap. mlia. }
      destruct (decide (f = NULL)) as [->|Hf0]; [by left; right|].
      right. split; [done|]. by exists f. }
    destruct Hcase as [Hneed|(Hb0 & f & Hf & Hf0)].
    + pose proof (xxmalloc_fresh eb os n st i b _ HI Him Hue Hn Hidx Hb Hneed eq_refl Hfresh) as H.
      apply wp_returns in H as (q & st1 & Hrun & _ & _ & _ & Hbp & _ & _ & _ & Hout & Hnext & _).
      pose proof Hfresh as (_ & HB0 & _ & _ & Hun).
      assert (Hold : forall x, is_Some (heap st !! x) -> heap st1 !! x = heap st !! x).
      { intros x Hx. apply Hout.
        destruct (decide (os PAGE_SIZE <= x < os PAGE_SIZE + PAGE_SIZE)) as [Hin|Hin]; [|lia].
        rewrite (Hun x Hin) in Hx. by destruct Hx. }
      exists q, st1. split; [done|]. split.
      * intros j c Hown. pose proof Hown as (_ & top & Htop & _).
        assert (Hframe : forall y, owned st j y ->
                  Mem.load 8 (heap st1) (Header_next y) = Mem.load 8 (heap st) (Header_next y)).
        { intros y Hy. apply Mem.load_ext. intros x Hx. apply Hold.
          destruct (Hpages j y Hy) as (_ & _ & _ & Hmap & _). apply Hmap. mlia. }
        destruct (decide (j = i)) as [->|Hji].
        -- rewrite Hb in Htop. injection Htop as <-.
           apply (owned_keep st st1 i c b (os PAGE_SIZE)); try done.
           ++ rewrite Hbp. apply list_lookup_insert_eq. lia.
           ++ eapply linked_next; [unfold NULL; lia|exact Hnext|apply linked_here].
        -- apply (owned_keep st st1 j c top top); try done.
           ++ rewrite Hbp. by rewrite list_lookup_insert_ne.
           ++ apply linked_here.
      * intros x Hx. by rewrite Hold.
    + pose proof (xxmalloc_reuse eb os n st i b f HI Him Hue Hn Hidx Hb Hb0 Hf Hf0) as H.
      apply wp_returns in H as (q & st1 & Hrun & _ & _ & _ & _ & Hbp & _ & _ & _ & nx & _ & Hst).
      exists q, st1. split; [done|]. split.
      * intros j c Hown. pose proof Hown as (_ & top & Htop & _).
        apply (owned_keep st st1 j c top top); try done.
        -- by rewrite Hbp.
        -- apply linked_here.
        -- intros y Hy. apply (Mem.load_store_ne 8 8 _ _ _ _ _ Hst).
           pose proof (owned_link_frame st j i y b (Header_freelist b) HI Hy
                         (owned_top _ _ _ Hb Hb0)) as G.
           change (Z.of_nat 8) with 8. unfold Header_freelist, PAGE_SIZE in *. lia.
      * intros x. by rewrite (Mem.store_is_Some_lookup _ _ _ _ _ x Hst).
  - intros ptr st i b HI Hown Hp.
    pose proof (owned_lt _ _ _ HI Hown) as Hi.
    destruct (xxfree_owned st i b ptr HI Hown Hp)
      as (st' & f & m1 & Hfree & _ & _ & _ & Hbp & _ & _ & _ & Hs1 & Hs2 & _).
    pose proof HI as [_ Hpages]. destruct (Hpages i b Hown) as (Ha & _).
    destruct (block_start_good i b ptr Hi Ha Hp) as [Hgs _].
    pose proof (good_node_bounds i b _ Hi Hgs) as Hsb.
    exists st'. split; [done|]. split.
    + intros j c Hc. pose proof Hc as (_ & top & Htop & _).
      apply (owned_keep st st' j c top top); try done.
      * by rewrite Hbp.
      * apply linked_here.
      * intros y Hy.
        rewrite (Mem.load_store_ne 8 8 _ _ _ _ _ Hs2).
        2:{ pose proof (owned_link_frame st j i y b (Header_freelist b) HI Hy Hown) as G.
            change (Z.of_nat 8) with 8. unfold Header_freelist, PAGE_SIZE in *. lia. }
        apply (Mem.load_store_ne 8 8 _ _ _ _ _ Hs1).
        pose proof (owned_link_frame st j i y b
                      (Node_next (ptr - ptr mod class_size (Z.of_nat i))) HI Hy Hown) as G.
        change (Z.of_nat 8) with 8. unfold Node_next, PAGE_SIZE in *. lia.
    + intros x. rewrite (Mem.store_is_Some_lookup _ _ _ _ _ x Hs2).
      by rewrite (Mem.store_is_Some_lookup _ _ _ _ _ x Hs1).
Qed.

Lemma pages_stay_owned_witness :
  exists ptr st',
    xxmalloc demo_emergency_block (os_at 0x20000) 1024 (state_of one_page) = Returns ptr st' /\
    (forall j c, owned (state_of one_page) j c -> owned st' j c) /\
    (forall x, is_Some (heap (state_of one_page) !! x) -> is_Some (heap st' !! x)).
Proof.
  pose proof one_page_facts as (_ & HI & Him & Hue & _ & _ & _ & Hfresh).
  apply (proj1 pages_stay_owned demo_emergency_block (os_at 0x20000) 1024
           (state_of one_page) HI Him Hue).
  - clear. lia.
  - exact Hfresh.
Defined.

(** ** Releasing a block twice *)

(** The head of the current page's freelist is a block whose link points
    to itself: what a second release of the same block leaves behind. *)
Definition self_linked (st : state) (i : nat) (b ptr : Z) : Prop :=
  Inv st /\ in_malloc st = false /\ use_emergency_block st = false /\
  blockPtrs st !! i = Some b /\ b <> NULL /\ ptr <> NULL /\
  Mem.load 8 (heap st) (Header_freelist b) = Some ptr /\
  Mem.load 8 (heap st) (Node_next ptr) = Some ptr.

Lemma self_linked_alloc eb os n st (i : nat) b ptr :
  1 <= n <= 2048 -> class_index n = Z.of_nat i ->
  self_linked st i b ptr ->
  exists st', xxmalloc eb os n st = Returns ptr st' /\ self_linked st' i b ptr.
Proof.
  intros Hn Hci (HI & Him & Hue & Hb & Hb0 & Hp0 & Hf & Hnx).
  pose proof (xxmalloc_reuse eb os n st i b ptr HI Him Hue Hn Hci Hb Hb0 Hf Hp0) as H.
  apply wp_returns in H as (q & st' & Hrun & -> & HI' & G1 & G2 & G3 & _ & _ & Hg & nx & Hnx' & Hst).
  rewrite Hnx in Hnx'. injection Hnx' as <-.
  pose proof (owned_lt _ _ _ HI (owned_top _ _ _ Hb Hb0)) as Hi.
  pose proof (good_node_bounds i b ptr Hi Hg) as Hgb.
  exists st'. split; [done|]. split; [done|]. do 2 (split; [done|]).
  split; [by rewrite G3|]. do 2 (split; [done|]). split.
  - apply (load64_store64 _ _ _ _ Hst). by eapply load64_range.
  - rewrite (Mem.load_store_ne 8 8 _ _ _ _ _ Hst) by mlia. done.
Qed.

Lemma self_linked_times eb os n (i : nat) b ptr (k : nat) : forall st,
  1 <= n <= 2048 -> class_index n = Z.of_nat i ->
  self_linked st i b ptr ->
  exists st', xxmalloc_times eb os n k st = Returns (replicate k ptr) st'.
Proof.
  induction k as [|k IH]; intros st Hn Hci Hs; cbn [xxmalloc_times replicate].
  - by exists st.
  - destruct (self_linked_alloc eb os n st i b ptr Hn Hci Hs) as (st1 & Hrun & Hs1).
    destruct (IH st1 Hn Hci Hs1) as (st2 & Hrun2).
    exists st2. unfold bind at 1. rewrite Hrun. unfold bind at 1. by rewrite Hrun2.
Qed.

(** X16: [xxfree] does not notice a second release of the same block: the block
    becomes its own successor on the freelist, and from then on every
    allocation of the class returns that one block, to every caller. *)
Theorem double_release_hands_block_out_forever eb os os' n st :
  Inv st -> in_malloc st = false -> use_emergency_block st = false ->
  1 <= n <= 2048 ->
  fresh_region (heap st) (os PAGE_SIZE) PAGE_SIZE ->
  exists ptr st1 st2 st3,
    xxmalloc eb os n st = Returns ptr st1 /\
    xxfree ptr st1 = Returns tt st2 /\
    xxfree ptr st2 = Returns tt st3 /\
    Mem.load 8 (heap st3) (Node_next ptr) = Some ptr /\
    forall k : nat, exists st4,
      xxmalloc_times eb os' n k st3 = Returns (replicate k ptr) st4.
Proof.
  intros HI Him Hue Hn Hfresh.
  pose proof (xxmalloc_small eb os n st HI Him Hue Hn Hfresh) as H.
  apply wp_returns in H as (ptr & st1 & Hrun & HI1 & Him1 & Hue1 & _ & i & b & Hci & Hi & Hb & Hb0 & Hg).
  pose proof HI1 as [_ Hpages].
  pose proof (owned_top _ _ _ Hb Hb0) as Hown.
  destruct (Hpages i b Hown) as (Ha & _).
  destruct (good_node_block_start i b ptr Hi Ha Hg) as [Hst Hin].
  destruct (xxfree_owned st1 i b ptr HI1 Hown Hin)
    as (st2 & f & m1 & Hfree & HI2 & F1 & F2 & F3 & _ & _ & _ & _ & _ & Hl1 & _).
  rewrite Hst in Hl1.
  assert (Hown2 : owned st2 i b) by (apply owned_top; [by rewrite F3|done]).
  destruct (xxfree_owned st2 i b ptr HI2 Hown2 Hin)
    as (st3 & f2 & m2 & Hfree2 & HI3 & E1 & E2 & E3 & _ & _ & Hf2 & _ & _ & Hl3 & Hl4).
  rewrite Hst in Hl3, Hl4. rewrite Hl1 in Hf2. injection Hf2 as <-.
  pose proof (good_node_bounds i b ptr Hi Hg) as Hgb.
  assert (Hs : self_linked st3 i b ptr).
  { split; [done|]. split; [congruence|]. split; [congruence|].
    split; [by rewrite E3, F3|]. split; [done|]. split; [|done].
    destruct (Hpages i b Hown) as (_ & ? & _). unfold NULL. lia. }
  exists ptr, st1, st2, st3. do 4 (split; [done|]).
  intros k. by apply (self_linked_times eb os' n i b ptr k st3).
Qed.

Lemma double_release_hands_block_out_forever_witness :
  exists ptr st1 st2 st3,
    xxmalloc demo_emergency_block (os_at 0x10000) 100 initial_state = Returns ptr st1 /\
    xxfree ptr st1 = Returns tt st2 /\
    xxfree ptr st2 = Returns tt st3 /\
    Mem.load 8 (heap st3) (Node_next ptr) = Some ptr /\
    forall k : nat, exists st4,
      xxmalloc_times demo_emergency_block os_fail 100 k st3 = Returns (replicate k ptr) st4.
Proof.
  apply (double_release_hands_block_out_forever demo_emergency_block (os_at 0x10000)
           os_fail 100 initial_state).
  - exact Inv_initial.
  - reflexivity.
  - reflexivity.
  - lia.
  - apply fresh_region_empty; [reflexivity|reflexivity|reflexivity|vm_compute; discriminate].
Defined.

(** ** Releasing a pointer into a page header *)

Lemma class_size_divides_page (i : nat) b :
  (i < 8)%nat -> b mod PAGE_SIZE = 0 -> b mod class_size (Z.of_nat i) = 0.
Proof. intros Hi Hb. class_cases i Hi; mlia. Qed.

Lemma node_low_word_not_MAGIC (i : nat) b f :
  (i < 8)%nat -> b mod PAGE_SIZE = 0 ->
  f = NULL \/ good_node b (class_size (Z.of_nat i)) f ->
  f mod 256 ^ 4 <> MAGIC.
Proof.
  intros Hi Hb [->|Hg]; [discriminate|].
  unfold good_node in Hg. unfold MAGIC. change (256 ^ 4) with 4294967296.
  class_cases i Hi; mlia.
Qed.

(** X17: [xxfree] checks the marker of the page but not where in the page the
    pointer lies.  Given the base of a page whose block was just handed out,
    it links the header itself into the freelist: the marker is overwritten,
    so the block still in use is reported with the one-page fallback size,
    and the next allocation of the class returns the page base. *)
Theorem release_of_page_base_hands_out_header eb os os' n st :
  Inv st -> in_malloc st = false -> use_emergency_block st = false ->
  1 <= n <= 2048 ->
  fresh_region (heap st) (os PAGE_SIZE) PAGE_SIZE ->
  exists ptr st1 st2 st3,
    xxmalloc eb os n st = Returns ptr st1 /\
    let base := ptr - ptr mod PAGE_SIZE in
    base < ptr /\
    xxfree base st1 = Returns tt st2 /\
    xxmalloc_usable_size ptr st2 = Returns PAGE_SIZE st2 /\
    xxmalloc eb os' n st2 = Returns base st3.
Proof.
  intros HI Him Hue Hn Hfresh.
  pose proof (xxmalloc_small eb os n st HI Him Hue Hn Hfresh) as H.
  apply wp_returns in H as (ptr & st1 & Hrun & HI1 & Him1 & Hue1 & _ & i & b & Hci & Hi & Hb & Hb0 & Hg).
  pose proof HI1 as [Hlen1 Hpages].
  pose proof (owned_top _ _ _ Hb Hb0) as Hown.
  destruct (Hpages i b Hown) as (Ha & H0 & H1 & Hmap & Hmg & Hsz & Hfl).
  pose proof (good_node_bounds i b ptr Hi Hg) as Hgb.
  set (s := class_size (Z.of_nat i)) in *.
  assert (Hpin : b <= ptr < b + PAGE_SIZE) by (unfold PAGE_SIZE in *; lia).
  destruct (page_of_in_page b ptr Ha H0 H1 Hpin) as [Hu Hpg].
  destruct (page_of_in_page b b Ha H0 H1 ltac:(unfold PAGE_SIZE; lia)) as [Hub Hpgb].
  pose proof (class_size_divides_page i b Hi Ha) as Hbs. fold s in Hbs.
  destruct (Mem.load_is_Some 8 (heap st1) (Header_freelist b)) as [f Hf].
  { intros x Hx. apply Hmap. mlia. }
  assert (Hfg : f = NULL \/ good_node b s f).
  { destruct (decide (f = NULL)) as [?|Hf0]; [by left|]. right.
    apply Hfl. split; [done|]. exists f. split; [done|]. apply linked_here. }
  destruct (xxfree_marked st1 b s f Hub) as (m1 & m2 & Hs1 & Hs2 & Hfree).
  { by rewrite Hpgb. }
  { by rewrite Hpgb. }
  { lia. }
  { by rewrite Hpgb. }
  { rewrite Hbs, Z.sub_0_r. intros x Hx. apply Hmap. unfold PAGE_SIZE. lia. }
  rewrite Hpgb in Hs2. rewrite Hbs, Z.sub_0_r in Hs1, Hs2.
  pose proof (load64_range _ _ _ Hf) as Hfr.
  assert (Hhead : Mem.load 8 m2 (Header_freelist b) = Some b).
  { apply (load64_store64 _ _ _ _ Hs2). pow_consts. lia. }
  assert (Hlink : Mem.load 8 m2 (Node_next b) = Some f).
  { unfold Node_next. rewrite (Mem.load_store_ne 8 8 _ _ _ _ _ Hs2) by mlia.
    by apply (load64_store64 _ _ _ _ Hs1). }
  assert (Hmark : Mem.load 4 m2 b = Some (f mod 256 ^ 4)).
  { rewrite (Mem.load_store_ne 8 4 _ _ _ _ _ Hs2) by mlia.
    by apply (Mem.load_low_half _ _ _ _ Hs1). }
  exists ptr, st1, (set_heap m2 st1).
  assert (Hrun3 : wp (xxmalloc eb os' n) (set_heap m2 st1) (fun q _ => q = b)).
  { apply xxmalloc_prelude; try done.
    intros i' b' Hi' Hidx Hsh Hb' st0. cbn [set_heap blockPtrs] in Hb'.
    assert (i' = i) as -> by (unfold class_index in Hci; lia).
    rewrite Hb in Hb'. injection Hb' as <-.
    decide_if false; [|by apply Z.eqb_neq].
    eapply wp_bind. eapply wp_bind. eapply wp_load64; [exact Hhead|]. cbv beta.
    wp_pure. decide_if false; [|by apply Z.eqb_neq]. wp_pure.
    eapply wp_bind. eapply wp_mono; [by apply (pop_spec st0 i b b f)|].
    cbv beta. intros _ st4 (_ & _ & _ & Hp4 & _).
    wp_pure. rewrite Hp4. decide_if false; [|apply Z.eqb_neq; mlia].
    wp_pure. by wp_pure. }
  apply wp_returns in Hrun3 as (q & st3 & Hrun3 & ->).
  exists st3. split; [done|]. cbv zeta. rewrite Hpg.
  split; [unfold good_node in Hg; mlia|]. split; [done|]. split; [|done].
  apply (usable_size_unmarked _ ptr (f mod 256 ^ 4) Hu).
  - by rewrite Hpg.
  - by apply (node_low_word_not_MAGIC i b).
Qed.

Lemma release_of_page_base_hands_out_header_witness :
  exists ptr st1 st2 st3,
    xxmalloc demo_emergency_block (os_at 0x10000) 100 initial_state = Returns ptr st1 /\
    let base := ptr - ptr mod PAGE_SIZE in
    base < ptr /\
    xxfree base st1 = Returns tt st2 /\
    xxmalloc_usable_size ptr st2 = Returns PAGE_SIZE st2 /\
    xxmalloc demo_emergency_block os_fail 100 st2 = Returns base st3.
Proof.
  apply (release_of_page_base_hands_out_header demo_emergency_block (os_at 0x10000)
           os_fail 100 initial_state).
  - exact Inv_initial.
  - reflexivity.
  - reflexivity.
  - lia.
  - apply fresh_region_empty; [reflexivity|reflexivity|reflexivity|vm_compute; discriminate].
Defined.

(** ** The demonstration entry point *)

Lemma page_blocks_tail (i : nat) B x rest :
  (i < 8)%nat ->
  page_blocks B (class_size (Z.of_nat i)) = x :: rest ->
  x = B + PAGE_SIZE - class_size (Z.of_nat i) /\
  Forall (fun y => y + class_size (Z.of_nat i) <= x) rest.
Proof.
  intros Hi Hpb. split.
  - pose proof (page_blocks_lookup i B 0 Hi) as H. cbv zeta in H.
    rewrite Hpb in H. cbn [length] in H. specialize (H ltac:(lia)).
    injection H as ->. lia.
  - apply Forall_forall. intros y Hy. apply list_elem_of_lookup in Hy as [j Hj].
    pose proof (page_blocks_lookup i B (S j) Hi) as H. cbv zeta in H.
    pose proof (page_blocks_lookup i B 0 Hi) as H0. cbv zeta in H0.
    rewrite Hpb in H, H0. cbn [length] in H, H0.
    apply lookup_lt_Some in Hj as Hlt.
    specialize (H ltac:(lia)). specialize (H0 ltac:(lia)).
    change ((x :: rest) !! S j) with (rest !! j) in H. rewrite Hj in H.
    injection H as ->. injection H0 as ->.
    destruct (class_facts i Hi) as (Hs & _). cbv zeta in Hs. nia.
Qed.

(** X18: On a machine whose Page Source works, [main] obtains one page, prints
    6 and returns 0; the block it used is back at the head of the freelist
    of the 16-byte class, which again holds every block of the page in the
    order the bootstrap left them. *)
Theorem main_prints_six eb os :
  fresh_region ∅ (os PAGE_SIZE) PAGE_SIZE ->
  let B := os PAGE_SIZE in
  exists st',
    main eb os initial_state = Returns (6, 0) st' /\
    in_malloc st' = false /\ use_emergency_block st' = false /\
    blockPtrs st' = <[0%nat := B]> (replicate 8 NULL) /\
    Mem.load 8 (heap st') (Header_freelist B) = Some (B + PAGE_SIZE - 16) /\
    walk (Z.to_nat PAGE_SIZE) (heap st') (B + PAGE_SIZE - 16) = Some (page_blocks B 16) /\
    (forall y, is_Some (heap st' !! y) <-> B <= y < B + PAGE_SIZE).
Proof.
  intros Hfresh B.
  assert (Hi : (0 < 8)%nat) by lia.
  pose proof (xxmalloc_fresh eb os sizeof_int initial_state 0 NULL B Inv_initial eq_refl eq_refl
                ltac:(unfold sizeof_int; lia) eq_refl eq_refl (or_introl eq_refl) eq_refl Hfresh) as H.
  apply wp_returns in H as (ptr & st1 & Hrun & HI1 & Him1 & Hue1 & Hbp1 & _ & _ & Hg & Hout & _
                              & rest & h1 & Hpb & Hh1 & Hl1).
  change (class_size (Z.of_nat 0)) with 16 in *.
  destruct (page_blocks_tail 0 B ptr rest Hi Hpb) as [Eptr Hrest].
  change (class_size (Z.of_nat 0)) with 16 in *.
  assert (HB1 : blockPtrs st1 !! 0%nat = Some B) by (by rewrite Hbp1).
  pose proof Hfresh as (Ha & H0 & _ & H1 & Hun).
  assert (HB0 : B <> NULL) by (unfold NULL; lia).
  destruct HI1 as [_ Hpages].
  destruct (Hpages 0%nat B (owned_top _ _ _ HB1 HB0)) as (_ & _ & _ & Hmap & Hmg & Hsz & Hfl).
  change (class_size (Z.of_nat 0)) with 16 in *.
  assert (Hpin : B <= ptr < B + PAGE_SIZE) by (unfold PAGE_SIZE in *; lia).
  destruct (page_of_in_page B ptr Ha H0 H1 Hpin) as [Hu Hpg].
  assert (Hps : ptr - ptr mod 16 = ptr) by (clear - Eptr Ha; mlia).
  (* *ptr = 6 *)
  destruct (Mem.store_is_Some 4 (heap st1) ptr 6) as [m Hm].
  { intros x Hx. apply Hmap. change (Z.of_nat 4) with 4 in Hx. unfold PAGE_SIZE in *. lia. }
  assert (Hrd : Mem.load 4 m ptr = Some 6) by (by rewrite (load32_store32 _ _ _ _ Hm)).
  (* xxfree(ptr) *)
  destruct (xxfree_marked (set_heap m st1) ptr 16 h1 Hu) as (m1 & m2 & Hs1 & Hs2 & Hfree);
    cbn [set_heap heap]; rewrite ?Hpg, ?Hps.
  { rewrite (Mem.load_store_ne 4 4 _ _ _ _ _ Hm) by mlia. done. }
  { rewrite (Mem.load_store_ne 4 8 _ _ _ _ _ Hm) by mlia. done. }
  { lia. }
  { rewrite (Mem.load_store_ne 4 8 _ _ _ _ _ Hm) by mlia. done. }
  { eapply Mem.store_mapped; [done|]. intros x Hx. apply Hmap. unfold PAGE_SIZE in *. lia. }
  cbn [set_heap heap] in Hs1, Hs2. rewrite Hpg in Hs2. rewrite Hps in Hs1, Hs2.
  exists (set_heap m2 (set_heap m st1)). split.
  { unfold main. unfold bind at 1. rewrite Hrun.
    unfold bind at 1. unfold store_int at 1. rewrite Hm.
    unfold bind at 1. unfold load_int at 1. cbn [set_heap heap]. rewrite Hrd.
    unfold bind at 1. rewrite Hfree. reflexivity. }
  cbn [set_heap in_malloc use_emergency_block blockPtrs heap].
  do 3 (split; [done|]).
  pose proof (load64_range _ _ _ Hh1) as Hh1r.
  split.
  { rewrite <- Eptr. apply (load64_store64 _ _ _ _ Hs2). pow_consts. lia. }
  split.
  { rewrite <- Eptr, Hpb. apply list_at_walk.
    - cbn [list_at]. split; [done|]. split; [unfold NULL; lia|]. exists h1. split.
      + unfold Node_next. rewrite (Mem.load_store_ne 8 8 _ _ _ _ _ Hs2) by mlia.
        by apply (load64_store64 _ _ _ _ Hs1).
      + eapply list_at_frame; [exact Hl1|]. intros y Hy.
        rewrite Forall_forall in Hrest. specialize (Hrest y Hy).
        assert (Hgy : good_node B 16 y).
        { apply Hfl. split; [by eapply list_at_nonnull|].
          exists h1. split; [done|]. by eapply list_at_elem_linked. }
        pose proof (good_node_bounds 0 B y Hi Hgy) as Hyb.
        unfold Node_next.
        rewrite (Mem.load_store_ne 8 8 _ _ _ _ _ Hs2) by mlia.
        rewrite (Mem.load_store_ne 8 8 _ _ _ _ _ Hs1) by mlia.
        apply (Mem.load_store_ne 4 8 _ _ _ _ _ Hm). mlia.
    - rewrite <- Hpb, length_page_blocks.
      apply Z2Nat.inj_le; vm_compute; discriminate. }
  intros y.
  rewrite (Mem.store_is_Some_lookup _ _ _ _ _ y Hs2).
  rewrite (Mem.store_is_Some_lookup _ _ _ _ _ y Hs1).
  rewrite (Mem.store_is_Some_lookup _ _ _ _ _ y Hm).
  split.
  - intros Hy. destruct (decide (B <= y < B + PAGE_SIZE)) as [?|Hno]; [done|].
    rewrite Hout in Hy by lia. cbn [heap initial_state] in Hy.
    rewrite lookup_empty in Hy. by destruct Hy.
  - apply Hmap.
Qed.

Lemma main_prints_six_witness :
  exists st',
    main demo_emergency_block (os_at 0x10000) initial_state = Returns (6, 0) st' /\
    in_malloc st' = false /\ use_emergency_block st' = false /\
    blockPtrs st' = <[0%nat := 0x10000]> (replicate 8 NULL) /\
    Mem.load 8 (heap st') (Header_freelist 0x10000) = Some (0x10000 + PAGE_SIZE - 16) /\
    walk (Z.to_nat PAGE_SIZE) (heap st') (0x10000 + PAGE_SIZE - 16)
      = Some (page_blocks 0x10000 16) /\
    (forall y, is_Some (heap st' !! y) <-> 0x10000 <= y < 0x10000 + PAGE_SIZE).
Proof.
  apply (main_prints_six demo_emergency_block (os_at 0x10000)).
  apply fresh_region_empty; [reflexivity|reflexivity|reflexivity|vm_compute; discriminate].
Defined.

(** X19: When the Page Source refuses the first page, [main] never reaches
    [printf]: it ends in an invalid access inside [xxmalloc]. *)
Theorem main_without_memory_crashes eb os :
  os PAGE_SIZE = MAP_FAILED -> main eb os initial_state = Crashes.
Proof.
  intros Hos. unfold main. unfold bind at 1.
  rewrite (xxmalloc_small_mmap_fails eb os sizeof_int initial_state 0 NULL); try done.
  - apply user_space_empty.
  - lia.
  - by left.
Qed.

Lemma main_without_memory_crashes_witness :
  main demo_emergency_block os_fail initial_state = Crashes.
Proof. apply (main_without_memory_crashes demo_emergency_block os_fail). reflexivity. Defined.
